(** * mailrail: a shallow embedding of the job-processing engine

    The development follows [mailrail.go] and the checkpoint file of the
    package.  The Go program talks to four collaborators that live outside
    the package: the persistent queue's job object ([pqueue.Job]), the
    transmission service ([sesService], a Go interface), the AIMD token
    bucket, and a handful of standard-library functions (JSON decoding, the
    two template engines, [net/mail]).  The job and the service are state
    machines given by type classes; the library functions are the fields of
    [GoRuntime]; everything the package itself computes is a definition
    below, translated from the source line by line.

    Effects are made explicit.  A function that calls a collaborator takes
    the collaborator's state and returns its next state; the calls
    [processJob] makes are collected, in order, in a list of [event]s.
    Log output is not part of the model. *)

From Stdlib Require Import ZArith QArith String Ascii List Lia Bool.
From stdpp Require Import base decidable option list gmap strings pretty.

Local Open Scope Z_scope.
Local Open Scope string_scope.
Local Open Scope list_scope.

(** ** Data model *)

(** A Go [[]byte] and a Go [string] are both sequences of bytes. *)
Abbreviation bytes := string (only parsing).

Record Recipient := {
  Recipient_Name : string;
  Recipient_Addr : string;
  Recipient_FromName : string;
  Recipient_FromAddr : string;
  Recipient_Subject : string;
  Recipient_Context : gmap string string
}.

Record Spec := {
  Spec_FromName : string;
  Spec_FromAddr : string;
  Spec_Subject : string;
  Spec_Html : string;
  Spec_Text : string;
  Spec_Recipients : list Recipient
}.

(** [type checkpoint struct { RecipientsSent int }] *)
Record checkpoint := { RecipientsSent : Z }.

(** The request and response types of the SES client.  Pointer fields that
    [computeSendEmailInput] always allocates are modelled by value; the
    scalar pointers [Data] and [Charset] of a [Content], which it leaves
    [nil] for an omitted body, and the pointers of the responses, which the
    package dereferences, are options ([None] is [nil]). *)
Module ses.
Record Content := { Data : option string; Charset : option string }.
Record Body := { Html : Content; Text : Content }.
Record Message := { Subject : Content; Body_ : Body }.
Record Destination := {
  ToAddresses : list string;
  CcAddresses : list string;
  BccAddresses : list string
}.
Record SendEmailInput := {
  Source : string;
  Destination_ : Destination;
  Message_ : Message
}.
Record SendEmailOutput := { MessageId : option string }.
End ses.

(** Go's [error] values, as far as the package tells them apart:
    [awserr.Error] (with the extra data of an [awserr.RequestFailure] when
    it is one), an error for which [os.IsNotExist] holds, and any other. *)
Inductive error :=
| awserr_Error (code message : string) (requestFailure : option (Z * string))
| os_ErrNotExist (msg : string)
| errorString (msg : string).

Definition os_IsNotExist (err : error) : bool :=
  match err with os_ErrNotExist _ => true | _ => false end.

(** The text of [err.Error()]. *)
Definition Error (err : error) : string :=
  match err with
  | awserr_Error code message _ => code +:+ ": " +:+ message
  | os_ErrNotExist msg => msg
  | errorString msg => msg
  end.

(** What a call gives back: a value, a Go [error], or a run-time panic
    (an index out of range, a nil dereference). *)
Inductive result (A : Type) :=
| Ok (a : A)
| Err (err : error)
| Panic.
Arguments Ok {A} a.
Arguments Err {A} err.
Arguments Panic {A}.

(** ** Collaborators *)

(** The standard-library functions the package calls. *)
Class GoRuntime := {
  float64 : Type;
  (** [json.Unmarshal(bytes, &spec)] *)
  json_Unmarshal_Spec : bytes -> error + Spec;
  (** [json.Unmarshal(checkpointBytes, &checkpoint)] *)
  json_Unmarshal_checkpoint : bytes -> error + checkpoint;
  (** [text/template]: [New("text").Parse] and [Execute] into a buffer *)
  ttemplate_Template : Type;
  ttemplate_Parse : string -> error + ttemplate_Template;
  ttemplate_Execute : ttemplate_Template -> gmap string string -> error + string;
  (** [html/template] *)
  htemplate_Template : Type;
  htemplate_Parse : string -> error + htemplate_Template;
  htemplate_Execute : htemplate_Template -> gmap string string -> error + string;
  (** [mail.Address{name, addr}.String()] *)
  mail_Address_String : string -> string -> string
}.

(** [type sesService interface].  The service is stateful (the mock of the
    test suite counts what it sent), so each method returns the next
    state. *)
Class sesService (S : Type) `{GoRuntime} := {
  GetSendQuota : S -> S * (error + option float64);
  SendEmail : S -> ses.SendEmailInput -> S * (error + ses.SendEmailOutput)
}.

(** The methods of [*pqueue.Job] the package uses.  [Job_Get] reads an
    attribute; [Job_Set] writes one and may fail; the three terminal calls
    move the job to another queue directory (their error results are
    dropped by the callers). *)
Class Job (J : Type) := {
  Basename : J -> string;
  Job_Get : J -> string -> error + bytes;
  Job_Set : J -> string -> bytes -> J * option error;
  Job_Fail : J -> J;
  Job_Finish : J -> J;
  Job_Submit : J -> J
}.

(** [type Mangler struct] *)
Record Mangler (S : Type) := {
  ShouldSend : bool;
  Mangle : string -> string;
  SesService : option S
}.
Arguments ShouldSend {S} _.
Arguments Mangle {S} _ _.
Arguments SesService {S} _.
Arguments Build_Mangler {S} _ _ _.

(** [const name string = "recipients_sent"] *)
Definition name : string := "recipients_sent".

Definition dquote : ascii := ascii_of_nat 34.
Definition newline : ascii := ascii_of_nat 10.

(** [fmt]'s rendering of an [int] under the verb [%s]. *)
Definition fmt_bad_s (i : Z) : string := "%!s(int=" +:+ pretty i +:+ ")".

(** [json.Marshal(checkpoint{i})] *)
Definition json_Marshal_checkpoint (c : checkpoint) : bytes :=
  "{" +:+ String dquote (name +:+ String dquote (":" +:+ pretty (RecipientsSent c) +:+ "}")).

(** What [processJob] does to its collaborators, in order. *)
Inductive event `{GoRuntime} :=
| EvGetSendQuota
| EvNewBucket (maxRatePerSecond : float64)
| EvAttempt (i : Z)
| EvSendEmail (params : ses.SendEmailInput)
| EvBackoff
| EvStop
| EvSet (key : string) (value : bytes)
| EvFail
| EvFinish
| EvSubmit.

(** How a run of [processJob] ends: it returns, it panics, or the model's
    fuel is used up while the retry loop is still running. *)
Inductive status := Returned | Panicked | OutOfFuel.

Section Mailrail.
Context `{rt : GoRuntime} {S : Type} `{svcI : !sesService S} {J : Type} `{jobI : Job J}.

(** [type mailing struct]; a [nil] template pointer is [None]. *)
Record mailing := {
  spec : Spec;
  textTemplate : option ttemplate_Template;
  htmlTemplate : option htemplate_Template
}.

(** *** The checkpoint file *)

Definition setCheckpoint (job : J) (i : Z) : J * option error :=
  let checkpointBytes := json_Marshal_checkpoint {| RecipientsSent := i |} in
  match Job_Set job name checkpointBytes with
  | (job', Some err) =>
      (job', Some (errorString ("Job " +:+ Basename job +:+ " failed to checkpoint after "
                                +:+ pretty i +:+ " recipients: " +:+ Error err)))
  | (job', None) => (job', None)
  end.

Definition getCheckpoint (job : J) : error + Z :=
  match Job_Get job name with
  | inl err => if os_IsNotExist err then inr 0 else inl err
  | inr checkpointBytes =>
      match json_Unmarshal_checkpoint checkpointBytes with
      | inl err => inl (errorString ("Cannot parse contents of " +:+ name +:+ ": " +:+ Error err))
      | inr checkpoint => inr (RecipientsSent checkpoint)
      end
  end.

(** *** Building the mailing *)

Definition parseSpec (b : bytes) : error + Spec := json_Unmarshal_Spec b.

Definition getMailing (job : J) : error + mailing :=
  match Job_Get job "spec" with
  | inl err => inl (errorString ("Cannot get spec: " +:+ Error err))
  | inr specbytes =>
      match parseSpec specbytes with
      | inl err => inl (errorString ("Cannot parse spec: " +:+ Error err))
      | inr spec =>
          let text :=
            if decide (Spec_Text spec = "") then inr None
            else match ttemplate_Parse (Spec_Text spec) with
                 | inl err => inl (errorString ("Cannot parse text template: " +:+ Error err))
                 | inr t => inr (Some t)
                 end in
          match text with
          | inl err => inl err
          | inr textTemplate =>
              let html :=
                if decide (Spec_Html spec = "") then inr None
                else match htemplate_Parse (Spec_Html spec) with
                     | inl err => inl (errorString ("Cannot parse html template: " +:+ Error err))
                     | inr t => inr (Some t)
                     end in
              match html with
              | inl err => inl err
              | inr htmlTemplate =>
                  inr {| spec := spec; textTemplate := textTemplate; htmlTemplate := htmlTemplate |}
              end
          end
      end
  end.

(** *** Resolving one recipient *)

(** [mailing.spec.Recipients[i]]: a Go slice index, which panics out of
    range ([None]); so do the two functions below that start with it. *)
Definition index (m : mailing) (i : Z) : option Recipient :=
  if decide (0 <= i) then Spec_Recipients (spec m) !! Z.to_nat i else None.

Definition computeSource (m : mailing) (i : Z) : option string :=
  match index m i with
  | None => None
  | Some recipient =>
      let fromName :=
        if negb (bool_decide (Recipient_FromName recipient = "")) then Recipient_FromName recipient
        else if negb (bool_decide (Spec_FromName (spec m) = "")) then Spec_FromName (spec m)
        else "" in
      let fromAddr :=
        if negb (bool_decide (Recipient_FromAddr recipient = "")) then Recipient_FromAddr recipient
        else Spec_FromAddr (spec m) in
      if bool_decide (fromAddr = "") then Some "<>"
      else if bool_decide (fromName = "") then Some fromAddr
      else Some (mail_Address_String fromName fromAddr)
  end.

Definition computeSubject (m : mailing) (i : Z) : option string :=
  match index m i with
  | None => None
  | Some recipient =>
      if negb (bool_decide (Recipient_Subject recipient = "")) then Some (Recipient_Subject recipient)
      else Some (Spec_Subject (spec m))
  end.

Definition emptyContent : ses.Content := {| ses.Data := None; ses.Charset := None |}.
Definition utf8Content (data : string) : ses.Content :=
  {| ses.Data := Some data; ses.Charset := Some "UTF-8" |}.

Definition computeSendEmailInput (m : mailing) (i : Z) (mangler : Mangler S)
  : result ses.SendEmailInput :=
  match index m i with
  | None => Panic
  | Some recipient =>
      let text :=
        match textTemplate m with
        | None => Ok emptyContent
        | Some t =>
            match ttemplate_Execute t (Recipient_Context recipient) with
            | inl err => Err (errorString ("Failed to render text template for recipient "
                                           +:+ fmt_bad_s i +:+ ": " +:+ Error err +:+ String newline ""))
            | inr textBytes => Ok (utf8Content textBytes)
            end
        end in
      match text with
      | Panic => Panic
      | Err err => Err err
      | Ok textContent =>
          let html :=
            match htmlTemplate m with
            | None => Ok emptyContent
            | Some t =>
                match htemplate_Execute t (Recipient_Context recipient) with
                | inl err => Err (errorString ("Failed to render HTML template for recipient "
                                               +:+ fmt_bad_s i +:+ ": " +:+ Error err +:+ String newline ""))
                | inr htmlBytes => Ok (utf8Content htmlBytes)
                end
            end in
          match html with
          | Panic => Panic
          | Err err => Err err
          | Ok htmlContent =>
              match computeSource m i, computeSubject m i with
              | Some source, Some subject =>
                  Ok {| ses.Source := source;
                        ses.Destination_ :=
                          {| ses.ToAddresses := [Mangle mangler (Recipient_Addr recipient)];
                             ses.CcAddresses := [];
                             ses.BccAddresses := [] |};
                        ses.Message_ :=
                          {| ses.Subject := utf8Content subject;
                             ses.Body_ := {| ses.Html := htmlContent; ses.Text := textContent |} |} |}
              | _, _ => Panic
              end
          end
      end
  end.

(** [for i, _ := range mailing.spec.Recipients]: the indices from [i]
    on, [todo] of them. *)
Fixpoint dryRun_from (m : mailing) (mangler : Mangler S) (i : Z) (todo : nat) : result unit :=
  match todo with
  | O => Ok tt
  | Datatypes.S todo' =>
      match computeSendEmailInput m i mangler with
      | Ok _ => dryRun_from m mangler (i + 1) todo'
      | Err err => Err (errorString ("Dry run failed for recipient " +:+ fmt_bad_s i +:+ ": "
                                     +:+ Error err +:+ String newline ""))
      | Panic => Panic
      end
  end.

Definition dryRun (m : mailing) (mangler : Mangler S) : result unit :=
  dryRun_from m mangler 0 (length (Spec_Recipients (spec m))).

(** [mailing.send]: the second component lists the calls made to the
    transmission service. *)
Definition send (svc : S) (m : mailing) (i : Z) (mangler : Mangler S)
  : S * list event * result string :=
  match computeSendEmailInput m i mangler with
  | Panic => (svc, [], Panic)
  | Err err => (svc, [], Err err)
  | Ok params =>
      if negb (ShouldSend mangler) then (svc, [], Ok "NullMangler")
      else
        match SendEmail svc params with
        | (svc', inl err) => (svc', [EvSendEmail params], Err err)
        | (svc', inr response) =>
            match ses.MessageId response with
            | None => (svc', [EvSendEmail params], Panic)
            | Some messageId => (svc', [EvSendEmail params], Ok messageId)
            end
        end
  end.

(** *** Manglers *)

Definition identityAddr (addr : string) : string := addr.

Definition alwaysAddr (addr : string) : string -> string := fun _ => addr.

Definition DoNotMangle : Mangler S :=
  {| ShouldSend := true; Mangle := identityAddr; SesService := None |}.

Definition DoNotSend : Mangler S :=
  {| ShouldSend := false; Mangle := identityAddr; SesService := None |}.

Definition SendToMe (addr : string) : Mangler S :=
  {| ShouldSend := true; Mangle := alwaysAddr addr; SesService := None |}.

Definition SendToSimulator : Mangler S :=
  {| ShouldSend := true; Mangle := alwaysAddr "success@simulator.amazonses.com";
     SesService := None |}.

Definition UseMockSesService (svc : S) : Mangler S :=
  {| ShouldSend := true; Mangle := identityAddr; SesService := Some svc |}.

(** *** Processing one job *)

Definition getMaxSendRate (svc : S) : S * result float64 :=
  match GetSendQuota svc with
  | (svc', inl err) => (svc', Err err)
  | (svc', inr None) => (svc', Panic)
  | (svc', inr (Some maxSendRate)) => (svc', Ok maxSendRate)
  end.

(** The two nested loops of [processJob], from index [i] on, ending with
    [job.Finish()].  One unit of [fuel] is one pass through the inner
    loop: [EvAttempt i] stands for taking a token from [tb.Bucket] and
    calling [mailing.send(svc, i, mangler)].  After a backoff the inner loop
    starts over with the same [i], for which [i < n] still holds, so the
    recursive call takes the same branch again; after a checkpoint write
    the outer loop goes on with [i + 1]. *)
Fixpoint sendLoop (fuel : nat) (svc : S) (job : J) (m : mailing) (mangler : Mangler S) (i : Z)
  : S * J * list event * status :=
  match fuel with
  | O => (svc, job, [], OutOfFuel)
  | Datatypes.S fuel' =>
      let n := Z.of_nat (length (Spec_Recipients (spec m))) in
      if decide (i < n) then
        let '(svc1, calls, r) := send svc m i mangler in
        match r with
        | Panic => (svc1, job, EvAttempt i :: calls, Panicked)
        | Err (awserr_Error code _ _) =>
            if bool_decide (code = "Throttling") then
              let '(svc2, job2, evs, st) := sendLoop fuel' svc1 job m mangler i in
              (svc2, job2, EvAttempt i :: calls ++ EvBackoff :: evs, st)
            else if bool_decide (code = "ServiceUnavailable") then
              let '(svc2, job2, evs, st) := sendLoop fuel' svc1 job m mangler i in
              (svc2, job2, EvAttempt i :: calls ++ EvBackoff :: evs, st)
            else (svc1, Job_Fail job, EvAttempt i :: calls ++ [EvFail], Returned)
        | Err _ => (svc1, Job_Fail job, EvAttempt i :: calls ++ [EvFail], Returned)
        | Ok messageId =>
            let checkpointBytes := json_Marshal_checkpoint {| RecipientsSent := i + 1 |} in
            match setCheckpoint job (i + 1) with
            | (job1, Some _) =>
                (svc1, Job_Fail job1,
                 EvAttempt i :: calls ++ [EvSet name checkpointBytes; EvFail], Returned)
            | (job1, None) =>
                let '(svc2, job2, evs, st) := sendLoop fuel' svc1 job1 m mangler (i + 1) in
                (svc2, job2, EvAttempt i :: calls ++ EvSet name checkpointBytes :: evs, st)
            end
        end
      else (svc, Job_Finish job, [EvFinish], Returned)
  end.

(** [defer tb.Stop()]: the bucket is stopped when the function is left,
    by a return or by a panic. *)
Definition deferred_Stop (st : status) : list event :=
  match st with OutOfFuel => [] | _ => [EvStop] end.

Definition processJob (fuel : nat) (svc : S) (job : J) (mangler : Mangler S)
  : S * J * list event * status :=
  match getMailing job with
  | inl err => (svc, Job_Fail job, [EvFail], Returned)
  | inr m =>
      match dryRun m mangler with
      | Panic => (svc, job, [], Panicked)
      | Err err => (svc, Job_Fail job, [EvFail], Returned)
      | Ok _ =>
          match getMaxSendRate svc with
          | (svc1, Panic) => (svc1, job, [EvGetSendQuota], Panicked)
          | (svc1, Err err) => (svc1, Job_Submit job, [EvGetSendQuota; EvSubmit], Returned)
          | (svc1, Ok maxRatePerSecond) =>
              match getCheckpoint job with
              | inl err =>
                  (svc1, Job_Fail job,
                   [EvGetSendQuota; EvNewBucket maxRatePerSecond; EvFail; EvStop], Returned)
              | inr i =>
                  let '(svc2, job2, evs, st) := sendLoop fuel svc1 job m mangler i in
                  (svc2, job2,
                   EvGetSendQuota :: EvNewBucket maxRatePerSecond :: evs ++ deferred_Stop st, st)
              end
          end
      end
  end.

End Mailrail.

(** ** Reading a trace *)

Section Traces.
Context `{rt : GoRuntime}.

(** The recipient indices of the transmission attempts, in order. *)
Definition attempts (tr : list event) : list Z :=
  flat_map (fun e => match e with EvAttempt i => [i] | _ => [] end) tr.

(** The requests handed to the transmission service, in order. *)
Definition transmissions (tr : list event) : list ses.SendEmailInput :=
  flat_map (fun e => match e with EvSendEmail params => [params] | _ => [] end) tr.

(** The values written to the checkpoint attribute, in order. *)
Definition checkpointWrites (tr : list event) : list bytes :=
  flat_map (fun e => match e with
                     | EvSet key value => if bool_decide (key = name) then [value] else []
                     | _ => []
                     end) tr.

(** The backoff signals sent to the rate source. *)
Definition backoffs (tr : list event) : nat :=
  length (flat_map (fun e => match e with EvBackoff => [tt] | _ => [] end) tr).

(** The terminal queue calls on the job, in order. *)
Definition terminalCalls (tr : list event) : list event :=
  flat_map (fun e => match e with EvFail | EvFinish | EvSubmit => [e] | _ => [] end) tr.

(** The number of recipients, [n := len(mailing.spec.Recipients)]. *)
Definition recipients (m : mailing) : Z := Z.of_nat (length (Spec_Recipients (spec m))).

(** The trace and the status of a run. *)
Definition trace_of {S J : Type} (run : S * J * list event * status) : list event := run.1.2.
Definition status_of {S J : Type} (run : S * J * list event * status) : status := run.2.

(** The override rule of the job format: the recipient's own value when
    it is not empty, the job's value otherwise. *)
Definition override (specific general : string) : string :=
  if bool_decide (specific = "") then general else specific.

(** The errors the send loop answers with a backoff: an [awserr.Error]
    whose code is [Throttling] or [ServiceUnavailable]. *)
Definition TransientServiceFault (err : error) : Prop :=
  exists code message requestFailure,
    err = awserr_Error code message requestFailure
    /\ (code = "Throttling" \/ code = "ServiceUnavailable").

(** The checkpoint attribute as [setCheckpoint] writes it. *)
Definition checkpointBytes (i : Z) : bytes := json_Marshal_checkpoint {| RecipientsSent := i |}.

End Traces.

(** ** The Go standard library, as far as the package relies on it

    The package hands two decisions to the standard library: how an
    address with a display name is written ([net/mail]) and what executing
    a template does with a key the data lacks ([text/template]).  Both are
    modelled here after the library sources of the Go releases the package
    was written for, and checked below against the expectations of the
    package's own test suite. *)

Module netmail.

Definition byte_of (c : ascii) : N := N_of_ascii c.

(** [isVchar]: printable US-ASCII, ['!'] to ['~']. *)
Definition isVchar (c : ascii) : bool :=
  ((33 <=? byte_of c) && (byte_of c <=? 126))%N.

(** [isWSP]: space or horizontal tab. *)
Definition isWSP (c : ascii) : bool :=
  ((byte_of c =? 32) || (byte_of c =? 9))%N.

(** [isQtext]: printable US-ASCII other than backslash and double quote. *)
Definition isQtext (c : ascii) : bool :=
  if ((byte_of c =? 92) || (byte_of c =? 34))%N then false else isVchar c.

Fixpoint allPrintable (s : string) : bool :=
  match s with
  | EmptyString => true
  | String c s' => (isVchar c || isWSP c) && allPrintable s'
  end.

(** The body of a quoted string: a backslash before every byte that is
    neither qtext nor white space. *)
Fixpoint quoted (s : string) : string :=
  match s with
  | EmptyString => EmptyString
  | String c s' =>
      if negb (isQtext c) && negb (isWSP c)
      then String (ascii_of_nat 92) (String c (quoted s'))
      else String c (quoted s')
  end.

(** ["0123456789ABCDEF"[n]] *)
Definition upperhex (n : N) : ascii :=
  if (n <? 10)%N then ascii_of_N (48 + n) else ascii_of_N (55 + n).

(** The text of a "Q" encoded word: space as underscore, printable bytes
    other than [=], [?] and [_] as they are, every other byte as [=XX]. *)
Fixpoint qEncode (s : string) : string :=
  match s with
  | EmptyString => EmptyString
  | String c s' =>
      if (byte_of c =? 32)%N then String "_"%char (qEncode s')
      else if isVchar c && negb ((byte_of c =? 61) || (byte_of c =? 63) || (byte_of c =? 95))%N
      then String c (qEncode s')
      else String "="%char
             (String (upperhex (N.shiftr (byte_of c) 4))
                (String (upperhex (N.land (byte_of c) 15)) (qEncode s')))
  end.

(** Whether some byte of the string is outside US-ASCII. *)
Fixpoint nonASCII (s : string) : bool :=
  match s with
  | EmptyString => false
  | String c s' => (128 <=? byte_of c)%N || nonASCII s'
  end.

(** [func (a *Address) String() string] *)
Definition Address_String (Name Address : string) : string :=
  let s := "<" +:+ Address +:+ ">" in
  if bool_decide (Name = "") then s
  else if allPrintable Name
  then String dquote (quoted Name) +:+ String dquote (" " +:+ s)
  else "=?utf-8?q?" +:+ qEncode Name +:+ "?= " +:+ s.

End netmail.

(** Templates of the key-substitution kind the job specs use: literal text
    and actions [{{.key}}], or [{{.key.field...}}], run against a
    [map[string]string]. *)
Module template.

Inductive node :=
| TextNode (text : string)
| FieldNode (key : string) (chain : list string).

(** The source up to the first occurrence of the two-byte delimiter
    [d d], and the source after it. *)
Fixpoint cut (d : ascii) (s : string) : option (string * string) :=
  match s with
  | String a ((String b rest) as s') =>
      if bool_decide (a = d) && bool_decide (b = d) then Some (EmptyString, rest)
      else match cut d s' with
           | Some (before, after) => Some (String a before, after)
           | None => None
           end
  | _ => None
  end.

Fixpoint trimLeft (s : string) : string :=
  match s with
  | String c s' => if bool_decide (c = " "%char) then trimLeft s' else s
  | EmptyString => EmptyString
  end.

Definition rev_string (s : string) : string := string_of_list_ascii (rev (list_ascii_of_string s)).

Definition trim (s : string) : string := rev_string (trimLeft (rev_string (trimLeft s))).

Definition isAlphaNumeric (c : ascii) : bool :=
  let b := N_of_ascii c in
  ((b =? 95) || ((48 <=? b) && (b <=? 57)) || ((65 <=? b) && (b <=? 90))
   || ((97 <=? b) && (b <=? 122)))%N.

(** The dot-separated identifiers of [.a.b.c], read from the byte after
    the first dot; [cur] is the identifier being read. *)
Fixpoint idents (cur : string) (s : string) : option (list string) :=
  match s with
  | EmptyString => if bool_decide (cur = "") then None else Some [rev_string cur]
  | String c s' =>
      if bool_decide (c = "."%char) then
        if bool_decide (cur = "") then None
        else match idents EmptyString s' with
             | Some l => Some (rev_string cur :: l)
             | None => None
             end
      else if isAlphaNumeric c then idents (String c cur) s'
      else None
  end.

Definition action (body : string) : option node :=
  match trim body with
  | String "." s =>
      match idents EmptyString s with
      | Some (key :: chain) => Some (FieldNode key chain)
      | _ => None
      end
  | _ => None
  end.

Fixpoint parse (fuel : nat) (src : string) : option (list node) :=
  match fuel with
  | O => None
  | Datatypes.S fuel' =>
      match cut "{"%char src with
      | None => Some (if bool_decide (src = "") then [] else [TextNode src])
      | Some (text, rest) =>
          match cut "}"%char rest with
          | None => None
          | Some (body, rest') =>
              match action body, parse fuel' rest' with
              | Some nd, Some nodes =>
                  Some ((if bool_decide (text = "") then [] else [TextNode text]) ++ nd :: nodes)
              | _, _ => None
              end
          end
      end
  end.

Definition Parse (src : string) : error + list node :=
  match parse (Datatypes.S (String.length src)) src with
  | Some nodes => inr nodes
  | None => inl (errorString "template: cannot parse")
  end.

(** Evaluating one node against the data.  A key the map lacks gives no
    error: the action prints [missing].  A further field selected from a
    string value is an execution error. *)
Definition eval (escape : string -> string) (missing : string)
    (data : gmap string string) (nd : node) : error + string :=
  match nd with
  | TextNode text => inr text
  | FieldNode key chain =>
      match data !! key with
      | None => inr missing
      | Some v =>
          match chain with
          | [] => inr (escape v)
          | f :: _ => inl (errorString ("can't evaluate field " +:+ f +:+ " in type string"))
          end
      end
  end.

Fixpoint Execute (escape : string -> string) (missing : string)
    (t : list node) (data : gmap string string) : error + string :=
  match t with
  | [] => inr EmptyString
  | nd :: t' =>
      match eval escape missing data nd with
      | inl err => inl err
      | inr out =>
          match Execute escape missing t' data with
          | inl err => inl err
          | inr out' => inr (out +:+ out')
          end
      end
  end.

(** [text/template] prints values as they are and [<no value>] for a
    missing key. *)
Definition text_Execute := Execute (fun v => v) "<no value>".

(** [html/template] with the actions in text position: values go through
    the replacement table of its HTML escaper (the ASCII part of it); a
    missing key prints nothing here, and no property below depends on
    what it prints. *)
Fixpoint htmlEscape (s : string) : string :=
  match s with
  | EmptyString => EmptyString
  | String c s' =>
      let b := N_of_ascii c in
      (if (b =? 34)%N then "&#34;"
       else if (b =? 38)%N then "&amp;"
       else if (b =? 39)%N then "&#39;"
       else if (b =? 43)%N then "&#43;"
       else if (b =? 60)%N then "&lt;"
       else if (b =? 62)%N then "&gt;"
       else String c EmptyString) +:+ htmlEscape s'
  end.

Definition html_Execute := Execute htmlEscape "".

End template.

(** ** A runtime, a service and a job to run the package on

    These play the part of [MockSES] and of the temporary queue directory
    in the package's tests. *)

Module fixture.

(** Decimal digits to a number. *)
Fixpoint digits (acc : Z) (s : string) : option Z :=
  match s with
  | EmptyString => Some acc
  | String c s' =>
      let b := Z.of_N (N_of_ascii c) in
      if ((48 <=? b) && (b <=? 57))%Z then digits (10 * acc + (b - 48)) s' else None
  end.

Fixpoint stripPrefix (p s : string) : option string :=
  match p, s with
  | EmptyString, _ => Some s
  | String a p', String b s' => if bool_decide (a = b) then stripPrefix p' s' else None
  | _, _ => None
  end.

(** Decodes the checkpoint attribute in the form [setCheckpoint] writes
    it; anything else is an error. *)
Definition Unmarshal_checkpoint (b : bytes) : error + checkpoint :=
  match stripPrefix ("{" +:+ String dquote (name +:+ String dquote ":")) b with
  | Some rest =>
      match template.rev_string rest with
      | String "}" ds =>
          match template.rev_string ds with
          | EmptyString => inl (errorString "unexpected end of JSON input")
          | ds' => match digits 0 ds' with
                   | Some i => inr {| RecipientsSent := i |}
                   | None => inl (errorString "invalid character")
                   end
          end
      | _ => inl (errorString "unexpected end of JSON input")
      end
  | None => inl (errorString "invalid character")
  end.

(** Spec documents are looked up in a table of decoded documents. *)
Fixpoint Unmarshal_Spec (docs : list (bytes * Spec)) (b : bytes) : error + Spec :=
  match docs with
  | [] => inl (errorString "invalid character")
  | (doc, spec) :: docs' => if bool_decide (doc = b) then inr spec else Unmarshal_Spec docs' b
  end.

(** The runtime: rates are rationals, templates are those of [template],
    addresses are written by [netmail]. *)
Definition runtime (docs : list (bytes * Spec)) : GoRuntime :=
  {| float64 := Q;
     json_Unmarshal_Spec := Unmarshal_Spec docs;
     json_Unmarshal_checkpoint := Unmarshal_checkpoint;
     ttemplate_Template := list template.node;
     ttemplate_Parse := template.Parse;
     ttemplate_Execute := template.text_Execute;
     htemplate_Template := list template.node;
     htemplate_Parse := template.Parse;
     htemplate_Execute := template.html_Execute;
     mail_Address_String := netmail.Address_String |}.

(** [type MockSES struct] of the test suite: the quota is 3.0 and every
    [SendEmail] succeeds with message id [foo]. *)
Record MockSES := {
  nsent : nat;
  sent : option ses.SendEmailInput
}.

Definition MockSES_GetSendQuota (svc : MockSES) : MockSES * (error + option Q) :=
  (svc, inr (Some (3 # 1)%Q)).

Definition MockSES_SendEmail (svc : MockSES) (input : ses.SendEmailInput)
  : MockSES * (error + ses.SendEmailOutput) :=
  ({| nsent := Datatypes.S (nsent svc); sent := Some input |},
   inr {| ses.MessageId := Some "foo" |}).

Definition mockSES : MockSES := {| nsent := O; sent := None |}.

(** A service that follows a script: the answer to the quota query, and
    the errors of the coming [SendEmail] calls, one entry per call ([None]
    for a call that succeeds); when the script is used up every call
    succeeds. *)
Record ScriptedSES := {
  quota : error + option Q;
  script : list (option error);
  mock : MockSES
}.

Definition ScriptedSES_GetSendQuota (svc : ScriptedSES) : ScriptedSES * (error + option Q) :=
  (svc, quota svc).

Definition ScriptedSES_SendEmail (svc : ScriptedSES) (input : ses.SendEmailInput)
  : ScriptedSES * (error + ses.SendEmailOutput) :=
  match script svc with
  | Some err :: later => ({| quota := quota svc; script := later; mock := mock svc |}, inl err)
  | _ =>
      let '(mock', response) := MockSES_SendEmail (mock svc) input in
      ({| quota := quota svc; script := tail (script svc); mock := mock' |}, response)
  end.

(** A job: its attributes and the queue directory it is in. *)
Inductive place := cur | done | failed | new.

Record MockJob := {
  basename : string;
  attrs : gmap string bytes;
  dir : place
}.

Definition MockJob_Get (job : MockJob) (key : string) : error + bytes :=
  match attrs job !! key with
  | Some v => inr v
  | None => inl (os_ErrNotExist ("open " +:+ key +:+ ": no such file or directory"))
  end.

Definition MockJob_Set (job : MockJob) (key : string) (value : bytes) : MockJob * option error :=
  ({| basename := basename job; attrs := <[key := value]> (attrs job); dir := dir job |}, None).

Definition MockJob_move (to : place) (job : MockJob) : MockJob :=
  {| basename := basename job; attrs := attrs job; dir := to |}.

(** A job taken from the queue, with and without a checkpoint. *)
Definition newJob (specbytes : bytes) : MockJob :=
  {| basename := "foo"; attrs := {[ "spec" := specbytes ]}; dir := cur |}.

Definition resumedJob (specbytes : bytes) (recipientsSent : Z) : MockJob :=
  {| basename := "foo";
     attrs := <[ name := checkpointBytes recipientsSent ]> {[ "spec" := specbytes ]};
     dir := cur |}.

(** *** Job specs *)

Definition jane : Recipient :=
  {| Recipient_Name := "Jane Doe"; Recipient_Addr := "janedoe@example.com";
     Recipient_FromName := "Johnny"; Recipient_FromAddr := "";
     Recipient_Subject := ""; Recipient_Context := {[ "pet_name" := "Janie" ]} |}.

Definition joe : Recipient :=
  {| Recipient_Name := "Joe Doe"; Recipient_Addr := "joedoe@example.com";
     Recipient_FromName := ""; Recipient_FromAddr := "";
     Recipient_Subject := "Hi"; Recipient_Context := {[ "pet_name" := "Joey" ]} |}.

(** A recipient whose context lacks the key the templates use. *)
Definition sam : Recipient :=
  {| Recipient_Name := "Sam Doe"; Recipient_Addr := "samdoe@example.com";
     Recipient_FromName := ""; Recipient_FromAddr := "";
     Recipient_Subject := ""; Recipient_Context := ∅ |}.

Definition mkSpec (fromName html text : string) (rs : list Recipient) : Spec :=
  {| Spec_FromName := fromName; Spec_FromAddr := "johndoe@example.com"; Spec_Subject := "Hello";
     Spec_Html := html; Spec_Text := text; Spec_Recipients := rs |}.

Definition html_src : string := "<h1>Hello, {{.pet_name}}</h1>".
Definition text_src : string := "Hello, {{.pet_name}}".

(** The spec of [TestProcessJob]. *)
Definition spec_both : Spec := mkSpec "John Doe" html_src text_src [jane].
(** Those of [TestTextOnly] and [TestHtmlOnly]. *)
Definition spec_text_only : Spec := mkSpec "John Doe" "" text_src [jane].
Definition spec_html_only : Spec := mkSpec "John Doe" html_src "" [jane].
(** Two recipients. *)
Definition spec_two : Spec := mkSpec "John Doe" "" text_src [jane; joe].
(** The first spec of [TestSource]: a display name with a non-ASCII
    letter (U+00F8, two bytes in UTF-8). *)
Definition John_Do : string :=
  "John D" +:+ String (ascii_of_nat 195) (String (ascii_of_nat 184) "").
Definition spec_nonascii : Spec := mkSpec John_Do html_src text_src [jane; joe].
(** A display name with a line feed in it. *)
Definition John_LF_Doe : string := "John" +:+ String newline "Doe".
Definition spec_control : Spec := mkSpec John_LF_Doe "" text_src [joe].
(** A recipient without the key of the template. *)
Definition spec_missing_key : Spec := mkSpec "John Doe" "" text_src [sam].
(** A template that selects a field of a string value, which fails when
    it is executed. *)
Definition spec_bad_field : Spec := mkSpec "John Doe" "" "Hello, {{.pet_name.first}}" [jane; joe].

Definition docs : list (bytes * Spec) :=
  [("both", spec_both); ("text_only", spec_text_only); ("html_only", spec_html_only);
   ("two", spec_two); ("nonascii", spec_nonascii); ("control", spec_control);
   ("missing_key", spec_missing_key); ("bad_field", spec_bad_field)].

Definition throttling : error :=
  awserr_Error "Throttling" "Maximum sending rate exceeded." (Some (400, "req-1")).
Definition unavailable : error :=
  awserr_Error "ServiceUnavailable" "Service is unavailable." (Some (503, "req-2")).
Definition rejected : error :=
  awserr_Error "MessageRejected" "Email address is not verified." (Some (400, "req-3")).

Definition scriptedSES (quota : error + option Q) (script : list (option error)) : ScriptedSES :=
  {| quota := quota; script := script; mock := mockSES |}.

End fixture.

#[global] Instance MockSES_sesService docs : @sesService fixture.MockSES (fixture.runtime docs) :=
  @Build_sesService fixture.MockSES (fixture.runtime docs)
    fixture.MockSES_GetSendQuota fixture.MockSES_SendEmail.

#[global] Instance ScriptedSES_sesService docs
  : @sesService fixture.ScriptedSES (fixture.runtime docs) :=
  @Build_sesService fixture.ScriptedSES (fixture.runtime docs)
    fixture.ScriptedSES_GetSendQuota fixture.ScriptedSES_SendEmail.

#[global] Instance MockJob_Job : Job fixture.MockJob :=
  {| Basename := fixture.basename;
     Job_Get := fixture.MockJob_Get;
     Job_Set := fixture.MockJob_Set;
     Job_Fail := fixture.MockJob_move fixture.failed;
     Job_Finish := fixture.MockJob_move fixture.done;
     Job_Submit := fixture.MockJob_move fixture.new |}.

(** The package run on the fixtures. *)
Module run.

Definition rt : GoRuntime := fixture.runtime fixture.docs.

(** The template compiled from a source, none for the empty source. *)
Definition compiled (src : string) : option (list template.node) :=
  if bool_decide (src = "") then None
  else match template.Parse src with inr t => Some t | inl _ => None end.

(** The mailing [getMailing] builds from a spec whose templates parse. *)
Definition mailingOf (sp : Spec) : @mailing rt :=
  @Build_mailing rt sp (compiled (Spec_Text sp)) (compiled (Spec_Html sp)).

Definition processJob_mock (fuel : nat) (svc : fixture.MockSES) (job : fixture.MockJob)
    (mangler : Mangler fixture.MockSES) :=
  @processJob rt fixture.MockSES (MockSES_sesService fixture.docs) fixture.MockJob MockJob_Job
    fuel svc job mangler.

Definition processJob_scripted (fuel : nat) (svc : fixture.ScriptedSES) (job : fixture.MockJob)
    (mangler : Mangler fixture.ScriptedSES) :=
  @processJob rt fixture.ScriptedSES (ScriptedSES_sesService fixture.docs) fixture.MockJob
    MockJob_Job fuel svc job mangler.

End run.

(** ** More readings of a trace *)

Section MoreTraces.
Context `{rt : GoRuntime}.

(** The token buckets created, the buckets stopped and the rate queries
    made. *)
Definition buckets (tr : list event) : nat :=
  length (flat_map (fun e => match e with EvNewBucket _ => [tt] | _ => [] end) tr).

Definition stops (tr : list event) : nat :=
  length (flat_map (fun e => match e with EvStop => [tt] | _ => [] end) tr).

Definition quotaQueries (tr : list event) : nat :=
  length (flat_map (fun e => match e with EvGetSendQuota => [tt] | _ => [] end) tr).

(** All writes of job attributes, whatever the key. *)
Definition attributeWrites (tr : list event) : list (string * bytes) :=
  flat_map (fun e => match e with EvSet key value => [(key, value)] | _ => [] end) tr.

End MoreTraces.

(** ** The job after a run

    A trace names the calls on the job; the job itself is what the calls
    leave.  [written job cs] is the job after [job.Set(name, ...)] with
    the checkpoints [cs], one call after the other, whatever each call
    answers; [terminated job calls] is the job after the terminal calls
    [calls]. *)

Section JobStates.
Context `{rt : GoRuntime} {J : Type} `{jobI : Job J}.

Definition written (job : J) (cs : list Z) : J :=
  fold_left (fun j c => (Job_Set j name (checkpointBytes c)).1) cs job.

Definition terminated (job : J) (calls : list event) : J :=
  fold_left (fun j e =>
    match e with
    | EvFail => Job_Fail j
    | EvFinish => Job_Finish j
    | EvSubmit => Job_Submit j
    | _ => j
    end) calls job.

End JobStates.

(** ** The driver

    [process] opens the queue, picks the service, rescues the jobs a
    crashed run left behind, and takes and processes jobs in one of three
    modes.  The queue is a collaborator like the job ([pqueue.Queue]). *)

(** [type processMode int], with its three constants. *)
Inductive processMode := foreverMode | oneMode | allMode.

(** The queue as [process] uses it.  A job's files live in the queue's
    directory, so what [processJob] made of a job is part of the queue's
    state afterwards: [Settle q job] is the queue once the job taken from
    it has become [job] (a resubmitted job can be taken again). *)
Class Queue (Q J : Type) := {
  OpenQueue : string -> error + Q;
  RescueDeadJobs : Q -> Q;
  Take : Q -> Q * (error + option J);
  Settle : Q -> J -> Q
}.

(** [ses.New(session.New(), &aws.Config{Region: ...})] *)
Class sesClient (S : Type) := {
  ses_New : string -> S
}.

(** What [process] does, in order; [DrProcessJob] carries the trace of
    the job's processing. *)
Inductive driverEvent `{GoRuntime} :=
| DrOpenQueue (queueDir : string)
| DrRescueDeadJobs
| DrTake
| DrSleep
| DrProcessJob (tr : list event).

(** How a run of [process] ends: it returns, it exits through
    [log.Fatal], a job's processing panics, or the fuel is used up. *)
Inductive exit := Done | Fatal (msg : string) | Crashed | Running.

Section Driver.
Context `{rt : GoRuntime} {S : Type} `{svcI : !sesService S} `{newI : sesClient S}
  {J : Type} `{jobI : Job J} {Q : Type} `{queueI : Queue Q J}.

(** [getSesConfig]; [inl] is the message of [log.Fatalf].  The argument is
    the value of the environment variable [AWS_DEFAULT_REGION]. *)
Definition getSesConfig (AWS_DEFAULT_REGION : string) : string + string :=
  let region := AWS_DEFAULT_REGION in
  if bool_decide (region = "")
  then inl "You must set the AWS_DEFAULT_REGION environment variable"
  else inr region.

(** The loop of [process].  One unit of [fuel] is one pass; every job
    is processed with [jobFuel]. *)
Fixpoint processLoop (fuel jobFuel : nat) (q : Q) (svc : S) (mode : processMode)
    (mangler : Mangler S) : Q * S * list driverEvent * exit :=
  match fuel with
  | O => (q, svc, [], Running)
  | Datatypes.S fuel' =>
      match Take q with
      | (q1, inl err) => (q1, svc, [DrTake], Fatal ("Failed to take job:" +:+ Error err))
      | (q1, inr None) =>
          match mode with
          | foreverMode =>
              let '(q2, svc2, evs, ex) := processLoop fuel' jobFuel q1 svc mode mangler in
              (q2, svc2, DrTake :: DrSleep :: evs, ex)
          | _ => (q1, svc, [DrTake], Done)
          end
      | (q1, inr (Some job)) =>
          let '(svc1, job1, tr, st) := processJob jobFuel svc job mangler in
          match st with
          | Panicked => (Settle q1 job1, svc1, [DrTake; DrProcessJob tr], Crashed)
          | OutOfFuel => (Settle q1 job1, svc1, [DrTake; DrProcessJob tr], Running)
          | Returned =>
              match mode with
              | oneMode => (Settle q1 job1, svc1, [DrTake; DrProcessJob tr], Done)
              | _ =>
                  let '(q2, svc2, evs, ex) :=
                    processLoop fuel' jobFuel (Settle q1 job1) svc1 mode mangler in
                  (q2, svc2, DrTake :: DrProcessJob tr :: evs, ex)
              end
          end
      end
  end.

(** [process].  The result has no queue and no service when the run ends
    before it has them. *)
Definition process (fuel jobFuel : nat) (AWS_DEFAULT_REGION : string) (queueDir : string)
    (mode : processMode) (mangler : Mangler S) : option Q * option S * list driverEvent * exit :=
  match OpenQueue queueDir with
  | inl err =>
      (None, None, [DrOpenQueue queueDir],
       Fatal ("Failed to open queue " +:+ queueDir +:+ ": " +:+ Error err))
  | inr q =>
      let chosen :=
        match SesService mangler with
        | Some svc => inr svc
        | None =>
            match getSesConfig AWS_DEFAULT_REGION with
            | inl msg => inl msg
            | inr region => inr (ses_New region)
            end
        end in
      match chosen with
      | inl msg => (Some q, None, [DrOpenQueue queueDir], Fatal msg)
      | inr svc =>
          let '(q', svc', evs, ex) :=
            processLoop fuel jobFuel (RescueDeadJobs q) svc mode mangler in
          (Some q', Some svc', DrOpenQueue queueDir :: DrRescueDeadJobs :: evs, ex)
      end
  end.

Definition ProcessForever (fuel jobFuel : nat) (env queueDir : string) (mangler : Mangler S) :=
  process fuel jobFuel env queueDir foreverMode mangler.

Definition ProcessOne (fuel jobFuel : nat) (env queueDir : string) (mangler : Mangler S) :=
  process fuel jobFuel env queueDir oneMode mangler.

Definition Process (fuel jobFuel : nat) (env queueDir : string) (mangler : Mangler S) :=
  process fuel jobFuel env queueDir allMode mangler.

(** The mangler the worker command picks from its flags [-donotsend],
    [-simulator] and [-sendto] (the [switch] of its [main]). *)
Definition main_mangler (doNotSend simulator : bool) (sendTo : string) : Mangler S :=
  if doNotSend then DoNotSend
  else if simulator then SendToSimulator
  else if negb (bool_decide (sendTo = "")) then SendToMe sendTo
  else DoNotMangle.

(** Reading a driver trace. *)
Definition takes (tr : list driverEvent) : nat :=
  length (flat_map (fun e => match e with DrTake => [tt] | _ => [] end) tr).

Definition sleeps (tr : list driverEvent) : nat :=
  length (flat_map (fun e => match e with DrSleep => [tt] | _ => [] end) tr).

Definition rescues (tr : list driverEvent) : nat :=
  length (flat_map (fun e => match e with DrRescueDeadJobs => [tt] | _ => [] end) tr).

Definition jobTraces (tr : list driverEvent) : list (list event) :=
  flat_map (fun e => match e with DrProcessJob t => [t] | _ => [] end) tr.

End Driver.

(** ** Runs of the loop, told by the queue

    [Drained jobFuel mangler q svc q' svc' trs]: from the queue [q] and
    the service [svc], every [Take] but the last hands out a job, the job
    is processed by [processJob], which returns, and the queue goes on
    with the job as processing left it; the last [Take] finds no job and
    leaves the queue [q'].  [trs] are the traces of the jobs, in order. *)

Section DriverRuns.
Context `{rt : GoRuntime} {S : Type} `{svcI : !sesService S}
  {J : Type} `{jobI : Job J} {Q : Type} `{queueI : Queue Q J}.

Inductive Drained (jobFuel : nat) (mangler : Mangler S) : Q -> S -> Q -> S -> list (list event) -> Prop :=
| Drained_empty q q1 svc :
    Take q = (q1, inr None) ->
    Drained jobFuel mangler q svc q1 svc []
| Drained_job q q1 job svc svc1 job1 tr q' svc' trs :
    Take q = (q1, inr (Some job)) ->
    processJob jobFuel svc job mangler = (svc1, job1, tr, Returned) ->
    Drained jobFuel mangler (Settle q1 job1) svc1 q' svc' trs ->
    Drained jobFuel mangler q svc q' svc' (tr :: trs).

(** The driver events of a drained queue: a [Take] and the job for every
    job, then the [Take] that finds none. *)
Definition drainedTrace (trs : list (list event)) : list driverEvent :=
  flat_map (fun tr => [DrTake; DrProcessJob tr]) trs ++ [DrTake].

End DriverRuns.

(** A queue directory for the fixtures: the jobs waiting, oldest first,
    the jobs a crashed run left in progress, and the jobs dealt with. *)
Module fixtureQueue.
Import fixture.

Record MockQueue := {
  waiting : list MockJob;
  inProgress : list MockJob;
  settled : list MockJob
}.

Definition MockQueue_RescueDeadJobs (q : MockQueue) : MockQueue :=
  {| waiting := waiting q ++ map (MockJob_move new) (inProgress q);
     inProgress := [];
     settled := settled q |}.

Definition MockQueue_Take (q : MockQueue) : MockQueue * (error + option MockJob) :=
  match waiting q with
  | [] => (q, inr None)
  | job :: rest =>
      ({| waiting := rest; inProgress := inProgress q; settled := settled q |},
       inr (Some (MockJob_move cur job)))
  end.

Definition MockQueue_Settle (q : MockQueue) (job : MockJob) : MockQueue :=
  match dir job with
  | new => {| waiting := waiting q ++ [job]; inProgress := inProgress q; settled := settled q |}
  | cur => {| waiting := waiting q; inProgress := inProgress q ++ [job]; settled := settled q |}
  | _ => {| waiting := waiting q; inProgress := inProgress q; settled := settled q ++ [job] |}
  end.

(** The one queue directory there is. *)
Definition queueOf (jobs : list MockJob) : MockQueue :=
  {| waiting := jobs; inProgress := []; settled := [] |}.

Definition MockQueue_OpenQueue (jobs : list MockJob) (queueDir : string) : error + MockQueue :=
  if bool_decide (queueDir = "/tmp/queue") then inr (queueOf jobs)
  else inl (os_ErrNotExist ("open " +:+ queueDir +:+ ": no such file or directory")).

End fixtureQueue.

#[global] Instance MockQueue_Queue (jobs : list fixture.MockJob)
  : Queue fixtureQueue.MockQueue fixture.MockJob :=
  {| OpenQueue := fixtureQueue.MockQueue_OpenQueue jobs;
     RescueDeadJobs := fixtureQueue.MockQueue_RescueDeadJobs;
     Take := fixtureQueue.MockQueue_Take;
     Settle := fixtureQueue.MockQueue_Settle |}.

#[global] Instance MockSES_sesClient : sesClient fixture.MockSES :=
  {| ses_New := fun _ => fixture.mockSES |}.

#[global] Instance ScriptedSES_sesClient : sesClient fixture.ScriptedSES :=
  {| ses_New := fun _ => fixture.scriptedSES (inr (Some (3 # 1)%Q)) [] |}.

(** The driver run on the fixtures: a queue of two jobs, a job without a
    spec, and a job whose checkpoint attribute is not a checkpoint. *)
Module drive.
Import fixture fixtureQueue.

Definition jobs : list MockJob := [newJob "two"; newJob "both"].

Definition process_mock (fuel jobFuel : nat) (env queueDir : string) (mode : processMode)
    (mangler : Mangler MockSES) :=
  @process run.rt MockSES (MockSES_sesService docs) MockSES_sesClient MockJob MockJob_Job
    MockQueue (MockQueue_Queue jobs) fuel jobFuel env queueDir mode mangler.

Definition processLoop_mock (fuel jobFuel : nat) (q : MockQueue) (svc : MockSES)
    (mode : processMode) (mangler : Mangler MockSES) :=
  @processLoop run.rt MockSES (MockSES_sesService docs) MockJob MockJob_Job
    MockQueue (MockQueue_Queue jobs) fuel jobFuel q svc mode mangler.

Definition blankJob : MockJob :=
  {| basename := "blank"; attrs := ∅; dir := cur |}.

Definition corruptJob (specbytes : bytes) : MockJob :=
  {| basename := "corrupt";
     attrs := <[ name := "sent: 1" ]> {[ "spec" := specbytes ]};
     dir := cur |}.

End drive.

(** * Properties *)

Section Properties.
Context `{rt : GoRuntime} {S : Type} `{svcI : !sesService S} {J : Type} `{jobI : Job J}.

Implicit Types (m : mailing) (mangler : Mangler S) (svc : S) (job : J) (i k : Z).

(** *** Indexing *)

Lemma index_Some_range m i r : index m i = Some r -> 0 <= i < recipients m.
Proof.
  unfold index, recipients. case_decide as Hi; [|discriminate].
  intros Hr. apply lookup_lt_Some in Hr. lia.
Qed.

Lemma index_in_range m i : 0 <= i < recipients m -> exists r, index m i = Some r.
Proof.
  unfold index, recipients. intros [H0 Hn]. case_decide; [|lia].
  destruct (lookup_lt_is_Some_2 (Spec_Recipients (spec m)) (Z.to_nat i)) as [r Hr]; [lia|].
  eauto.
Qed.

Lemma computeSource_Some m i r : index m i = Some r -> exists s, computeSource m i = Some s.
Proof.
  intros Hr. unfold computeSource. rewrite Hr.
  repeat match goal with |- context [if ?b then _ else _] => destruct b end; eauto.
Qed.

Lemma computeSubject_Some m i r : index m i = Some r -> exists s, computeSubject m i = Some s.
Proof.
  intros Hr. unfold computeSubject. rewrite Hr.
  match goal with |- context [if ?b then _ else _] => destruct b end; eauto.
Qed.

(** Within the recipient list, resolving a recipient gives a request or
    an error, never a panic. *)
Lemma computeSendEmailInput_no_panic m i mangler :
  0 <= i < recipients m -> computeSendEmailInput m i mangler <> Panic.
Proof.
  intros Hi. destruct (index_in_range m i Hi) as [r Hr].
  destruct (computeSource_Some m i r Hr) as [src Hsrc].
  destruct (computeSubject_Some m i r Hr) as [sub Hsub].
  unfold computeSendEmailInput. rewrite Hr, Hsrc, Hsub.
  destruct (textTemplate m) as [t|]; [destruct (ttemplate_Execute t _)|];
    try discriminate;
    (destruct (htmlTemplate m) as [h|]; [destruct (htemplate_Execute h _)|]; discriminate).
Qed.

(** *** The dry run *)

Lemma dryRun_from_Ok m mangler i todo :
  dryRun_from m mangler i todo = Ok tt <->
  (forall j, i <= j < i + Z.of_nat todo -> exists p, computeSendEmailInput m j mangler = Ok p).
Proof.
  revert i. induction todo as [|todo IH]; intros i; simpl dryRun_from.
  - split; [intros _ j Hj; lia | reflexivity].
  - split.
    + destruct (computeSendEmailInput m i mangler) as [p| |] eqn:Hp; try discriminate.
      intros Hrest j Hj. destruct (decide (j = i)) as [->|Hne]; [eauto|].
      apply (proj1 (IH (i + 1)) Hrest). lia.
    + intros Hall. destruct (Hall i) as [p Hp]; [lia|]. rewrite Hp.
      apply IH. intros j Hj. apply Hall. lia.
Qed.

Lemma dryRun_from_not_Ok m mangler i todo j :
  i <= j < i + Z.of_nat todo ->
  (forall p, computeSendEmailInput m j mangler <> Ok p) ->
  (forall j', i <= j' < i + Z.of_nat todo -> computeSendEmailInput m j' mangler <> Panic) ->
  exists err, dryRun_from m mangler i todo = Err err.
Proof.
  revert i. induction todo as [|todo IH]; intros i Hj Hbad Hnp; [lia|].
  simpl dryRun_from.
  destruct (computeSendEmailInput m i mangler) as [p| |] eqn:Hp; [|eauto|].
  - destruct (decide (j = i)) as [->|Hne]; [exfalso; eapply Hbad; eauto|].
    apply IH; [lia|assumption|]. intros j' Hj'. apply Hnp. lia.
  - exfalso. apply (Hnp i); [lia|assumption].
Qed.

Lemma dryRun_Ok m mangler :
  dryRun m mangler = Ok tt <->
  (forall j, 0 <= j < recipients m -> exists p, computeSendEmailInput m j mangler = Ok p).
Proof. unfold dryRun, recipients. rewrite dryRun_from_Ok. reflexivity. Qed.

(** *** One call of [send] *)

(** The only events of a [send] are calls of the service. *)
Lemma send_calls svc m i mangler svc1 calls r :
  send svc m i mangler = (svc1, calls, r) ->
  attempts calls = [] /\ checkpointWrites calls = [] /\ terminalCalls calls = []
  /\ backoffs calls = O.
Proof.
  unfold send.
  destruct (computeSendEmailInput m i mangler) as [p| |];
    [destruct (ShouldSend mangler); simpl;
     [destruct (SendEmail svc p) as [svc' [err|resp]]; [|destruct (ses.MessageId resp)]|]| |];
    intros [= <- <- <-]; repeat split; reflexivity.
Qed.

(** *** The send loop *)

Lemma attempts_app (tr1 tr2 : list event) : attempts (tr1 ++ tr2) = attempts tr1 ++ attempts tr2.
Proof. apply flat_map_app. Qed.

Lemma transmissions_app (tr1 tr2 : list event) :
  transmissions (tr1 ++ tr2) = transmissions tr1 ++ transmissions tr2.
Proof. apply flat_map_app. Qed.

Lemma checkpointWrites_app (tr1 tr2 : list event) :
  checkpointWrites (tr1 ++ tr2) = checkpointWrites tr1 ++ checkpointWrites tr2.
Proof. apply flat_map_app. Qed.

Lemma terminalCalls_app (tr1 tr2 : list event) :
  terminalCalls (tr1 ++ tr2) = terminalCalls tr1 ++ terminalCalls tr2.
Proof. apply flat_map_app. Qed.

Lemma backoffs_app (tr1 tr2 : list event) : backoffs (tr1 ++ tr2) = (backoffs tr1 + backoffs tr2)%nat.
Proof. unfold backoffs. rewrite flat_map_app, length_app. reflexivity. Qed.

(** Every attempt of the loop started at [i] is for an index from [i] up
    to the last recipient, whatever the service and the job do and however
    long the run is. *)
Lemma sendLoop_attempts_range fuel svc job m mangler i :
  Forall (fun j => i <= j < recipients m) (attempts (trace_of (sendLoop fuel svc job m mangler i))).
Proof.
  revert svc job i. induction fuel as [|fuel IH]; intros svc job i; [constructor|].
  cbn [sendLoop]. fold (recipients m).
  case_decide as Hi; [|constructor].
  destruct (send svc m i mangler) as [[svc1 calls] r] eqn:Hsend.
  destruct (send_calls _ _ _ _ _ _ _ Hsend) as (Hat & _).
  assert (Hretry : forall svc' job',
    Forall (fun j => i <= j < recipients m)
      (attempts (EvAttempt i :: calls ++ EvBackoff :: trace_of (sendLoop fuel svc' job' m mangler i)))).
  { intros svc' job'. change (EvAttempt i :: ?l) with ([EvAttempt i] ++ l).
    rewrite !attempts_app, Hat. simpl. constructor; [lia|]. apply IH. }
  assert (Hstop : forall tl, attempts tl = [] ->
    Forall (fun j => i <= j < recipients m) (attempts (EvAttempt i :: calls ++ tl))).
  { intros tl Htl. change (EvAttempt i :: ?l) with ([EvAttempt i] ++ l).
    rewrite !attempts_app, Hat, Htl. simpl. constructor; [lia|constructor]. }
  destruct r as [messageId|err|].
  - destruct (setCheckpoint job (i + 1)) as [job1 [err|]].
    + apply Hstop. reflexivity.
    + specialize (IH svc1 job1 (i + 1)).
      destruct (sendLoop fuel svc1 job1 m mangler (i + 1)) as [[[svc2 job2] evs] st].
      unfold trace_of in *; simpl in *.
      change (EvAttempt i :: ?l) with ([EvAttempt i] ++ l).
      change (EvSet name ?v :: evs) with ([EvSet name v] ++ evs).
      rewrite !attempts_app, Hat. simpl. constructor; [lia|].
      eapply Forall_impl; [exact IH|]. simpl. intros; lia.
  - destruct err as [code msg rf| |]; try (apply Hstop; reflexivity).
    repeat case_bool_decide; try (apply Hstop; reflexivity);
      specialize (Hretry svc1 job);
      destruct (sendLoop fuel svc1 job m mangler i) as [[[svc2 job2] evs] st];
      exact Hretry.
  - specialize (Hstop [] eq_refl). rewrite app_nil_r in Hstop. exact Hstop.
Qed.

(** With a service whose every [SendEmail] succeeds and a job whose every
    checkpoint write succeeds, [send] succeeds wherever the recipient
    resolves. *)
Lemma send_no_fault svc m i mangler p :
  (forall svc p, exists svc' mid, SendEmail svc p = (svc', inr {| ses.MessageId := Some mid |})) ->
  computeSendEmailInput m i mangler = Ok p ->
  exists svc1 mid,
    send svc m i mangler =
      (svc1, if ShouldSend mangler then [EvSendEmail p] else [], Ok mid).
Proof.
  intros Hsvc Hp. unfold send. rewrite Hp.
  destruct (ShouldSend mangler); simpl; [|eauto].
  destruct (Hsvc svc p) as (svc' & mid & ->). simpl. eauto.
Qed.

Lemma sendLoop_no_fault m mangler :
  (forall svc p, exists svc' mid, SendEmail svc p = (svc', inr {| ses.MessageId := Some mid |})) ->
  (forall job v, exists job', Job_Set job name v = (job', None)) ->
  forall (d fuel : nat) svc job i,
    recipients m - i <= Z.of_nat d -> (d < fuel)%nat ->
    (forall j, i <= j < recipients m -> exists p, computeSendEmailInput m j mangler = Ok p) ->
    exists svc' job' tr,
      sendLoop fuel svc job m mangler i = (svc', job', tr, Returned)
      /\ attempts tr = seqZ i (recipients m - i)
      /\ checkpointWrites tr = checkpointBytes <$> seqZ (i + 1) (recipients m - i)
      /\ terminalCalls tr = [EvFinish]
      /\ backoffs tr = O
      /\ (if ShouldSend mangler
          then Forall2 (fun j p => computeSendEmailInput m j mangler = Ok p)
                 (seqZ i (recipients m - i)) (transmissions tr)
          else transmissions tr = []).
Proof.
  intros Hsvc Hset d. induction d as [|d IH]; intros fuel svc job i Hd Hfuel Hres;
    (destruct fuel as [|fuel]; [lia|]); cbn [sendLoop]; fold (recipients m);
    case_decide as Hi; try lia.
  - exists svc, (Job_Finish job), [EvFinish].
    rewrite !seqZ_nil by lia.
    repeat split; try reflexivity. destruct (ShouldSend mangler); [constructor|reflexivity].
  - destruct (Hres i) as [p Hp]; [lia|].
    destruct (send_no_fault svc m i mangler p Hsvc Hp) as (svc1 & mid & ->).
    unfold setCheckpoint. destruct (Hset job (json_Marshal_checkpoint {| RecipientsSent := i + 1 |}))
      as (job1 & ->).
    destruct (IH fuel svc1 job1 (i + 1)) as (svc' & job' & tr & -> & Hat & Hck & Hterm & Hbo & Htx);
      [lia|lia|intros j Hj; apply Hres; lia|].
    eexists _, _, _. split; [reflexivity|].
    rewrite (seqZ_cons (i + 1) (recipients m - i)) by lia.
    rewrite (seqZ_cons i (recipients m - i)) by lia.
    replace (Z.succ i) with (i + 1) by lia. replace (Z.succ (i + 1)) with (i + 1 + 1) by lia.
    replace (Z.pred (recipients m - i)) with (recipients m - (i + 1)) by lia.
    change (EvAttempt i :: ?l) with ([EvAttempt i] ++ l).
    change (EvSet name ?v :: tr) with ([EvSet name v] ++ tr).
    rewrite !attempts_app, !checkpointWrites_app, !terminalCalls_app, !backoffs_app,
      !transmissions_app, Hat, Hck, Hterm, Hbo.
    destruct (ShouldSend mangler); simpl; repeat split; try reflexivity.
    + constructor; assumption.
    + assumption.
  - exists svc, (Job_Finish job), [EvFinish].
    rewrite !seqZ_nil by lia.
    repeat split; try reflexivity. destruct (ShouldSend mangler); [constructor|reflexivity].
Qed.

(** The job such a run leaves: every checkpoint from [i + 1] to the
    number of recipients written by [job.Set], then [job.Finish]. *)
Lemma written_cons job i (n : Z) :
  0 < n ->
  written job (seqZ i n) = written (Job_Set job name (checkpointBytes i)).1 (seqZ (i + 1) (n - 1)).
Proof.
  intros Hn. rewrite (seqZ_cons i n) by lia.
  replace (Z.succ i) with (i + 1) by lia. replace (Z.pred n) with (n - 1) by lia.
  reflexivity.
Qed.


(** *** The whole job *)

(** What [processJob] does once the mailing is built, the dry run has
    passed, the rate is known and the checkpoint is read. *)
Lemma processJob_sending fuel svc job mangler m svc1 rate k :
  getMailing job = inr m ->
  dryRun m mangler = Ok tt ->
  GetSendQuota svc = (svc1, inr (Some rate)) ->
  getCheckpoint job = inr k ->
  processJob fuel svc job mangler =
    (let run := sendLoop fuel svc1 job m mangler k in
     (run.1.1.1, run.1.1.2,
      EvGetSendQuota :: EvNewBucket rate :: trace_of run ++ deferred_Stop (status_of run),
      status_of run)).
Proof.
  intros Hm Hdry Hq Hk. unfold processJob, getMaxSendRate. rewrite Hm, Hdry, Hq, Hk.
  destruct (sendLoop fuel svc1 job m mangler k) as [[[svc2 job2] evs] st]. reflexivity.
Qed.


(** C2. A job whose stored checkpoint is k, with 0 <= k <= N, and whose
    build, dry run and rate query succeed: every attempt of the run,
    however long it is and whatever the service answers, is for an index
    among k, ..., N-1, so none is for an index among 0, ..., k-1; in a
    fault-free run the attempts are exactly k, ..., N-1 in order. A job
    without the checkpoint attribute has checkpoint 0. *)
Theorem C2_resume_from_checkpoint svc job mangler m svc1 rate k (fuel : nat) :
  getMailing job = inr m ->
  dryRun m mangler = Ok tt ->
  GetSendQuota svc = (svc1, inr (Some rate)) ->
  getCheckpoint job = inr k ->
  0 <= k <= recipients m ->
  Forall (fun i => k <= i < recipients m) (attempts (trace_of (processJob fuel svc job mangler)))
  /\ (forall i, 0 <= i < k -> ~ In i (attempts (trace_of (processJob fuel svc job mangler))))
  /\ ((forall svc p, exists svc' mid, SendEmail svc p = (svc', inr {| ses.MessageId := Some mid |})) ->
      (forall job v, exists job', Job_Set job name v = (job', None)) ->
      (length (Spec_Recipients (spec m)) < fuel)%nat ->
      status_of (processJob fuel svc job mangler) = Returned
      /\ attempts (trace_of (processJob fuel svc job mangler)) = seqZ k (recipients m - k))
  /\ (forall job0 err, Job_Get job0 name = inl err -> os_IsNotExist err = true ->
      getCheckpoint job0 = inr 0).
Proof.
  intros Hm Hdry Hq Hk Hrange.
  rewrite (processJob_sending fuel svc job mangler m svc1 rate k Hm Hdry Hq Hk).
  pose proof (sendLoop_attempts_range fuel svc1 job m mangler k) as Hsafe.
  assert (Hnf : (forall svc p, exists svc' mid,
                   SendEmail svc p = (svc', inr {| ses.MessageId := Some mid |})) ->
                (forall job v, exists job', Job_Set job name v = (job', None)) ->
                (length (Spec_Recipients (spec m)) < fuel)%nat ->
                status_of (sendLoop fuel svc1 job m mangler k) = Returned
                /\ attempts (trace_of (sendLoop fuel svc1 job m mangler k))
                   = seqZ k (recipients m - k)).
  { intros Hsvc Hset Hfuel.
    destruct (sendLoop_no_fault m mangler Hsvc Hset (length (Spec_Recipients (spec m)))
                fuel svc1 job k)
      as (svc' & job' & tr & Hrun & Hat & _); [unfold recipients; lia|assumption| |].
    - intros j Hj. apply (proj1 (dryRun_Ok m mangler) Hdry). lia.
    - rewrite Hrun. split; [reflexivity|exact Hat]. }
  destruct (sendLoop fuel svc1 job m mangler k) as [[[svc2 job2] evs] st].
  unfold trace_of, status_of in *; cbn [fst snd] in *.
  assert (Hat : attempts (EvGetSendQuota :: EvNewBucket rate :: evs ++ deferred_Stop st)
                = attempts evs).
  { change (EvGetSendQuota :: EvNewBucket rate :: ?l) with ([EvGetSendQuota; EvNewBucket rate] ++ l).
    rewrite !attempts_app. simpl. destruct st; simpl; apply app_nil_r. }
  rewrite Hat. repeat split.
  - exact Hsafe.
  - intros i Hi Hin. rewrite List.Forall_forall in Hsafe. apply Hsafe in Hin. lia.
  - apply Hnf; assumption.
  - apply Hnf; assumption.
  - intros job0 err Hget Hne. unfold getCheckpoint. rewrite Hget, Hne. reflexivity.
Qed.

(** C3. In the send loop, at a recipient i whose send fails: when the
    error is a service error with code Throttling or ServiceUnavailable,
    the loop signals a backoff and goes on from the same index i with the
    same job state (no checkpoint write, no advance), so that the next pass
    is again an attempt at i; on any other error the job is failed at
    once: nothing follows the Fail, and the job state failed is the one
    the loop was entered with, its checkpoint untouched. *)
Theorem C3_send_error_handling (fuel : nat) svc job m mangler i svc1 calls err :
  i < recipients m ->
  send svc m i mangler = (svc1, calls, Err err) ->
  checkpointWrites calls = []
  /\ (TransientServiceFault err ->
      sendLoop (Datatypes.S fuel) svc job m mangler i =
        (let retry := sendLoop fuel svc1 job m mangler i in
         (retry.1.1.1, retry.1.1.2, EvAttempt i :: calls ++ EvBackoff :: trace_of retry,
          status_of retry))
      /\ exists rest, trace_of (sendLoop (Datatypes.S fuel) svc1 job m mangler i) = EvAttempt i :: rest)
  /\ (~ TransientServiceFault err ->
      sendLoop (Datatypes.S fuel) svc job m mangler i =
        (svc1, Job_Fail job, EvAttempt i :: calls ++ [EvFail], Returned)).
Proof.
  intros Hi Hsend. split; [apply (send_calls _ _ _ _ _ _ _ Hsend)|]. split.
  - intros (code & msg & rf & -> & Hcode). split.
    + cbn [sendLoop]. fold (recipients m). rewrite decide_True by exact Hi. rewrite Hsend.
      destruct (sendLoop fuel svc1 job m mangler i) as [[[svc2 job2] evs] st].
      destruct Hcode as [-> | ->]; reflexivity.
    + cbn [sendLoop]. fold (recipients m). rewrite decide_True by exact Hi.
      destruct (send svc1 m i mangler) as [[svc2 calls2] r2].
      destruct r2 as [mid|e|].
      * destruct (setCheckpoint job (i + 1)) as [job1 [e|]]; [eexists; reflexivity|].
        destruct (sendLoop fuel svc2 job1 m mangler (i + 1)) as [[[svc3 job3] evs] st].
        eexists; reflexivity.
      * destruct e as [code' msg' rf'| |]; try (eexists; reflexivity).
        repeat case_bool_decide; try (eexists; reflexivity);
          destruct (sendLoop fuel svc2 job m mangler i) as [[[svc3 job3] evs] st];
          eexists; reflexivity.
      * eexists; reflexivity.
  - intros Hfatal. cbn [sendLoop]. fold (recipients m). rewrite decide_True by exact Hi.
    rewrite Hsend. destruct err as [code msg rf| |]; try reflexivity.
    repeat case_bool_decide; try reflexivity; exfalso; apply Hfatal;
      exists code, msg, rf; auto.
Qed.

(** C5. A job whose text source is empty and whose HTML source is not:
    the mailing has an HTML template and no text template, and whenever the
    HTML of a recipient renders, the request built for the recipient has a
    text body without data and without charset (nil, which is not the empty
    string) and the rendered HTML as its HTML body. The same with the two
    bodies exchanged. *)
Theorem C5_omitted_body job m i r mangler :
  getMailing job = inr m ->
  index m i = Some r ->
  (Spec_Text (spec m) = "" -> Spec_Html (spec m) <> "" ->
   exists t, htmlTemplate m = Some t /\ textTemplate m = None
     /\ forall h, htemplate_Execute t (Recipient_Context r) = inr h ->
        exists p, computeSendEmailInput m i mangler = Ok p
          /\ ses.Text (ses.Body_ (ses.Message_ p)) = {| ses.Data := None; ses.Charset := None |}
          /\ ses.Data (ses.Text (ses.Body_ (ses.Message_ p))) <> Some ""
          /\ ses.Html (ses.Body_ (ses.Message_ p))
             = {| ses.Data := Some h; ses.Charset := Some "UTF-8" |})
  /\ (Spec_Html (spec m) = "" -> Spec_Text (spec m) <> "" ->
      exists t, textTemplate m = Some t /\ htmlTemplate m = None
        /\ forall x, ttemplate_Execute t (Recipient_Context r) = inr x ->
           exists p, computeSendEmailInput m i mangler = Ok p
             /\ ses.Html (ses.Body_ (ses.Message_ p)) = {| ses.Data := None; ses.Charset := None |}
             /\ ses.Data (ses.Html (ses.Body_ (ses.Message_ p))) <> Some ""
             /\ ses.Text (ses.Body_ (ses.Message_ p))
                = {| ses.Data := Some x; ses.Charset := Some "UTF-8" |}).
Proof.
  intros Hm Hr.
  destruct (computeSource_Some m i r Hr) as [src Hsrc].
  destruct (computeSubject_Some m i r Hr) as [sub Hsub].
  unfold getMailing in Hm.
  destruct (Job_Get job "spec") as [e|specbytes]; [discriminate|].
  destruct (parseSpec specbytes) as [e|sp]; [discriminate|].
  split; intros Hempty Hnonempty.
  - case_decide as Ht.
    + case_decide as Hh.
      * injection Hm as <-. simpl in *. contradiction.
      * destruct (htemplate_Parse (Spec_Html sp)) as [e|t]; [discriminate|].
        injection Hm as <-. simpl in *.
        exists t. repeat split. intros h Hh'.
        unfold computeSendEmailInput. rewrite Hr, Hsrc, Hsub. simpl. rewrite Hh'.
        eexists. split; [reflexivity|]. simpl. repeat split. discriminate.
    + destruct (ttemplate_Parse (Spec_Text sp)) as [e|t]; [discriminate|].
      case_decide; [|destruct (htemplate_Parse (Spec_Html sp)); [discriminate|]];
        injection Hm as <-; simpl in *; contradiction.
  - case_decide as Ht.
    + case_decide; [|destruct (htemplate_Parse (Spec_Html sp)); [discriminate|]];
        injection Hm as <-; simpl in *; contradiction.
    + destruct (ttemplate_Parse (Spec_Text sp)) as [e|t]; [discriminate|].
      case_decide as Hh.
      * injection Hm as <-. simpl in *.
        exists t. repeat split. intros x Hx.
        unfold computeSendEmailInput. rewrite Hr, Hsrc, Hsub. simpl. rewrite Hx.
        eexists. split; [reflexivity|]. simpl. repeat split. discriminate.
      * destruct (htemplate_Parse (Spec_Html sp)); [discriminate|].
        injection Hm as <-. simpl in *. contradiction.
Qed.

(** C7. With a mangler that does not send, the send step makes no call to
    the service (its state is unchanged and the call list is empty), and
    for every recipient that resolves -- every recipient of a job whose dry
    run has passed -- it returns the sentinel NullMangler. The request's
    destination is the mangled recipient address: the fixed address for
    SendToMe, the simulator's address for SendToSimulator, whatever the
    recipient's own address is, and the recipient's address for
    DoNotMangle. *)
Theorem C7_manglers svc m i r :
  index m i = Some r ->
  (forall mangler, ShouldSend mangler = false ->
     (exists res, send svc m i mangler = (svc, [], res))
     /\ (dryRun m mangler = Ok tt -> send svc m i mangler = (svc, [], Ok "NullMangler")))
  /\ (forall mangler p, computeSendEmailInput m i mangler = Ok p ->
        ses.ToAddresses (ses.Destination_ p) = [Mangle mangler (Recipient_Addr r)])
  /\ (forall addr p, computeSendEmailInput m i (SendToMe addr : Mangler S) = Ok p ->
        ses.ToAddresses (ses.Destination_ p) = [addr])
  /\ (forall p, computeSendEmailInput m i (SendToSimulator : Mangler S) = Ok p ->
        ses.ToAddresses (ses.Destination_ p) = ["success@simulator.amazonses.com"])
  /\ (forall p, computeSendEmailInput m i (DoNotMangle : Mangler S) = Ok p ->
        ses.ToAddresses (ses.Destination_ p) = [Recipient_Addr r]).
Proof.
  intros Hr.
  assert (Hdest : forall mangler p, computeSendEmailInput m i mangler = Ok p ->
            ses.ToAddresses (ses.Destination_ p) = [Mangle mangler (Recipient_Addr r)]).
  { intros mangler p. unfold computeSendEmailInput. rewrite Hr.
    destruct (textTemplate m) as [t|]; [destruct (ttemplate_Execute t _)|];
      try discriminate;
      (destruct (htmlTemplate m) as [h|]; [destruct (htemplate_Execute h _)|]; try discriminate);
      destruct (computeSource m i), (computeSubject m i); try discriminate;
      intros [= <-]; reflexivity. }
  split; [|split; [exact Hdest|repeat split]].
  - intros mangler Hns. split.
    + unfold send. rewrite Hns.
      destruct (computeSendEmailInput m i mangler); eexists; reflexivity.
    + intros Hdry. destruct (proj1 (dryRun_Ok m mangler) Hdry i) as [p Hp].
      { eapply index_Some_range; eauto. }
      unfold send. rewrite Hp, Hns. reflexivity.
  - intros addr p Hp. apply (Hdest _ _ Hp).
  - intros p Hp. apply (Hdest _ _ Hp).
  - intros p Hp. apply (Hdest _ _ Hp).
Qed.

(** A recipient that does not resolve fails the job before anything else
    happens. *)
Lemma processJob_resolve_failure (fuel : nat) svc job mangler m i :
  getMailing job = inr m ->
  0 <= i < recipients m ->
  (forall p, computeSendEmailInput m i mangler <> Ok p) ->
  processJob fuel svc job mangler = (svc, Job_Fail job, [EvFail], Returned).
Proof.
  intros Hm Hi Hbad.
  destruct (dryRun_from_not_Ok m mangler 0 (length (Spec_Recipients (spec m))) i)
    as [err Herr]; [exact Hi|exact Hbad| |].
  - intros j Hj. apply computeSendEmailInput_no_panic. exact Hj.
  - unfold processJob. rewrite Hm. unfold dryRun. rewrite Herr. reflexivity.
Qed.

(** The error of a recipient that does not resolve names the body that
    did not render and the recipient's index. *)
Lemma computeSendEmailInput_Err m i mangler err :
  computeSendEmailInput m i mangler = Err err ->
  exists cause,
    err = errorString ("Failed to render text template for recipient "
                       +:+ fmt_bad_s i +:+ ": " +:+ cause +:+ String newline "")
    \/ err = errorString ("Failed to render HTML template for recipient "
                          +:+ fmt_bad_s i +:+ ": " +:+ cause +:+ String newline "").
Proof.
  unfold computeSendEmailInput.
  destruct (index m i) as [r|]; [|discriminate].
  destruct (textTemplate m) as [t|]; [destruct (ttemplate_Execute t _) as [e|x]|];
    try (intros [= <-]; eauto; fail);
    (destruct (htmlTemplate m) as [h|]; [destruct (htemplate_Execute h _) as [e'|y]|];
     try (intros [= <-]; eauto; fail));
    destruct (computeSource m i), (computeSubject m i); discriminate.
Qed.

(** C8. The dry run passes exactly when every recipient index resolves.
    If some recipient does not resolve, the job is failed and the run has
    no other event: no rate query, no attempt, no transmission. So a run
    with at least one attempt is a run of a job all of whose recipients
    resolve: no send of the loop can fail in resolving. *)
Theorem C8_dry_run_first (fuel : nat) svc job mangler m :
  getMailing job = inr m ->
  (dryRun m mangler = Ok tt <->
   forall i, 0 <= i < recipients m -> exists p, computeSendEmailInput m i mangler = Ok p)
  /\ (forall i, 0 <= i < recipients m ->
      (forall p, computeSendEmailInput m i mangler <> Ok p) ->
      processJob fuel svc job mangler = (svc, Job_Fail job, [EvFail], Returned))
  /\ (attempts (trace_of (processJob fuel svc job mangler)) <> [] ->
      forall i, 0 <= i < recipients m -> exists p, computeSendEmailInput m i mangler = Ok p).
Proof.
  intros Hm. split; [apply dryRun_Ok|]. split.
  - intros i Hi Hbad. apply (processJob_resolve_failure fuel svc job mangler m i Hm Hi Hbad).
  - intros Hatt. apply dryRun_Ok.
    unfold processJob in Hatt. rewrite Hm in Hatt.
    destruct (dryRun m mangler) as [[]| |]; [reflexivity| |]; exfalso; apply Hatt; reflexivity.
Qed.

(** C9. When the build and the dry run pass and the query of the maximum
    send rate fails, the job is resubmitted: the run consists of the query
    and one Submit, with no Fail, no attempt, no transmission and no
    checkpoint write. *)
Theorem C9_rate_query_failure (fuel : nat) svc job mangler m svc1 err :
  getMailing job = inr m ->
  dryRun m mangler = Ok tt ->
  GetSendQuota svc = (svc1, inl err) ->
  processJob fuel svc job mangler = (svc1, Job_Submit job, [EvGetSendQuota; EvSubmit], Returned).
Proof.
  intros Hm Hdry Hq. unfold processJob, getMaxSendRate. rewrite Hm, Hdry, Hq. reflexivity.
Qed.

(** C10. When the build, the dry run and the rate query pass and the
    stored checkpoint is at least the number of recipients, the job is
    finished without any attempt, transmission or checkpoint write. *)
Theorem C10_checkpoint_at_or_past_end (fuel : nat) svc job mangler m svc1 rate k :
  getMailing job = inr m ->
  dryRun m mangler = Ok tt ->
  GetSendQuota svc = (svc1, inr (Some rate)) ->
  getCheckpoint job = inr k ->
  recipients m <= k ->
  (0 < fuel)%nat ->
  processJob fuel svc job mangler =
    (svc1, Job_Finish job, [EvGetSendQuota; EvNewBucket rate; EvFinish; EvStop], Returned).
Proof.
  intros Hm Hdry Hq Hk Hge Hfuel.
  rewrite (processJob_sending fuel svc job mangler m svc1 rate k Hm Hdry Hq Hk).
  destruct fuel as [|fuel]; [lia|]. cbn [sendLoop]. fold (recipients m).
  rewrite decide_False by lia. reflexivity.
Qed.

End Properties.

(** * Properties that rest on the standard library *)

Section OnTheLibrary.
Context (docs : list (bytes * Spec)) {S : Type} {svcI : @sesService S (fixture.runtime docs)}
  {J : Type} `{jobI : Job J}.

Lemma nonASCII_not_printable (s : string) :
  netmail.nonASCII s = true -> netmail.allPrintable s = false.
Proof.
  induction s as [|c s IH]; simpl; [discriminate|].
  intros H. apply orb_true_iff in H. apply andb_false_iff.
  destruct H as [H|H]; [left|right; auto].
  unfold netmail.isVchar, netmail.isWSP.
  apply N.leb_le in H.
  apply orb_false_iff. split.
  - apply andb_false_iff. right. apply N.leb_gt. lia.
  - apply orb_false_iff. split; apply N.eqb_neq; lia.
Qed.

(** Executing a template fails only at an action that selects a field
    of a value the data has. *)
Lemma Execute_succeeds escape missing (t : list template.node) (data : gmap string string) :
  (forall key chain, In (template.FieldNode key chain) t -> is_Some (data !! key) -> chain = []) ->
  exists out, template.Execute escape missing t data = inr out.
Proof.
  induction t as [|nd t IH]; intros Hplain; simpl; [eauto|].
  destruct IH as [out' Hout'].
  { intros key chain Hin. apply Hplain. right. exact Hin. }
  rewrite Hout'.
  destruct nd as [text|key chain]; simpl; [eauto|].
  destruct (data !! key) as [v|] eqn:Hv; [|eauto].
  rewrite (Hplain key chain) by (try (left; reflexivity); rewrite ?Hv; eauto). eauto.
Qed.

(** C4 (amended). A template reference to a key the recipient's context
    lacks is not a rendering failure: the action prints the engine's
    placeholder ([<no value>] in the text body), and a recipient whose
    templates consist of literal text and plain key references resolves
    whatever its context holds. When a body of a
    recipient does fail to render, the error names the body and the
    recipient's index, and the job is failed before anything else
    happens. *)
Theorem C4_missing_key_renders (fuel : nat) (svc : S) (job : J) (mangler : Mangler S)
    (m : @mailing (fixture.runtime docs)) (i : Z) (r : Recipient) :
  getMailing job = inr m ->
  index m i = Some r ->
  (forall key chain, Recipient_Context r !! key = None ->
     template.text_Execute [template.FieldNode key chain] (Recipient_Context r)
       = inr "<no value>"
     /\ forall escape missing,
          template.eval escape missing (Recipient_Context r) (template.FieldNode key chain)
          = inr missing)
  /\ ((forall t key chain, textTemplate m = Some t \/ htmlTemplate m = Some t ->
         In (template.FieldNode key chain) t ->
         is_Some (Recipient_Context r !! key) -> chain = []) ->
      exists p, computeSendEmailInput m i mangler = Ok p)
  /\ (forall err, computeSendEmailInput m i mangler = Err err ->
      (exists cause,
         err = errorString ("Failed to render text template for recipient "
                            +:+ fmt_bad_s i +:+ ": " +:+ cause +:+ String newline "")
         \/ err = errorString ("Failed to render HTML template for recipient "
                               +:+ fmt_bad_s i +:+ ": " +:+ cause +:+ String newline ""))
      /\ @processJob (fixture.runtime docs) S svcI J jobI fuel svc job mangler
         = (svc, Job_Fail job, [EvFail], Returned)).
Proof.
  intros Hm Hr. split; [|split].
  - intros key chain Hkey. unfold template.text_Execute. simpl. rewrite Hkey.
    split; [reflexivity|intros; reflexivity].
  - intros Hplain.
    destruct (computeSource_Some m i r Hr) as [src Hsrc].
    destruct (computeSubject_Some m i r Hr) as [sub Hsub].
    unfold computeSendEmailInput. rewrite Hr, Hsrc, Hsub.
    destruct (textTemplate m) as [t|] eqn:Ht.
    + destruct (Execute_succeeds (fun v => v) "<no value>" t (Recipient_Context r)) as [x Hx].
      { intros key chain. apply Hplain. left. reflexivity. }
      change (ttemplate_Execute t (Recipient_Context r))
        with (template.Execute (fun v => v) "<no value>" t (Recipient_Context r)).
      rewrite Hx.
      destruct (htmlTemplate m) as [h|] eqn:Hh; [|eauto].
      destruct (Execute_succeeds template.htmlEscape "" h (Recipient_Context r)) as [y Hy].
      { intros key chain. apply Hplain. right. reflexivity. }
      change (htemplate_Execute h (Recipient_Context r))
        with (template.Execute template.htmlEscape "" h (Recipient_Context r)).
      rewrite Hy. eauto.
    + destruct (htmlTemplate m) as [h|] eqn:Hh; [|eauto].
      destruct (Execute_succeeds template.htmlEscape "" h (Recipient_Context r)) as [y Hy].
      { intros key chain. apply Hplain. right. reflexivity. }
      change (htemplate_Execute h (Recipient_Context r))
        with (template.Execute template.htmlEscape "" h (Recipient_Context r)).
      rewrite Hy. eauto.
  - intros err Herr. split; [apply (computeSendEmailInput_Err m i mangler err Herr)|].
    apply (processJob_resolve_failure fuel svc job mangler m i Hm).
    + eapply index_Some_range; eauto.
    + intros p Hp. rewrite Hp in Herr. discriminate.
Qed.

Lemma override_name (specific general : string) :
  (if negb (bool_decide (specific = "")) then specific
   else if negb (bool_decide (general = "")) then general else "")
  = override specific general.
Proof. unfold override. repeat case_bool_decide; simpl; congruence. Qed.

Lemma override_addr (specific general : string) :
  (if negb (bool_decide (specific = "")) then specific else general) = override specific general.
Proof. unfold override. case_bool_decide; reflexivity. Qed.

(** C6 (amended). For a recipient i, the subject, the sender's name and
    the sender's address are the recipient's own values where these are
    not empty and the job's values otherwise. The source is [<>] when the
    address is empty and the bare address when the name is empty.
    Otherwise it is the name followed by the address in angle brackets,
    where a name made of printable US-ASCII, spaces and tabs is written as
    a quoted string (a backslash before each quote and backslash), and any
    other name -- one with a byte outside US-ASCII, but also one with an
    ASCII control character -- is written as a "Q" encoded word in
    UTF-8. *)
Theorem C6_source_and_subject (m : @mailing (fixture.runtime docs)) (i : Z) (r : Recipient) :
  index m i = Some r ->
  let subject := override (Recipient_Subject r) (Spec_Subject (spec m)) in
  let fromName := override (Recipient_FromName r) (Spec_FromName (spec m)) in
  let fromAddr := override (Recipient_FromAddr r) (Spec_FromAddr (spec m)) in
  computeSubject m i = Some subject
  /\ (fromAddr = "" -> computeSource m i = Some "<>")
  /\ (fromAddr <> "" -> fromName = "" -> computeSource m i = Some fromAddr)
  /\ (fromAddr <> "" -> fromName <> "" -> netmail.allPrintable fromName = true ->
      computeSource m i
      = Some (String dquote (netmail.quoted fromName)
              +:+ String dquote (" <" +:+ fromAddr +:+ ">")))
  /\ (fromAddr <> "" -> fromName <> "" -> netmail.allPrintable fromName = false ->
      computeSource m i
      = Some ("=?utf-8?q?" +:+ netmail.qEncode fromName +:+ "?= <" +:+ fromAddr +:+ ">"))
  /\ (netmail.nonASCII fromName = true -> netmail.allPrintable fromName = false).
Proof.
  intros Hr subject fromName fromAddr.
  assert (Hsrc : computeSource m i =
                 Some (if bool_decide (fromAddr = "") then "<>"
                       else if bool_decide (fromName = "") then fromAddr
                       else netmail.Address_String fromName fromAddr)).
  { unfold computeSource. rewrite Hr, override_name, override_addr.
    fold fromName fromAddr. repeat case_bool_decide; reflexivity. }
  repeat split.
  - unfold computeSubject. rewrite Hr. subst subject. unfold override.
    destruct (bool_decide (Recipient_Subject r = "")); reflexivity.
  - intros Ha. rewrite Hsrc, bool_decide_true by exact Ha. reflexivity.
  - intros Ha Hn. rewrite Hsrc, bool_decide_false, bool_decide_true by assumption. reflexivity.
  - intros Ha Hn Hp. rewrite Hsrc, !bool_decide_false by assumption.
    unfold netmail.Address_String. rewrite bool_decide_false, Hp by assumption. reflexivity.
  - intros Ha Hn Hp. rewrite Hsrc, !bool_decide_false by assumption.
    unfold netmail.Address_String. rewrite bool_decide_false, Hp by assumption. reflexivity.
  - apply nonASCII_not_printable.
Qed.

End OnTheLibrary.

(** * The package on the fixtures *)

Import fixture.

(** The expectations of the package's test suite. *)

Example TestProcessJob :
  exists job tr,
    run.processJob_mock 2 mockSES (newJob "both") DoNotMangle
    = ({| nsent := 1;
          sent := Some
            {| ses.Source := String dquote ("Johnny" +:+ String dquote " <johndoe@example.com>");
               ses.Destination_ :=
                 {| ses.ToAddresses := ["janedoe@example.com"];
                    ses.CcAddresses := []; ses.BccAddresses := [] |};
               ses.Message_ :=
                 {| ses.Subject := {| ses.Data := Some "Hello"; ses.Charset := Some "UTF-8" |};
                    ses.Body_ :=
                      {| ses.Html := {| ses.Data := Some "<h1>Hello, Janie</h1>";
                                        ses.Charset := Some "UTF-8" |};
                         ses.Text := {| ses.Data := Some "Hello, Janie";
                                        ses.Charset := Some "UTF-8" |} |} |} |} |},
       job, tr, Returned)
    /\ dir job = done.
Proof. eexists _, _. split; reflexivity. Qed.

Example TestSource :
  netmail.Address_String John_Do "johndoe@example.com"
  = "=?utf-8?q?John_D=C3=B8?= <johndoe@example.com>".
Proof. reflexivity. Qed.

Example TestCheckpoint :
  @getCheckpoint run.rt _ _ (newJob "both") = inr 0
  /\ @getCheckpoint run.rt _ _ (@setCheckpoint _ _ (newJob "both") 42).1 = inr 42.
Proof. split; reflexivity. Qed.

Example TestManglers_DoNotSend :
  sent (run.processJob_mock 2 mockSES (newJob "both") DoNotSend).1.1.1 = None.
Proof. reflexivity. Qed.

(** A throttled first call is answered by a backoff and a second attempt
    at the same recipient. *)
Example throttled_run :
  attempts (trace_of (run.processJob_scripted 4 (scriptedSES (inr (Some (3 # 1)%Q)) [Some throttling])
                        (newJob "two") DoNotMangle)) = [0; 0; 1]
  /\ backoffs (trace_of (run.processJob_scripted 4 (scriptedSES (inr (Some (3 # 1)%Q)) [Some throttling])
                           (newJob "two") DoNotMangle)) = 1%nat.
Proof. split; reflexivity. Qed.

(** An unavailable service is retried as well; a rejected message fails the
    job on the spot, with the checkpoint at the last confirmed recipient. *)
Example unavailable_then_rejected_run :
  attempts (trace_of (run.processJob_scripted 5
                        (scriptedSES (inr (Some (3 # 1)%Q)) [None; Some unavailable; Some rejected])
                        (newJob "two") DoNotMangle)) = [0; 1; 1]
  /\ checkpointWrites (trace_of (run.processJob_scripted 5
                        (scriptedSES (inr (Some (3 # 1)%Q)) [None; Some unavailable; Some rejected])
                        (newJob "two") DoNotMangle)) = [checkpointBytes 1]
  /\ terminalCalls (trace_of (run.processJob_scripted 5
                        (scriptedSES (inr (Some (3 # 1)%Q)) [None; Some unavailable; Some rejected])
                        (newJob "two") DoNotMangle)) = [EvFail].
Proof. repeat split; vm_compute; reflexivity. Qed.

(** What the job stores after a run: the number of recipients once a
    fault-free run is over, the last confirmed recipient when a message
    is rejected. *)
Example fault_free_run_job :
  @getCheckpoint run.rt _ _ (run.processJob_mock 3 mockSES (newJob "two") DoNotMangle).1.1.2 = inr 2
  /\ dir (run.processJob_mock 3 mockSES (newJob "two") DoNotMangle).1.1.2 = done.
Proof. split; reflexivity. Qed.

Example rejected_run_job :
  @getCheckpoint run.rt _ _
    (run.processJob_scripted 5
       (scriptedSES (inr (Some (3 # 1)%Q)) [None; Some unavailable; Some rejected])
       (newJob "two") DoNotMangle).1.1.2 = inr 1
  /\ dir (run.processJob_scripted 5
            (scriptedSES (inr (Some (3 # 1)%Q)) [None; Some unavailable; Some rejected])
            (newJob "two") DoNotMangle).1.1.2 = failed.
Proof. split; reflexivity. Qed.

Example TestTextOnly :
  exists p,
    computeSendEmailInput (run.mailingOf spec_text_only) 0 (DoNotMangle : Mangler MockSES) = Ok p
    /\ ses.Data (ses.Text (ses.Body_ (ses.Message_ p))) = Some "Hello, Janie"
    /\ ses.Data (ses.Html (ses.Body_ (ses.Message_ p))) = None.
Proof. eexists. repeat split; reflexivity. Qed.

(** ** The theorems at concrete jobs

    Each theorem above is applied to a job of the fixtures, which shows
    that its hypotheses can be met together. *)

Lemma MockSES_always_sends :
  forall (svc : MockSES) p, exists svc' mid,
    @SendEmail _ run.rt (MockSES_sesService docs) svc p = (svc', inr {| ses.MessageId := Some mid |}).
Proof. intros svc p. eexists _, _. reflexivity. Qed.

Lemma MockJob_always_writes :
  forall (job : MockJob) v, exists job', Job_Set job name v = (job', None).
Proof. intros job v. eexists. reflexivity. Qed.


Lemma C2_witness :
  status_of (run.processJob_mock 3 mockSES (resumedJob "two" 1) DoNotMangle) = Returned
  /\ attempts (trace_of (run.processJob_mock 3 mockSES (resumedJob "two" 1) DoNotMangle))
     = seqZ 1 (recipients (run.mailingOf spec_two) - 1).
Proof.
  destruct (@C2_resume_from_checkpoint run.rt MockSES (MockSES_sesService docs) MockJob MockJob_Job
              mockSES (resumedJob "two" 1) DoNotMangle (run.mailingOf spec_two) mockSES (3 # 1)%Q
              1 3%nat)
    as (_ & _ & Hexact & _).
  - reflexivity.
  - reflexivity.
  - reflexivity.
  - reflexivity.
  - unfold recipients; simpl; lia.
  - apply Hexact.
    + exact MockSES_always_sends.
    + exact MockJob_always_writes.
    + simpl; lia.
Defined.

Lemma C3_witness :
  exists svc1 calls,
    @send run.rt ScriptedSES (ScriptedSES_sesService docs)
      (scriptedSES (inr (Some (3 # 1)%Q)) [Some throttling]) (run.mailingOf spec_two) 0 DoNotMangle
    = (svc1, calls, Err throttling)
    /\ @sendLoop run.rt ScriptedSES (ScriptedSES_sesService docs) MockJob MockJob_Job 3
         (scriptedSES (inr (Some (3 # 1)%Q)) [Some throttling]) (newJob "two")
         (run.mailingOf spec_two) DoNotMangle 0
       = (let retry := @sendLoop run.rt ScriptedSES (ScriptedSES_sesService docs) MockJob
                         MockJob_Job 2 svc1 (newJob "two") (run.mailingOf spec_two) DoNotMangle 0 in
          (retry.1.1.1, retry.1.1.2, EvAttempt 0 :: calls ++ EvBackoff :: trace_of retry,
           status_of retry)).
Proof.
  exists (scriptedSES (inr (Some (3 # 1)%Q)) []),
    (@send run.rt ScriptedSES (ScriptedSES_sesService docs)
       (scriptedSES (inr (Some (3 # 1)%Q)) [Some throttling]) (run.mailingOf spec_two) 0
       DoNotMangle).1.2.
  split; [reflexivity|].
  apply (@C3_send_error_handling run.rt ScriptedSES (ScriptedSES_sesService docs) MockJob MockJob_Job
           2%nat (scriptedSES (inr (Some (3 # 1)%Q)) [Some throttling]) (newJob "two")
           (run.mailingOf spec_two) DoNotMangle 0 (scriptedSES (inr (Some (3 # 1)%Q)) []) _
           throttling).
  - unfold recipients; simpl; lia.
  - reflexivity.
  - exists "Throttling", "Maximum sending rate exceeded.", (Some (400, "req-1")).
    split; [reflexivity|left; reflexivity].
Defined.

Lemma C5_witness :
  exists p,
    computeSendEmailInput (run.mailingOf spec_html_only) 0 (DoNotMangle : Mangler MockSES) = Ok p
    /\ ses.Text (ses.Body_ (ses.Message_ p)) = {| ses.Data := None; ses.Charset := None |}
    /\ ses.Data (ses.Text (ses.Body_ (ses.Message_ p))) <> Some ""
    /\ ses.Html (ses.Body_ (ses.Message_ p))
       = {| ses.Data := Some "<h1>Hello, Janie</h1>"; ses.Charset := Some "UTF-8" |}.
Proof.
  destruct (@C5_omitted_body run.rt MockSES MockJob MockJob_Job (newJob "html_only")
              (run.mailingOf spec_html_only) 0 jane DoNotMangle)
    as [Hhtml _].
  - reflexivity.
  - reflexivity.
  - destruct Hhtml as (t & Ht & _ & Hreq).
    + reflexivity.
    + discriminate.
    + apply Hreq. injection Ht as <-. reflexivity.
Defined.

Lemma C7_witness :
  @send run.rt MockSES (MockSES_sesService docs) mockSES (run.mailingOf spec_both) 0 DoNotSend
  = (mockSES, [], Ok "NullMangler").
Proof.
  apply (@C7_manglers run.rt MockSES (MockSES_sesService docs) mockSES (run.mailingOf spec_both)
           0 jane).
  - reflexivity.
  - reflexivity.
  - reflexivity.
Defined.

Lemma C8_witness :
  run.processJob_mock 3 mockSES (newJob "bad_field") DoNotMangle
  = (mockSES, Job_Fail (newJob "bad_field"), [EvFail], Returned).
Proof.
  apply (@C8_dry_run_first run.rt MockSES (MockSES_sesService docs) MockJob MockJob_Job 3%nat
           mockSES (newJob "bad_field") DoNotMangle (run.mailingOf spec_bad_field))
    with (i := 1).
  - reflexivity.
  - unfold recipients; simpl; lia.
  - intros p. discriminate.
Defined.

Lemma C9_witness :
  run.processJob_scripted 3 (scriptedSES (inl (errorString "RequestError: send request failed")) [])
    (newJob "two") DoNotMangle
  = (scriptedSES (inl (errorString "RequestError: send request failed")) [],
     Job_Submit (newJob "two"), [EvGetSendQuota; EvSubmit], Returned).
Proof.
  apply (@C9_rate_query_failure run.rt ScriptedSES (ScriptedSES_sesService docs) MockJob MockJob_Job
           3%nat (scriptedSES (inl (errorString "RequestError: send request failed")) [])
           (newJob "two") DoNotMangle (run.mailingOf spec_two)
           (scriptedSES (inl (errorString "RequestError: send request failed")) [])
           (errorString "RequestError: send request failed")).
  - reflexivity.
  - reflexivity.
  - reflexivity.
Defined.

Lemma C10_witness :
  run.processJob_mock 1 mockSES (resumedJob "two" 5) DoNotMangle
  = (mockSES, Job_Finish (resumedJob "two" 5),
     [EvGetSendQuota; @EvNewBucket run.rt (3 # 1)%Q; EvFinish; EvStop], Returned).
Proof.
  apply (@C10_checkpoint_at_or_past_end run.rt MockSES (MockSES_sesService docs) MockJob MockJob_Job
           1%nat mockSES (resumedJob "two" 5) DoNotMangle (run.mailingOf spec_two) mockSES
           (3 # 1)%Q 5).
  - reflexivity.
  - reflexivity.
  - reflexivity.
  - reflexivity.
  - unfold recipients; simpl; lia.
  - lia.
Defined.

Lemma C4_witness :
  (exists p, computeSendEmailInput (run.mailingOf spec_missing_key) 0
               (DoNotMangle : Mangler MockSES) = Ok p)
  /\ template.text_Execute [template.FieldNode "pet_name" []] (Recipient_Context sam)
     = inr "<no value>".
Proof.
  destruct (@C4_missing_key_renders docs MockSES (MockSES_sesService docs) MockJob MockJob_Job
              2%nat mockSES (newJob "missing_key") DoNotMangle (run.mailingOf spec_missing_key)
              0 sam)
    as (Hprint & Hplain & _).
  - reflexivity.
  - reflexivity.
  - split; [|apply (Hprint "pet_name" []); reflexivity].
    apply Hplain. intros t key chain [Ht | Ht] Hin _; [|discriminate].
    injection Ht as <-. destruct Hin as [Hin | [Hin | []]]; [discriminate|].
    injection Hin as _ <-. reflexivity.
Defined.

Lemma C6_witness :
  computeSource (run.mailingOf spec_nonascii) 1
  = Some ("=?utf-8?q?" +:+ netmail.qEncode John_Do +:+ "?= <johndoe@example.com>").
Proof.
  pose proof (C6_source_and_subject docs (run.mailingOf spec_nonascii) 1 joe eq_refl) as H.
  cbv zeta in H. destruct H as (_ & _ & _ & _ & Henc & _).
  apply Henc.
  - discriminate.
  - discriminate.
  - reflexivity.
Defined.

(** ** Where two sentences of the specification and the package part *)

(** C4, as stated, fails: the text template of this job refers to the key
    [pet_name], the context of its recipient lacks the key, and yet the
    recipient resolves, with the placeholder in the text body; the message
    is sent and the job is finished, not failed. *)
Lemma C4_counterexample :
  @getMailing run.rt MockJob MockJob_Job (newJob "missing_key")
  = inr (run.mailingOf spec_missing_key)
  /\ textTemplate (run.mailingOf spec_missing_key)
     = Some [template.TextNode "Hello, "; template.FieldNode "pet_name" []]
  /\ index (run.mailingOf spec_missing_key) 0 = Some sam
  /\ Recipient_Context sam !! "pet_name" = None
  /\ (exists p,
        computeSendEmailInput (run.mailingOf spec_missing_key) 0 (DoNotMangle : Mangler MockSES)
        = Ok p
        /\ ses.Data (ses.Text (ses.Body_ (ses.Message_ p))) = Some "Hello, <no value>")
  /\ terminalCalls (trace_of (run.processJob_mock 2 mockSES (newJob "missing_key") DoNotMangle))
     = [EvFinish]
  /\ nsent (run.processJob_mock 2 mockSES (newJob "missing_key") DoNotMangle).1.1.1 = 1%nat
  /\ dir (run.processJob_mock 2 mockSES (newJob "missing_key") DoNotMangle).1.1.2 = done.
Proof.
  repeat split; try reflexivity.
  eexists. split; reflexivity.
Qed.

(** C6, as stated, fails: the display name of this job is all US-ASCII
    (it has a line feed in it), and the source is an encoded word, not a
    quoted string. *)
Lemma C6_counterexample :
  index (run.mailingOf spec_control) 0 = Some joe
  /\ override (Recipient_FromName joe) (Spec_FromName spec_control) = John_LF_Doe
  /\ netmail.nonASCII John_LF_Doe = false
  /\ computeSource (run.mailingOf spec_control) 0
     = Some "=?utf-8?q?John=0ADoe?= <johndoe@example.com>"
  /\ computeSource (run.mailingOf spec_control) 0
     <> Some (String dquote (netmail.quoted John_LF_Doe)
              +:+ String dquote " <johndoe@example.com>").
Proof.
  repeat split; try reflexivity. discriminate.
Qed.

(** * Further properties of the package *)

Section Invariants.
Context `{rt : GoRuntime} {S : Type} `{svcI : !sesService S} {J : Type} `{jobI : Job J}.

Implicit Types (m : mailing) (mangler : Mangler S) (svc : S) (job : J) (i k : Z).

(** What a call of [send] can be: no call of the service at all (the
    recipient does not resolve, or the mangler does not send), or one
    call, with the resolved request. *)
Lemma send_cases svc m i mangler svc1 calls res :
  send svc m i mangler = (svc1, calls, res) ->
  (calls = [] /\ svc1 = svc
   /\ (ShouldSend mangler = false \/ forall p, computeSendEmailInput m i mangler <> Ok p))
  \/ (exists p, ShouldSend mangler = true /\ computeSendEmailInput m i mangler = Ok p
                /\ calls = [EvSendEmail p]).
Proof.
  unfold send.
  destruct (computeSendEmailInput m i mangler) as [p| |] eqn:Hp.
  - destruct (ShouldSend mangler) eqn:Hs; simpl.
    + destruct (SendEmail svc p) as [svc' [err|resp]]; [|destruct (ses.MessageId resp)];
        intros [= <- <- <-]; right; eauto.
    + intros [= <- <- <-]. left. auto.
  - intros [= <- <- <-]. left. repeat split. right. intros p; discriminate.
  - intros [= <- <- <-]. left. repeat split. right. intros p; discriminate.
Qed.

(** Induction along the send loop: one case for each way a pass through
    the loop can go. *)
Lemma sendLoop_cases m mangler
    (P : nat -> S -> J -> Z -> S * J * list event * status -> Prop) :
  (forall svc job i, P O svc job i (svc, job, [], OutOfFuel)) ->
  (forall (fuel : nat) svc job i, ~ i < recipients m ->
     P (Datatypes.S fuel) svc job i (svc, Job_Finish job, [EvFinish], Returned)) ->
  (forall (fuel : nat) svc job i svc1 calls, i < recipients m ->
     send svc m i mangler = (svc1, calls, Panic) ->
     P (Datatypes.S fuel) svc job i (svc1, job, EvAttempt i :: calls, Panicked)) ->
  (forall (fuel : nat) svc job i svc1 calls err, i < recipients m ->
     send svc m i mangler = (svc1, calls, Err err) ->
     TransientServiceFault err ->
     P fuel svc1 job i (sendLoop fuel svc1 job m mangler i) ->
     P (Datatypes.S fuel) svc job i
       ((sendLoop fuel svc1 job m mangler i).1.1.1, (sendLoop fuel svc1 job m mangler i).1.1.2,
        EvAttempt i :: calls ++ EvBackoff :: trace_of (sendLoop fuel svc1 job m mangler i),
        status_of (sendLoop fuel svc1 job m mangler i))) ->
  (forall (fuel : nat) svc job i svc1 calls err, i < recipients m ->
     send svc m i mangler = (svc1, calls, Err err) ->
     ~ TransientServiceFault err ->
     P (Datatypes.S fuel) svc job i
       (svc1, Job_Fail job, EvAttempt i :: calls ++ [EvFail], Returned)) ->
  (forall (fuel : nat) svc job i svc1 calls messageId job1 err, i < recipients m ->
     send svc m i mangler = (svc1, calls, Ok messageId) ->
     Job_Set job name (checkpointBytes (i + 1)) = (job1, Some err) ->
     P (Datatypes.S fuel) svc job i
       (svc1, Job_Fail job1,
        EvAttempt i :: calls ++ [EvSet name (checkpointBytes (i + 1)); EvFail], Returned)) ->
  (forall (fuel : nat) svc job i svc1 calls messageId job1, i < recipients m ->
     send svc m i mangler = (svc1, calls, Ok messageId) ->
     Job_Set job name (checkpointBytes (i + 1)) = (job1, None) ->
     P fuel svc1 job1 (i + 1) (sendLoop fuel svc1 job1 m mangler (i + 1)) ->
     P (Datatypes.S fuel) svc job i
       ((sendLoop fuel svc1 job1 m mangler (i + 1)).1.1.1,
        (sendLoop fuel svc1 job1 m mangler (i + 1)).1.1.2,
        EvAttempt i :: calls ++ EvSet name (checkpointBytes (i + 1))
          :: trace_of (sendLoop fuel svc1 job1 m mangler (i + 1)),
        status_of (sendLoop fuel svc1 job1 m mangler (i + 1)))) ->
  forall (fuel : nat) svc job i, P fuel svc job i (sendLoop fuel svc job m mangler i).
Proof.
  intros Hout Hfin Hpanic Hretry Hfatal Hsetfail Hnext.
  induction fuel as [|fuel IH]; intros svc job i; [apply Hout|].
  cbn [sendLoop]. fold (recipients m).
  case_decide as Hi; [|apply Hfin; exact Hi].
  destruct (send svc m i mangler) as [[svc1 calls] res] eqn:Hsend.
  destruct res as [messageId|err|].
  - unfold setCheckpoint. fold (checkpointBytes (i + 1)).
    destruct (Job_Set job name (checkpointBytes (i + 1))) as [job1 [err|]] eqn:Hset.
    + eapply Hsetfail; eauto.
    + specialize (Hnext fuel svc job i svc1 calls messageId job1 Hi Hsend Hset (IH svc1 job1 (i + 1))).
      destruct (sendLoop fuel svc1 job1 m mangler (i + 1)) as [[[svc2 job2] evs] st].
      exact Hnext.
  - assert (Hdec : TransientServiceFault err \/ ~ TransientServiceFault err).
    { destruct err as [code msg rf| |];
        try (right; intros (c & ms & r & Heq & _); discriminate).
      destruct (decide (code = "Throttling")) as [->|H1];
        [left; do 3 eexists; split; [reflexivity|auto]|].
      destruct (decide (code = "ServiceUnavailable")) as [->|H2];
        [left; do 3 eexists; split; [reflexivity|auto]|].
      right. intros (c & ms & r & [= <- <- <-] & [Hc|Hc]); contradiction. }
    destruct Hdec as [Ht|Hnt].
    + specialize (Hretry fuel svc job i svc1 calls err Hi Hsend Ht (IH svc1 job i)).
      destruct Ht as (code & msg & rf & -> & Hcode).
      destruct (sendLoop fuel svc1 job m mangler i) as [[[svc2 job2] evs] st].
      destruct Hcode as [-> | ->]; exact Hretry.
    + specialize (Hfatal fuel svc job i svc1 calls err Hi Hsend Hnt).
      destruct err as [code msg rf| |]; try exact Hfatal.
      repeat case_bool_decide; try exact Hfatal; exfalso; apply Hnt;
        exists code, msg, rf; auto.
  - eapply Hpanic; eauto.
Qed.

End Invariants.

Section WholeJob.
Context `{rt : GoRuntime} {S : Type} `{svcI : !sesService S} {J : Type} `{jobI : Job J}.

Implicit Types (m : mailing) (mangler : Mangler S) (svc : S) (job : J) (i k : Z).

Lemma dryRun_from_no_panic m mangler i (todo : nat) :
  0 <= i -> i + Z.of_nat todo <= recipients m -> dryRun_from m mangler i todo <> Panic.
Proof.
  revert i. induction todo as [|todo IH]; intros i H0 Hn; simpl; [discriminate|].
  destruct (computeSendEmailInput m i mangler) eqn:Hp; [apply IH; lia|discriminate|].
  exfalso. apply (computeSendEmailInput_no_panic m i mangler); [lia|exact Hp].
Qed.

(** The ways [processJob] can go: the four early exits, and the send
    loop. *)
Lemma processJob_cases (fuel : nat) svc job mangler (P : S * J * list event * status -> Prop) :
  ((forall m, getMailing job = inr m -> dryRun m mangler <> Ok tt) ->
   P (svc, Job_Fail job, [EvFail], Returned)) ->
  (forall svc1, (GetSendQuota svc).1 = svc1 -> P (svc1, job, [EvGetSendQuota], Panicked)) ->
  (forall svc1, (GetSendQuota svc).1 = svc1 ->
     P (svc1, Job_Submit job, [EvGetSendQuota; EvSubmit], Returned)) ->
  (forall svc1 rate err, (GetSendQuota svc).1 = svc1 -> getCheckpoint job = inl err ->
     P (svc1, Job_Fail job, [EvGetSendQuota; EvNewBucket rate; EvFail; EvStop], Returned)) ->
  (forall m svc1 rate k,
     getMailing job = inr m -> dryRun m mangler = Ok tt ->
     GetSendQuota svc = (svc1, inr (Some rate)) -> getCheckpoint job = inr k ->
     P ((sendLoop fuel svc1 job m mangler k).1.1.1, (sendLoop fuel svc1 job m mangler k).1.1.2,
        EvGetSendQuota :: EvNewBucket rate :: trace_of (sendLoop fuel svc1 job m mangler k)
          ++ deferred_Stop (status_of (sendLoop fuel svc1 job m mangler k)),
        status_of (sendLoop fuel svc1 job m mangler k))) ->
  P (processJob fuel svc job mangler).
Proof.
  intros Hfail Hpanic Hsubmit Hckpt Hsend.
  destruct (getMailing job) as [err|m] eqn:Hm.
  { unfold processJob. rewrite Hm. apply Hfail. intros m' [=]. }
  destruct (dryRun m mangler) as [[]|err|] eqn:Hdry.
  - destruct (GetSendQuota svc) as [svc1 [err|[rate|]]] eqn:Hq.
    + unfold processJob, getMaxSendRate. rewrite Hm, Hdry, Hq. apply Hsubmit. reflexivity.
    + destruct (getCheckpoint job) as [err|k] eqn:Hk.
      * unfold processJob, getMaxSendRate. rewrite Hm, Hdry, Hq, Hk.
        apply (Hckpt svc1 rate err); reflexivity.
      * rewrite (processJob_sending fuel svc job mangler m svc1 rate k Hm Hdry Hq Hk).
        apply (Hsend m svc1 rate k eq_refl Hdry eq_refl eq_refl).
    + unfold processJob, getMaxSendRate. rewrite Hm, Hdry, Hq. apply Hpanic. reflexivity.
  - unfold processJob. rewrite Hm, Hdry. apply Hfail.
    intros m' [= <-]. rewrite Hdry. discriminate.
  - exfalso. apply (dryRun_from_no_panic m mangler 0 (length (Spec_Recipients (spec m))));
      [lia|unfold recipients; lia|exact Hdry].
Qed.

End WholeJob.

Section JobProperties.
Context `{rt : GoRuntime} {S : Type} `{svcI : !sesService S} {J : Type} `{jobI : Job J}.

Implicit Types (m : mailing) (mangler : Mangler S) (svc : S) (job : J) (i k : Z).

Lemma buckets_app (tr1 tr2 : list event) : buckets (tr1 ++ tr2) = (buckets tr1 + buckets tr2)%nat.
Proof. unfold buckets. rewrite flat_map_app, length_app. reflexivity. Qed.

Lemma stops_app (tr1 tr2 : list event) : stops (tr1 ++ tr2) = (stops tr1 + stops tr2)%nat.
Proof. unfold stops. rewrite flat_map_app, length_app. reflexivity. Qed.

Lemma quotaQueries_app (tr1 tr2 : list event) :
  quotaQueries (tr1 ++ tr2) = (quotaQueries tr1 + quotaQueries tr2)%nat.
Proof. unfold quotaQueries. rewrite flat_map_app, length_app. reflexivity. Qed.

Lemma attributeWrites_app (tr1 tr2 : list event) :
  attributeWrites (tr1 ++ tr2) = attributeWrites tr1 ++ attributeWrites tr2.
Proof. apply flat_map_app. Qed.

(** The events of one [send] are calls of the service and nothing else. *)
Lemma send_calls_only svc m i mangler svc1 calls res :
  send svc m i mangler = (svc1, calls, res) ->
  attempts calls = [] /\ checkpointWrites calls = [] /\ terminalCalls calls = []
  /\ backoffs calls = O /\ buckets calls = O /\ stops calls = O /\ quotaQueries calls = O
  /\ attributeWrites calls = [].
Proof.
  intros Hsend. destruct (send_cases _ _ _ _ _ _ _ Hsend) as [(-> & _)|(p & _ & _ & ->)];
    repeat split; reflexivity.
Qed.

Ltac trace_simpl :=
  repeat match goal with
    | |- context [EvAttempt ?i :: ?c ++ ?l] =>
        change (EvAttempt i :: c ++ l) with ([EvAttempt i] ++ c ++ l)
    | |- context [?c ++ ?e :: ?l] =>
        lazymatch l with
        | [] => fail
        | _ => change (c ++ e :: l) with (c ++ [e] ++ l)
        end
    end;
  rewrite ?attempts_app, ?checkpointWrites_app, ?terminalCalls_app, ?backoffs_app,
    ?transmissions_app, ?buckets_app, ?stops_app, ?quotaQueries_app, ?attributeWrites_app.

(** The send loop makes exactly one terminal call when it returns, as
    its last event, and none otherwise; it neither queries the rate nor
    creates or stops a bucket; the only attribute it writes is the
    checkpoint. *)
Lemma sendLoop_terminal (fuel : nat) svc job m mangler i :
  length (terminalCalls (trace_of (sendLoop fuel svc job m mangler i)))
  = match status_of (sendLoop fuel svc job m mangler i) with Returned => 1%nat | _ => O end
  /\ (exists pre, trace_of (sendLoop fuel svc job m mangler i)
                  = pre ++ terminalCalls (trace_of (sendLoop fuel svc job m mangler i))
                  /\ terminalCalls pre = [])
  /\ buckets (trace_of (sendLoop fuel svc job m mangler i)) = O
  /\ stops (trace_of (sendLoop fuel svc job m mangler i)) = O
  /\ quotaQueries (trace_of (sendLoop fuel svc job m mangler i)) = O
  /\ attributeWrites (trace_of (sendLoop fuel svc job m mangler i))
     = (fun v => (name, v)) <$> checkpointWrites (trace_of (sendLoop fuel svc job m mangler i)).
Proof.
  revert fuel svc job i.
  apply (sendLoop_cases m mangler
    (fun _ _ _ _ run =>
       length (terminalCalls (trace_of run))
       = match status_of run with Returned => 1%nat | _ => O end
       /\ (exists pre, trace_of run = pre ++ terminalCalls (trace_of run) /\ terminalCalls pre = [])
       /\ buckets (trace_of run) = O /\ stops (trace_of run) = O
       /\ quotaQueries (trace_of run) = O
       /\ attributeWrites (trace_of run) = (fun v => (name, v)) <$> checkpointWrites (trace_of run)));
    unfold trace_of, status_of; cbn [fst snd].
  - repeat split. exists []. split; reflexivity.
  - intros. repeat split. exists []. split; reflexivity.
  - intros fuel svc job i svc1 calls Hi Hsend.
    destruct (send_calls_only _ _ _ _ _ _ _ Hsend) as (Ha & Hc & Ht & Hb & Hk & Hs & Hq & Hw).
    change (EvAttempt i :: calls) with ([EvAttempt i] ++ calls).
    rewrite terminalCalls_app, buckets_app, stops_app, quotaQueries_app, attributeWrites_app,
      checkpointWrites_app, Ht, Hk, Hs, Hq, Hw, Hc.
    repeat split. exists ([EvAttempt i] ++ calls). rewrite app_nil_r. split; [reflexivity|].
    rewrite terminalCalls_app, Ht. reflexivity.
  - intros fuel svc job i svc1 calls err Hi Hsend _.
    destruct (send_calls_only _ _ _ _ _ _ _ Hsend) as (Ha & Hc & Ht & Hb & Hk & Hs & Hq & Hw).
    destruct (sendLoop fuel svc1 job m mangler i) as [[[svc2 job2] evs] st]. cbn [fst snd].
    intros (Hterm & (pre & Hpre & Hpre0) & Hbk & Hst & Hqq & Haw).
    trace_simpl. rewrite Ht, Hk, Hs, Hq, Hw, Hc, Hbk, Hst, Hqq, Haw. simpl.
    repeat split; [exact Hterm|].
    exists ([EvAttempt i] ++ calls ++ [EvBackoff] ++ pre). split.
    + rewrite Hpre at 1. rewrite <- !app_assoc. reflexivity.
    + rewrite !terminalCalls_app, Ht, Hpre0. reflexivity.
  - intros fuel svc job i svc1 calls err Hi Hsend _.
    destruct (send_calls_only _ _ _ _ _ _ _ Hsend) as (Ha & Hc & Ht & Hb & Hk & Hs & Hq & Hw).
    trace_simpl. rewrite Ht, Hk, Hs, Hq, Hw, Hc. simpl. repeat split.
    exists ([EvAttempt i] ++ calls). split; [rewrite <- app_assoc; reflexivity|].
    rewrite terminalCalls_app, Ht. reflexivity.
  - intros fuel svc job i svc1 calls messageId job1 err Hi Hsend Hset.
    destruct (send_calls_only _ _ _ _ _ _ _ Hsend) as (Ha & Hc & Ht & Hb & Hk & Hs & Hq & Hw).
    change (EvAttempt i :: calls ++ [EvSet name (checkpointBytes (i + 1)); EvFail])
      with ([EvAttempt i] ++ calls ++ [EvSet name (checkpointBytes (i + 1))] ++ [EvFail]).
    rewrite !terminalCalls_app, !buckets_app, !stops_app, !quotaQueries_app, !attributeWrites_app,
      !checkpointWrites_app, Ht, Hk, Hs, Hq, Hw, Hc. simpl. repeat split.
    exists ([EvAttempt i] ++ calls ++ [EvSet name (checkpointBytes (i + 1))]). split.
    + rewrite <- !app_assoc. reflexivity.
    + rewrite !terminalCalls_app, Ht. reflexivity.
  - intros fuel svc job i svc1 calls messageId job1 Hi Hsend Hset.
    destruct (send_calls_only _ _ _ _ _ _ _ Hsend) as (Ha & Hc & Ht & Hb & Hk & Hs & Hq & Hw).
    destruct (sendLoop fuel svc1 job1 m mangler (i + 1)) as [[[svc2 job2] evs] st]. cbn [fst snd].
    intros (Hterm & (pre & Hpre & Hpre0) & Hbk & Hst & Hqq & Haw).
    trace_simpl. rewrite Ht, Hk, Hs, Hq, Hw, Hc, Hbk, Hst, Hqq, Haw. simpl.
    repeat split; [exact Hterm|].
    exists ([EvAttempt i] ++ calls ++ [EvSet name (checkpointBytes (i + 1))] ++ pre). split.
    + rewrite Hpre at 1. rewrite <- !app_assoc. reflexivity.
    + rewrite !terminalCalls_app, Ht, Hpre0. reflexivity.
Qed.

(** X1. A run of [processJob] that returns has made exactly one terminal
    call on the job (Fail, Finish or Submit); a run that panics or is
    still going has made none.  Nothing precedes the terminal call that is
    one, and nothing follows it but the stop of the token bucket. *)
Theorem processJob_one_terminal_call (fuel : nat) svc job mangler :
  length (terminalCalls (trace_of (processJob fuel svc job mangler)))
  = match status_of (processJob fuel svc job mangler) with Returned => 1%nat | _ => O end
  /\ exists pre post,
       trace_of (processJob fuel svc job mangler)
       = pre ++ terminalCalls (trace_of (processJob fuel svc job mangler)) ++ post
       /\ terminalCalls pre = []
       /\ (post = [] \/ post = [EvStop]).
Proof.
  apply (processJob_cases fuel svc job mangler
    (fun run =>
       length (terminalCalls (trace_of run))
       = match status_of run with Returned => 1%nat | _ => O end
       /\ exists pre post,
            trace_of run = pre ++ terminalCalls (trace_of run) ++ post
            /\ terminalCalls pre = [] /\ (post = [] \/ post = [EvStop])));
    unfold trace_of, status_of; cbn [fst snd].
  - intros _. split; [reflexivity|]. exists [], []. auto.
  - intros svc1 _. split; [reflexivity|]. exists [EvGetSendQuota], []. auto.
  - intros svc1 _. split; [reflexivity|]. exists [EvGetSendQuota], []. auto.
  - intros svc1 rate err _ _. split; [reflexivity|].
    exists [EvGetSendQuota; EvNewBucket rate], [EvStop]. auto.
  - intros m svc1 rate k _ _ _ _.
    destruct (sendLoop_terminal fuel svc1 job m mangler k) as (Hlen & (pre & Hpre & Hpre0) & _).
    destruct (sendLoop fuel svc1 job m mangler k) as [[[svc2 job2] evs] st].
    unfold trace_of, status_of in *; cbn [fst snd] in *.
    assert (Hterm : terminalCalls (EvGetSendQuota :: EvNewBucket rate :: evs ++ deferred_Stop st)
                    = terminalCalls evs).
    { change (EvGetSendQuota :: EvNewBucket rate :: ?l) with ([EvGetSendQuota; EvNewBucket rate] ++ l).
      rewrite !terminalCalls_app. destruct st; simpl; apply app_nil_r. }
    rewrite Hterm. split; [exact Hlen|].
    exists ([EvGetSendQuota; EvNewBucket rate] ++ pre), (deferred_Stop st). repeat split.
    + rewrite Hpre at 1. rewrite <- !app_assoc. reflexivity.
    + rewrite terminalCalls_app, Hpre0. reflexivity.
    + destruct st; simpl; auto.
Qed.

(** X2. A run of [processJob] queries the send rate at most once and
    creates at most one token bucket, and a bucket only after a query.
    No attempt is made without a bucket.  A run that has come to its end,
    by a return or by a panic, has stopped the bucket it created, as its
    last action; a run that is still going has not stopped it. *)
Theorem processJob_bucket_lifecycle (fuel : nat) svc job mangler :
  (buckets (trace_of (processJob fuel svc job mangler))
   <= quotaQueries (trace_of (processJob fuel svc job mangler)) <= 1)%nat
  /\ (attempts (trace_of (processJob fuel svc job mangler)) <> [] ->
      buckets (trace_of (processJob fuel svc job mangler)) = 1%nat)
  /\ stops (trace_of (processJob fuel svc job mangler))
     = match status_of (processJob fuel svc job mangler) with
       | OutOfFuel => O
       | _ => buckets (trace_of (processJob fuel svc job mangler))
       end
  /\ (buckets (trace_of (processJob fuel svc job mangler)) = 1%nat ->
      status_of (processJob fuel svc job mangler) <> OutOfFuel ->
      exists pre, trace_of (processJob fuel svc job mangler) = pre ++ [EvStop]).
Proof.
  apply (processJob_cases fuel svc job mangler
    (fun run =>
       (buckets (trace_of run) <= quotaQueries (trace_of run) <= 1)%nat
       /\ (attempts (trace_of run) <> [] -> buckets (trace_of run) = 1%nat)
       /\ stops (trace_of run)
          = match status_of run with OutOfFuel => O | _ => buckets (trace_of run) end
       /\ (buckets (trace_of run) = 1%nat -> status_of run <> OutOfFuel ->
           exists pre, trace_of run = pre ++ [EvStop])));
    unfold trace_of, status_of; cbn [fst snd].
  - intros _. repeat split; unfold buckets, quotaQueries, stops, attempts; simpl; try lia;
      try (intros H; exfalso; apply H; reflexivity).
  - intros svc1 _. repeat split; unfold buckets, quotaQueries, stops, attempts; simpl; try lia;
      try (intros H; exfalso; apply H; reflexivity).
  - intros svc1 _. repeat split; unfold buckets, quotaQueries, stops, attempts; simpl; try lia;
      try (intros H; exfalso; apply H; reflexivity).
  - intros svc1 rate err _ _. repeat split; unfold buckets, quotaQueries, stops, attempts; simpl;
      try lia.
    intros _ _. exists [EvGetSendQuota; EvNewBucket rate; EvFail]. reflexivity.
  - intros m svc1 rate k _ _ _ _.
    destruct (sendLoop_terminal fuel svc1 job m mangler k) as (_ & _ & Hbk & Hst & Hqq & _).
    destruct (sendLoop fuel svc1 job m mangler k) as [[[svc2 job2] evs] st].
    unfold trace_of, status_of in *; cbn [fst snd] in *.
    change (EvGetSendQuota :: EvNewBucket rate :: evs ++ deferred_Stop st)
      with ([EvGetSendQuota; EvNewBucket rate] ++ evs ++ deferred_Stop st).
    rewrite !buckets_app, !stops_app, !quotaQueries_app, Hbk, Hst, Hqq.
    destruct st; unfold buckets, quotaQueries, stops; simpl; repeat split; try lia;
      try congruence.
    + intros _ _. exists ([EvGetSendQuota; EvNewBucket rate] ++ evs). rewrite <- app_assoc. reflexivity.
    + intros _ _. exists ([EvGetSendQuota; EvNewBucket rate] ++ evs). rewrite <- app_assoc. reflexivity.
Qed.

(** Where an attempt can sit in a trace. *)
Lemma attempt_at_head (e : event) (tr pre : list event) j post :
  e :: tr = pre ++ EvAttempt j :: post ->
  (pre = [] /\ e = EvAttempt j /\ post = tr)
  \/ (exists pre', pre = e :: pre' /\ tr = pre' ++ EvAttempt j :: post).
Proof.
  destruct pre as [|x pre]; simpl; intros [= -> ->]; [left; auto|right; eauto].
Qed.

Lemma attempt_after (c tr pre : list event) j post :
  attempts c = [] ->
  c ++ tr = pre ++ EvAttempt j :: post ->
  exists pre', pre = c ++ pre' /\ tr = pre' ++ EvAttempt j :: post.
Proof.
  revert pre. induction c as [|x c IH]; intros pre Hc Heq; [exists pre; auto|].
  simpl in Heq. destruct (attempt_at_head _ _ _ _ _ Heq) as [(_ & -> & _)|(pre' & -> & Htl)].
  - discriminate Hc.
  - destruct (IH pre') as (pre'' & -> & Hrest); [|exact Htl|eauto].
    destruct x; try discriminate Hc; exact Hc.
Qed.

Lemma attempt_before_stop (tr pre : list event) j post :
  tr ++ [EvStop] = pre ++ EvAttempt j :: post ->
  exists post', tr = pre ++ EvAttempt j :: post'.
Proof.
  revert pre. induction tr as [|e tr IH]; intros pre Heq; simpl in Heq.
  - destruct pre as [|? [|]]; discriminate Heq.
  - destruct (attempt_at_head _ _ _ _ _ Heq) as [(-> & -> & _)|(pre' & -> & Htl)].
    + exists tr. reflexivity.
    + destruct (IH _ Htl) as [post' ->]. exists post'. reflexivity.
Qed.

(** Along the send loop started at [i]: the checkpoint is written with
    [i+1], [i+2], ... in this order and never past the number of
    recipients, and every attempt is for the recipient at the checkpoint
    of the moment. *)
Lemma sendLoop_progress (fuel : nat) svc job m mangler i :
  checkpointWrites (trace_of (sendLoop fuel svc job m mangler i))
  = checkpointBytes
      <$> seqZ (i + 1) (Z.of_nat (length (checkpointWrites (trace_of (sendLoop fuel svc job m mangler i)))))
  /\ i + Z.of_nat (length (checkpointWrites (trace_of (sendLoop fuel svc job m mangler i))))
     <= Z.max i (recipients m)
  /\ forall pre j post,
       trace_of (sendLoop fuel svc job m mangler i) = pre ++ EvAttempt j :: post ->
       j = i + Z.of_nat (length (checkpointWrites pre)).
Proof.
  revert fuel svc job i.
  apply (sendLoop_cases m mangler
    (fun _ _ _ i run =>
       checkpointWrites (trace_of run)
       = checkpointBytes <$> seqZ (i + 1) (Z.of_nat (length (checkpointWrites (trace_of run))))
       /\ i + Z.of_nat (length (checkpointWrites (trace_of run))) <= Z.max i (recipients m)
       /\ forall pre j post, trace_of run = pre ++ EvAttempt j :: post ->
            j = i + Z.of_nat (length (checkpointWrites pre))));
    unfold trace_of, status_of; cbn [fst snd].
  - intros. repeat split; [simpl; lia|]. intros [|] ? ? [=].
  - intros. repeat split; [simpl; lia|]. intros [|? [|]] ? ? [=].
  - intros fuel svc job i svc1 calls Hi Hsend.
    destruct (send_calls_only _ _ _ _ _ _ _ Hsend) as (Ha & Hc & _).
    change (EvAttempt i :: calls) with ([EvAttempt i] ++ calls).
    rewrite checkpointWrites_app, Hc. repeat split; [simpl; lia|].
    intros pre j post Heq. simpl in Heq.
    destruct (attempt_at_head _ _ _ _ _ Heq) as [(-> & [= <-] & _)|(pre' & -> & Htl)];
      [simpl; lia|].
    exfalso. assert (Hx : attempts calls = attempts (pre' ++ EvAttempt j :: post)) by (rewrite Htl; reflexivity).
    rewrite Ha, attempts_app in Hx. destruct (attempts pre'); discriminate Hx.
  - intros fuel svc job i svc1 calls err Hi Hsend _.
    destruct (send_calls_only _ _ _ _ _ _ _ Hsend) as (Ha & Hc & _).
    destruct (sendLoop fuel svc1 job m mangler i) as [[[svc2 job2] evs] st]. cbn [fst snd].
    intros (Hw & Hbound & Hat).
    trace_simpl. rewrite Hc. simpl. repeat split; [exact Hw|exact Hbound|].
    intros pre j post Heq.
    destruct (attempt_at_head _ _ _ _ _ Heq) as [(-> & [= <-] & _)|(pre1 & -> & Htl)];
      [simpl; lia|].
    destruct (attempt_after _ _ _ _ _ Ha Htl) as (pre2 & -> & Htl2).
    destruct (attempt_at_head _ _ _ _ _ Htl2) as [(_ & [=] & _)|(pre3 & -> & Htl3)].
    rewrite (Hat _ _ _ Htl3).
    change (EvAttempt i :: calls ++ EvBackoff :: pre3)
      with ([EvAttempt i] ++ calls ++ [EvBackoff] ++ pre3).
    rewrite !checkpointWrites_app, Hc. reflexivity.
  - intros fuel svc job i svc1 calls err Hi Hsend _.
    destruct (send_calls_only _ _ _ _ _ _ _ Hsend) as (Ha & Hc & _).
    trace_simpl. rewrite Hc. simpl. repeat split; [lia|].
    intros pre j post Heq.
    destruct (attempt_at_head _ _ _ _ _ Heq) as [(-> & [= <-] & _)|(pre1 & -> & Htl)];
      [simpl; lia|].
    destruct (attempt_after _ _ _ _ _ Ha Htl) as (pre2 & -> & Htl2).
    destruct pre2 as [|? [|]]; discriminate Htl2.
  - intros fuel svc job i svc1 calls messageId job1 err Hi Hsend Hset.
    destruct (send_calls_only _ _ _ _ _ _ _ Hsend) as (Ha & Hc & _).
    change (EvAttempt i :: calls ++ [EvSet name (checkpointBytes (i + 1)); EvFail])
      with ([EvAttempt i] ++ calls ++ [EvSet name (checkpointBytes (i + 1)); EvFail]).
    rewrite !checkpointWrites_app, Hc. simpl. repeat split; [lia|].
    intros pre j post Heq.
    destruct (attempt_at_head _ _ _ _ _ Heq) as [(-> & [= <-] & _)|(pre1 & -> & Htl)];
      [simpl; lia|].
    destruct (attempt_after _ _ _ _ _ Ha Htl) as (pre2 & -> & Htl2).
    destruct pre2 as [|? [|? [|]]]; discriminate Htl2.
  - intros fuel svc job i svc1 calls messageId job1 Hi Hsend Hset.
    destruct (send_calls_only _ _ _ _ _ _ _ Hsend) as (Ha & Hc & _).
    destruct (sendLoop fuel svc1 job1 m mangler (i + 1)) as [[[svc2 job2] evs] st]. cbn [fst snd].
    intros (Hw & Hbound & Hat).
    trace_simpl. rewrite Hc. simpl. repeat split.
    + rewrite Hw at 1. rewrite Nat2Z.inj_succ.
      rewrite (seqZ_cons (i + 1)) by lia.
      replace (Z.succ (i + 1)) with (i + 1 + 1) by lia.
      replace (Z.pred (Z.succ (Z.of_nat (length (checkpointWrites evs)))))
        with (Z.of_nat (length (checkpointWrites evs))) by lia.
      reflexivity.
    + lia.
    + intros pre j post Heq.
      destruct (attempt_at_head _ _ _ _ _ Heq) as [(-> & [= <-] & _)|(pre1 & -> & Htl)];
        [simpl; lia|].
      destruct (attempt_after _ _ _ _ _ Ha Htl) as (pre2 & -> & Htl2).
      destruct (attempt_at_head _ _ _ _ _ Htl2) as [(_ & [=] & _)|(pre3 & -> & Htl3)].
      rewrite (Hat _ _ _ Htl3).
      change (EvAttempt i :: calls ++ EvSet name (checkpointBytes (i + 1)) :: pre3)
        with ([EvAttempt i] ++ calls ++ [EvSet name (checkpointBytes (i + 1))] ++ pre3).
      rewrite !checkpointWrites_app, Hc. simpl. lia.
Qed.

(** A loop that ends with Finish has written the checkpoint for every
    recipient from [i] on, has attempted each of them, and has made one
    attempt more for every backoff. *)
Lemma sendLoop_finish (fuel : nat) svc job m mangler i :
  terminalCalls (trace_of (sendLoop fuel svc job m mangler i)) = [EvFinish] ->
  Z.of_nat (length (checkpointWrites (trace_of (sendLoop fuel svc job m mangler i))))
  = Z.max 0 (recipients m - i)
  /\ length (attempts (trace_of (sendLoop fuel svc job m mangler i)))
     = (length (checkpointWrites (trace_of (sendLoop fuel svc job m mangler i)))
        + backoffs (trace_of (sendLoop fuel svc job m mangler i)))%nat
  /\ forall j, i <= j < recipients m -> In j (attempts (trace_of (sendLoop fuel svc job m mangler i))).
Proof.
  revert fuel svc job i.
  apply (sendLoop_cases m mangler
    (fun _ _ _ i run =>
       terminalCalls (trace_of run) = [EvFinish] ->
       Z.of_nat (length (checkpointWrites (trace_of run))) = Z.max 0 (recipients m - i)
       /\ length (attempts (trace_of run))
          = (length (checkpointWrites (trace_of run)) + backoffs (trace_of run))%nat
       /\ forall j, i <= j < recipients m -> In j (attempts (trace_of run))));
    unfold trace_of, status_of; cbn [fst snd].
  - intros ? ? ? [=].
  - intros fuel svc job i Hi _. repeat split; [simpl; lia|]. intros j Hj. lia.
  - intros fuel svc job i svc1 calls Hi Hsend.
    destruct (send_calls_only _ _ _ _ _ _ _ Hsend) as (Ha & Hc & Ht & _).
    change (EvAttempt i :: calls) with ([EvAttempt i] ++ calls).
    rewrite terminalCalls_app, Ht. intros [=].
  - intros fuel svc job i svc1 calls err Hi Hsend _.
    destruct (send_calls_only _ _ _ _ _ _ _ Hsend) as (Ha & Hc & Ht & Hb & _).
    destruct (sendLoop fuel svc1 job m mangler i) as [[[svc2 job2] evs] st]. cbn [fst snd].
    intros IH. trace_simpl. rewrite Ha, Hc, Ht, Hb. simpl. intros Hfin.
    destruct (IH Hfin) as (Hw & Hlen & Hall). repeat split.
    + exact Hw.
    + lia.
    + intros j Hj. right. apply Hall. exact Hj.
  - intros fuel svc job i svc1 calls err Hi Hsend _.
    destruct (send_calls_only _ _ _ _ _ _ _ Hsend) as (Ha & Hc & Ht & _).
    trace_simpl. rewrite Ht. simpl. intros [=].
  - intros fuel svc job i svc1 calls messageId job1 err Hi Hsend Hset.
    destruct (send_calls_only _ _ _ _ _ _ _ Hsend) as (Ha & Hc & Ht & _).
    change (EvAttempt i :: calls ++ [EvSet name (checkpointBytes (i + 1)); EvFail])
      with ([EvAttempt i] ++ calls ++ [EvSet name (checkpointBytes (i + 1)); EvFail]).
    rewrite !terminalCalls_app, Ht. simpl. intros [=].
  - intros fuel svc job i svc1 calls messageId job1 Hi Hsend Hset.
    destruct (send_calls_only _ _ _ _ _ _ _ Hsend) as (Ha & Hc & Ht & Hb & _).
    destruct (sendLoop fuel svc1 job1 m mangler (i + 1)) as [[[svc2 job2] evs] st]. cbn [fst snd].
    intros IH. trace_simpl. rewrite Ha, Hc, Ht, Hb. simpl. intros Hfin.
    destruct (IH Hfin) as (Hw & Hlen & Hall). repeat split.
    + lia.
    + lia.
    + intros j Hj. destruct (decide (j = i)) as [->|Hne]; [left; reflexivity|].
      right. apply Hall. lia.
Qed.

(** Every request the loop hands to the service is the resolved request
    of a recipient from [i] on; there is at most one per attempt; with a
    mangler that does not send there is none, and the service is left as
    it was. *)
Lemma sendLoop_transmissions (fuel : nat) svc job m mangler i :
  Forall (fun p => exists j, i <= j < recipients m /\ computeSendEmailInput m j mangler = Ok p)
    (transmissions (trace_of (sendLoop fuel svc job m mangler i)))
  /\ (length (transmissions (trace_of (sendLoop fuel svc job m mangler i)))
      <= length (attempts (trace_of (sendLoop fuel svc job m mangler i))))%nat
  /\ (ShouldSend mangler = false ->
      transmissions (trace_of (sendLoop fuel svc job m mangler i)) = []
      /\ (sendLoop fuel svc job m mangler i).1.1.1 = svc).
Proof.
  revert fuel svc job i.
  assert (Hcalls : forall svc i svc1 calls res, i < recipients m ->
            send svc m i mangler = (svc1, calls, res) ->
            Forall (fun p => exists j, i <= j < recipients m
                                       /\ computeSendEmailInput m j mangler = Ok p)
              (transmissions calls)
            /\ (length (transmissions calls) <= 1)%nat
            /\ (ShouldSend mangler = false -> transmissions calls = [] /\ svc1 = svc)).
  { intros svc i svc1 calls res Hi Hsend.
    destruct (send_cases _ _ _ _ _ _ _ Hsend) as [(-> & -> & _)|(p & Hs & Hp & ->)].
    - repeat split; simpl; auto.
    - repeat split; simpl; try lia; try congruence.
      constructor; [|constructor]. exists i. split; [lia|exact Hp]. }
  apply (sendLoop_cases m mangler
    (fun _ svc _ i run =>
       Forall (fun p => exists j, i <= j < recipients m /\ computeSendEmailInput m j mangler = Ok p)
         (transmissions (trace_of run))
       /\ (length (transmissions (trace_of run)) <= length (attempts (trace_of run)))%nat
       /\ (ShouldSend mangler = false -> transmissions (trace_of run) = [] /\ run.1.1.1 = svc)));
    unfold trace_of, status_of; cbn [fst snd].
  - intros. repeat split; simpl; auto.
  - intros. repeat split; simpl; auto.
  - intros fuel svc job i svc1 calls Hi Hsend.
    destruct (Hcalls _ _ _ _ _ Hi Hsend) as (Hf & Hl & Hn).
    destruct (send_calls_only _ _ _ _ _ _ _ Hsend) as (Ha & _).
    change (EvAttempt i :: calls) with ([EvAttempt i] ++ calls).
    rewrite transmissions_app, attempts_app, Ha. simpl.
    repeat split; auto; apply Hn; assumption.
  - intros fuel svc job i svc1 calls err Hi Hsend _.
    destruct (Hcalls _ _ _ _ _ Hi Hsend) as (Hf & Hl & Hn).
    destruct (send_calls_only _ _ _ _ _ _ _ Hsend) as (Ha & _).
    destruct (sendLoop fuel svc1 job m mangler i) as [[[svc2 job2] evs] st]. cbn [fst snd].
    intros (IHf & IHl & IHn). trace_simpl. rewrite Ha. simpl. rewrite length_app. repeat split.
    + apply Forall_app. split; assumption.
    + lia.
    + match goal with H : ShouldSend mangler = false |- _ =>
        destruct (Hn H) as [-> _]; destruct (IHn H) as [-> _] end. reflexivity.
    + match goal with H : ShouldSend mangler = false |- _ =>
        destruct (Hn H) as [_ <-]; apply (IHn H) end.
  - intros fuel svc job i svc1 calls err Hi Hsend _.
    destruct (Hcalls _ _ _ _ _ Hi Hsend) as (Hf & Hl & Hn).
    destruct (send_calls_only _ _ _ _ _ _ _ Hsend) as (Ha & _).
    trace_simpl. rewrite Ha. simpl. rewrite !app_nil_r.
    repeat split; auto; apply Hn; assumption.
  - intros fuel svc job i svc1 calls messageId job1 err Hi Hsend Hset.
    destruct (Hcalls _ _ _ _ _ Hi Hsend) as (Hf & Hl & Hn).
    destruct (send_calls_only _ _ _ _ _ _ _ Hsend) as (Ha & _).
    change (EvAttempt i :: calls ++ [EvSet name (checkpointBytes (i + 1)); EvFail])
      with ([EvAttempt i] ++ calls ++ [EvSet name (checkpointBytes (i + 1)); EvFail]).
    rewrite !transmissions_app, !attempts_app, Ha. simpl. rewrite !app_nil_r.
    repeat split; auto; apply Hn; assumption.
  - intros fuel svc job i svc1 calls messageId job1 Hi Hsend Hset.
    destruct (Hcalls _ _ _ _ _ Hi Hsend) as (Hf & Hl & Hn).
    destruct (send_calls_only _ _ _ _ _ _ _ Hsend) as (Ha & _).
    destruct (sendLoop fuel svc1 job1 m mangler (i + 1)) as [[[svc2 job2] evs] st]. cbn [fst snd].
    intros (IHf & IHl & IHn). trace_simpl. rewrite Ha. simpl. rewrite length_app. repeat split.
    + apply Forall_app. split; [assumption|].
      eapply Forall_impl; [exact IHf|]. simpl. intros p (j & Hj & Hp). exists j. split; [lia|exact Hp].
    + lia.
    + match goal with H : ShouldSend mangler = false |- _ =>
        destruct (Hn H) as [-> _]; destruct (IHn H) as [-> _] end. reflexivity.
    + match goal with H : ShouldSend mangler = false |- _ =>
        destruct (Hn H) as [_ <-]; apply (IHn H) end.
Qed.

(** The job the loop leaves is the job it was given after one [job.Set]
    of the checkpoint for every write of the trace, with the values
    [i+1], [i+2], ..., and after the terminal call of the trace, if there
    is one: the trace tells every call that changes the job. *)
Lemma sendLoop_job_state (fuel : nat) svc job m mangler i :
  (sendLoop fuel svc job m mangler i).1.1.2
  = terminated
      (written job
         (seqZ (i + 1) (Z.of_nat (length (checkpointWrites (trace_of (sendLoop fuel svc job m mangler i)))))))
      (terminalCalls (trace_of (sendLoop fuel svc job m mangler i))).
Proof.
  revert fuel svc job i.
  apply (sendLoop_cases m mangler
    (fun _ _ job i run =>
       run.1.1.2
       = terminated
           (written job (seqZ (i + 1) (Z.of_nat (length (checkpointWrites (trace_of run))))))
           (terminalCalls (trace_of run))));
    unfold trace_of, status_of; cbn [fst snd].
  - reflexivity.
  - reflexivity.
  - intros fuel svc job i svc1 calls Hi Hsend.
    destruct (send_calls_only _ _ _ _ _ _ _ Hsend) as (Ha & Hc & Ht & _).
    change (EvAttempt i :: calls) with ([EvAttempt i] ++ calls).
    rewrite terminalCalls_app, checkpointWrites_app, Ht, Hc. reflexivity.
  - intros fuel svc job i svc1 calls err Hi Hsend _.
    destruct (send_calls_only _ _ _ _ _ _ _ Hsend) as (Ha & Hc & Ht & _).
    destruct (sendLoop fuel svc1 job m mangler i) as [[[svc2 job2] evs] st]. cbn [fst snd].
    intros IH. trace_simpl. rewrite Hc, Ht. exact IH.
  - intros fuel svc job i svc1 calls err Hi Hsend _.
    destruct (send_calls_only _ _ _ _ _ _ _ Hsend) as (Ha & Hc & Ht & _).
    trace_simpl. rewrite Hc, Ht. reflexivity.
  - intros fuel svc job i svc1 calls messageId job1 err Hi Hsend Hset.
    destruct (send_calls_only _ _ _ _ _ _ _ Hsend) as (Ha & Hc & Ht & _).
    change (EvAttempt i :: calls ++ [EvSet name (checkpointBytes (i + 1)); EvFail])
      with ([EvAttempt i] ++ calls ++ [EvSet name (checkpointBytes (i + 1))] ++ [EvFail]).
    rewrite !terminalCalls_app, !checkpointWrites_app, Hc, Ht. simpl.
    change (Z.of_nat 0 + (i + 1)) with (i + 1). rewrite Hset. reflexivity.
  - intros fuel svc job i svc1 calls messageId job1 Hi Hsend Hset.
    destruct (send_calls_only _ _ _ _ _ _ _ Hsend) as (Ha & Hc & Ht & _).
    destruct (sendLoop fuel svc1 job1 m mangler (i + 1)) as [[[svc2 job2] evs] st]. cbn [fst snd].
    intros IH. trace_simpl. rewrite Hc, Ht. simpl.
    rewrite (written_cons job (i + 1)) by lia. rewrite Hset. cbn [fst].
    rewrite IH. do 3 f_equal. lia.
Qed.

(** The same for the whole of [processJob], whose early exits write
    nothing; nothing else than the checkpoint is ever written. *)
Lemma processJob_job_state (fuel : nat) svc job mangler k :
  getCheckpoint job = inr k ->
  (processJob fuel svc job mangler).1.1.2
  = terminated
      (written job
         (seqZ (k + 1) (Z.of_nat (length (checkpointWrites (trace_of (processJob fuel svc job mangler)))))))
      (terminalCalls (trace_of (processJob fuel svc job mangler)))
  /\ attributeWrites (trace_of (processJob fuel svc job mangler))
     = (fun v => (name, v)) <$> checkpointWrites (trace_of (processJob fuel svc job mangler)).
Proof.
  intros Hk.
  apply (processJob_cases fuel svc job mangler
    (fun run =>
       run.1.1.2
       = terminated
           (written job (seqZ (k + 1) (Z.of_nat (length (checkpointWrites (trace_of run))))))
           (terminalCalls (trace_of run))
       /\ attributeWrites (trace_of run) = (fun v => (name, v)) <$> checkpointWrites (trace_of run)));
    unfold trace_of, status_of; cbn [fst snd].
  - intros _. split; reflexivity.
  - intros _ _. split; reflexivity.
  - intros _ _. split; reflexivity.
  - intros _ rate err _ _. split; reflexivity.
  - intros m svc1 rate k' _ _ _ Hk'. rewrite Hk in Hk'. injection Hk' as <-.
    pose proof (sendLoop_job_state fuel svc1 job m mangler k) as Hjob.
    destruct (sendLoop_terminal fuel svc1 job m mangler k) as (_ & _ & _ & _ & _ & Haw).
    destruct (sendLoop fuel svc1 job m mangler k) as [[[svc2 job2] evs] st].
    unfold trace_of, status_of in *; cbn [fst snd] in *.
    change (EvGetSendQuota :: EvNewBucket rate :: evs ++ deferred_Stop st)
      with ([EvGetSendQuota; EvNewBucket rate] ++ evs ++ deferred_Stop st).
    rewrite !terminalCalls_app, !checkpointWrites_app, !attributeWrites_app.
    replace (terminalCalls (deferred_Stop st)) with (@nil event) by (destruct st; reflexivity).
    replace (checkpointWrites (deferred_Stop st)) with (@nil string) by (destruct st; reflexivity).
    replace (attributeWrites (deferred_Stop st)) with (@nil (string * bytes))
      by (destruct st; reflexivity).
    simpl. rewrite !app_nil_r. split; [exact Hjob|exact Haw].
Qed.

(** X3. The only attribute [processJob] ever writes is the checkpoint
    (the spec is never overwritten), and for a job whose stored
    checkpoint is k it writes the values k+1, k+2, ... in this order, one
    step at a time, and never a value past the number of recipients.
    The writes of the trace are the writes made: the job that any run
    leaves, however it ends, is the job it was given after [job.Set] of
    the attribute [recipients_sent] with k+1, k+2, ..., once for every
    write of the trace, and after the terminal call of the run if it made
    one.  So no call of [job.Set] is for another key or another value,
    and none is left out. *)
Theorem processJob_checkpoint_writes (fuel : nat) svc job mangler m k :
  getMailing job = inr m ->
  getCheckpoint job = inr k ->
  attributeWrites (trace_of (processJob fuel svc job mangler))
  = (fun c => (name, checkpointBytes c))
      <$> seqZ (k + 1) (Z.of_nat (length (attributeWrites (trace_of (processJob fuel svc job mangler)))))
  /\ k + Z.of_nat (length (attributeWrites (trace_of (processJob fuel svc job mangler))))
     <= Z.max k (recipients m)
  /\ (processJob fuel svc job mangler).1.1.2
     = terminated
         (written job
            (seqZ (k + 1) (Z.of_nat (length (attributeWrites (trace_of (processJob fuel svc job mangler)))))))
         (terminalCalls (trace_of (processJob fuel svc job mangler))).
Proof.
  intros Hm Hk.
  destruct (processJob_job_state fuel svc job mangler k Hk) as [Hjob Hattr].
  match goal with
  | |- ?A /\ ?B /\ _ =>
      cut (A /\ B);
        [intros [HA HB]; split; [exact HA|split; [exact HB|]];
         rewrite Hjob at 1; rewrite Hattr, length_fmap; reflexivity|]
  end.
  apply (processJob_cases fuel svc job mangler
    (fun run =>
       attributeWrites (trace_of run)
       = (fun c => (name, checkpointBytes c))
           <$> seqZ (k + 1) (Z.of_nat (length (attributeWrites (trace_of run))))
       /\ k + Z.of_nat (length (attributeWrites (trace_of run))) <= Z.max k (recipients m)));
    unfold trace_of, status_of; cbn [fst snd].
  - intros _. split; [reflexivity|simpl; lia].
  - intros _ _. split; [reflexivity|simpl; lia].
  - intros _ _. split; [reflexivity|simpl; lia].
  - intros _ rate err _ _. split; [reflexivity|simpl; lia].
  - intros m' svc1 rate k' Hm' _ _ Hk'.
    rewrite Hm in Hm'. injection Hm' as <-. rewrite Hk in Hk'. injection Hk' as <-.
    destruct (sendLoop_terminal fuel svc1 job m mangler k) as (_ & _ & _ & _ & _ & Haw).
    destruct (sendLoop_progress fuel svc1 job m mangler k) as (Hw & Hbound & _).
    destruct (sendLoop fuel svc1 job m mangler k) as [[[svc2 job2] evs] st].
    unfold trace_of, status_of in *; cbn [fst snd] in *.
    assert (Heq : attributeWrites (EvGetSendQuota :: EvNewBucket rate :: evs ++ deferred_Stop st)
                  = attributeWrites evs).
    { change (EvGetSendQuota :: EvNewBucket rate :: ?l) with ([EvGetSendQuota; EvNewBucket rate] ++ l).
      rewrite !attributeWrites_app. destruct st; simpl; apply app_nil_r. }
    rewrite Heq, Haw, length_fmap. split; [|exact Hbound].
    rewrite Hw at 1. rewrite <- list_fmap_compose. reflexivity.
Qed.

(** X4. Every attempt of [processJob] is for the recipient at the
    checkpoint of the moment: its index is the stored checkpoint the job
    came with plus the number of checkpoint writes made before it.  So
    the attempts never go back, never skip a recipient, and an attempt
    for the same recipient again comes only before that recipient's
    checkpoint write. *)
Theorem processJob_attempt_at_checkpoint (fuel : nat) svc job mangler k pre j post :
  getCheckpoint job = inr k ->
  trace_of (processJob fuel svc job mangler) = pre ++ EvAttempt j :: post ->
  j = k + Z.of_nat (length (checkpointWrites pre)).
Proof.
  intros Hk. revert pre j post.
  apply (processJob_cases fuel svc job mangler
    (fun run => forall pre j post, trace_of run = pre ++ EvAttempt j :: post ->
                  j = k + Z.of_nat (length (checkpointWrites pre))));
    unfold trace_of, status_of; cbn [fst snd].
  - intros _ [|? [|]] ? ? [=].
  - intros _ _ [|? [|]] ? ? [=].
  - intros _ _ [|? [|? [|]]] ? ? [=].
  - intros _ rate err _ _ [|? [|? [|? [|? [|]]]]] ? ? [=].
  - intros m svc1 rate k' _ _ _ Hk' pre j post Heq.
    rewrite Hk in Hk'. injection Hk' as <-.
    destruct (sendLoop_progress fuel svc1 job m mangler k) as (_ & _ & Hat).
    destruct (sendLoop fuel svc1 job m mangler k) as [[[svc2 job2] evs] st].
    unfold trace_of, status_of in *; cbn [fst snd] in *.
    destruct (attempt_at_head _ _ _ _ _ Heq) as [(_ & [=] & _)|(pre1 & -> & Htl)].
    destruct (attempt_at_head _ _ _ _ _ Htl) as [(_ & [=] & _)|(pre2 & -> & Htl2)].
    assert (Hsplit : exists post', evs = pre2 ++ EvAttempt j :: post').
    { destruct st; simpl in Htl2; rewrite ?app_nil_r in Htl2; eauto;
        apply (attempt_before_stop _ _ _ _ Htl2). }
    destruct Hsplit as [post' Hevs]. rewrite (Hat _ _ _ Hevs). reflexivity.
Qed.

(** X5. A job that [processJob] finishes has had every recipient from
    its stored checkpoint k on attempted and its checkpoint written for
    each of them, up to N; the attempts made are one per recipient plus
    one per backoff.  The job it leaves is the job it was given after
    [job.Set] of the checkpoint with k+1, ..., N, one call after the
    other, and then [job.Finish]: every one of these writes was made on
    the job, with this key and these values, and nothing else changed
    it. *)
Theorem processJob_finish_complete (fuel : nat) svc job mangler m k :
  getMailing job = inr m ->
  getCheckpoint job = inr k ->
  terminalCalls (trace_of (processJob fuel svc job mangler)) = [EvFinish] ->
  checkpointWrites (trace_of (processJob fuel svc job mangler))
  = checkpointBytes <$> seqZ (k + 1) (recipients m - k)
  /\ (forall j, k <= j < recipients m -> In j (attempts (trace_of (processJob fuel svc job mangler))))
  /\ length (attempts (trace_of (processJob fuel svc job mangler)))
     = (Z.to_nat (recipients m - k) + backoffs (trace_of (processJob fuel svc job mangler)))%nat
  /\ (processJob fuel svc job mangler).1.1.2
     = Job_Finish (written job (seqZ (k + 1) (recipients m - k))).
Proof.
  intros Hm Hk.
  destruct (processJob_job_state fuel svc job mangler k Hk) as [Hjob _].
  intros Hfinish.
  assert (Hold :
    checkpointWrites (trace_of (processJob fuel svc job mangler))
    = checkpointBytes <$> seqZ (k + 1) (recipients m - k)
    /\ (forall j, k <= j < recipients m -> In j (attempts (trace_of (processJob fuel svc job mangler))))
    /\ length (attempts (trace_of (processJob fuel svc job mangler)))
       = (Z.to_nat (recipients m - k) + backoffs (trace_of (processJob fuel svc job mangler)))%nat);
    [revert Hfinish; clear Hjob|
     destruct Hold as (Hw & Hall & Hlen); repeat split; [exact Hw|exact Hall|exact Hlen|];
     rewrite Hjob, Hfinish, Hw, length_fmap, length_seqZ; simpl;
     destruct (decide (recipients m - k <= 0));
       [rewrite !seqZ_nil by lia; reflexivity|rewrite Z2Nat.id by lia; reflexivity]].
  apply (processJob_cases fuel svc job mangler
    (fun run =>
       terminalCalls (trace_of run) = [EvFinish] ->
       checkpointWrites (trace_of run) = checkpointBytes <$> seqZ (k + 1) (recipients m - k)
       /\ (forall j, k <= j < recipients m -> In j (attempts (trace_of run)))
       /\ length (attempts (trace_of run))
          = (Z.to_nat (recipients m - k) + backoffs (trace_of run))%nat));
    unfold trace_of, status_of; cbn [fst snd].
  - intros _ [=].
  - intros _ _ [=].
  - intros _ _ [=].
  - intros _ rate err _ _ [=].
  - intros m' svc1 rate k' Hm' _ _ Hk'.
    rewrite Hm in Hm'. injection Hm' as <-. rewrite Hk in Hk'. injection Hk' as <-.
    pose proof (sendLoop_finish fuel svc1 job m mangler k) as Hfin.
    destruct (sendLoop_progress fuel svc1 job m mangler k) as (Hw & _ & _).
    destruct (sendLoop fuel svc1 job m mangler k) as [[[svc2 job2] evs] st].
    unfold trace_of, status_of in *; cbn [fst snd] in *.
    change (EvGetSendQuota :: EvNewBucket rate :: evs ++ deferred_Stop st)
      with ([EvGetSendQuota; EvNewBucket rate] ++ evs ++ deferred_Stop st).
    rewrite !terminalCalls_app, !checkpointWrites_app, !attempts_app, !backoffs_app.
    replace (terminalCalls (deferred_Stop st)) with (@nil event) by (destruct st; reflexivity).
    replace (checkpointWrites (deferred_Stop st)) with (@nil string) by (destruct st; reflexivity).
    replace (attempts (deferred_Stop st)) with (@nil Z) by (destruct st; reflexivity).
    replace (backoffs (deferred_Stop st)) with O by (destruct st; reflexivity).
    simpl. rewrite !app_nil_r. intros Hterm.
    destruct (Hfin Hterm) as (Hlen & Hatt & Hall). repeat split.
    + rewrite Hw, Hlen. destruct (decide (recipients m - k <= 0)).
      * rewrite Z.max_l by lia. rewrite !seqZ_nil by lia. reflexivity.
      * rewrite Z.max_r by lia. reflexivity.
    + exact Hall.
    + lia.
Qed.

(** Every request of a run is one that a sending mangler had resolved
    for some recipient of the job. *)
Lemma processJob_transmissions_lift (fuel : nat) svc job mangler (R : ses.SendEmailInput -> Prop) :
  (forall m j p, getMailing job = inr m -> ShouldSend mangler = true ->
     computeSendEmailInput m j mangler = Ok p -> R p) ->
  Forall R (transmissions (trace_of (processJob fuel svc job mangler))).
Proof.
  intros HR.
  apply (processJob_cases fuel svc job mangler
    (fun run => Forall R (transmissions (trace_of run))));
    unfold trace_of, status_of; cbn [fst snd]; try (intros; constructor).
  intros m svc1 rate k Hm _ _ _.
  destruct (sendLoop_transmissions fuel svc1 job m mangler k) as (Hres & _ & Hnone).
  destruct (sendLoop fuel svc1 job m mangler k) as [[[svc2 job2] evs] st].
  unfold trace_of, status_of in *; cbn [fst snd] in *.
  change (EvGetSendQuota :: EvNewBucket rate :: evs ++ deferred_Stop st)
    with ([EvGetSendQuota; EvNewBucket rate] ++ evs ++ deferred_Stop st).
  rewrite !transmissions_app.
  replace (transmissions (deferred_Stop st)) with (@nil ses.SendEmailInput)
    by (destruct st; reflexivity).
  simpl. rewrite !app_nil_r.
  destruct (ShouldSend mangler) eqn:Hs.
  - eapply Forall_impl; [exact Hres|]. simpl. intros p (j & _ & Hp). apply (HR m j p Hm eq_refl Hp).
  - rewrite (proj1 (Hnone eq_refl)). constructor.
Qed.

(** X6. With a mangler that does not send, [processJob] hands nothing to
    the transmission service, whatever the job and however the run goes:
    the only call the service can get is the rate query, and its state at
    the end is the one it had, or the one the rate query left. *)
Theorem processJob_no_send (fuel : nat) svc job mangler :
  ShouldSend mangler = false ->
  transmissions (trace_of (processJob fuel svc job mangler)) = []
  /\ ((processJob fuel svc job mangler).1.1.1 = svc
      \/ (processJob fuel svc job mangler).1.1.1 = (GetSendQuota svc).1).
Proof.
  intros Hns.
  apply (processJob_cases fuel svc job mangler
    (fun run => transmissions (trace_of run) = []
                /\ (run.1.1.1 = svc \/ run.1.1.1 = (GetSendQuota svc).1)));
    unfold trace_of, status_of; cbn [fst snd]; auto.
  intros m svc1 rate k _ _ Hq _.
  destruct (sendLoop_transmissions fuel svc1 job m mangler k) as (_ & _ & Hnone).
  destruct (Hnone Hns) as [Htx Hsvc].
  destruct (sendLoop fuel svc1 job m mangler k) as [[[svc2 job2] evs] st].
  unfold trace_of, status_of in *; cbn [fst snd] in *.
  change (EvGetSendQuota :: EvNewBucket rate :: evs ++ deferred_Stop st)
    with ([EvGetSendQuota; EvNewBucket rate] ++ evs ++ deferred_Stop st).
  rewrite !transmissions_app, Htx, Hsvc, Hq. split; [destruct st; reflexivity|auto].
Qed.

(** What a resolved request is made of. *)
Lemma computeSendEmailInput_Ok_inv m i mangler p :
  computeSendEmailInput m i mangler = Ok p ->
  exists r, index m i = Some r
    /\ ses.Destination_ p
       = {| ses.ToAddresses := [Mangle mangler (Recipient_Addr r)];
            ses.CcAddresses := []; ses.BccAddresses := [] |}
    /\ Some (ses.Source p) = computeSource m i
    /\ Some (ses.Subject (ses.Message_ p)) = utf8Content <$> computeSubject m i.
Proof.
  unfold computeSendEmailInput.
  destruct (index m i) as [r|]; [|discriminate].
  destruct (textTemplate m) as [t|]; [destruct (ttemplate_Execute t _)|];
    try discriminate;
    (destruct (htmlTemplate m) as [h|]; [destruct (htemplate_Execute h _)|]; try discriminate);
    destruct (computeSource m i), (computeSubject m i); try discriminate;
    intros [= <-]; exists r; repeat split.
Qed.

(** X7. Every request [processJob] hands to the transmission service is
    the resolved request of a recipient of the job, at an index from the
    stored checkpoint k on: it has exactly one To address, the mangled
    address of that recipient, and no Cc and no Bcc address.  There is at
    most one request per attempt. *)
Theorem processJob_sends_resolved (fuel : nat) svc job mangler m k :
  getMailing job = inr m ->
  getCheckpoint job = inr k ->
  Forall (fun p => exists j r,
            k <= j < recipients m
            /\ computeSendEmailInput m j mangler = Ok p
            /\ index m j = Some r
            /\ ses.Destination_ p
               = {| ses.ToAddresses := [Mangle mangler (Recipient_Addr r)];
                    ses.CcAddresses := []; ses.BccAddresses := [] |})
    (transmissions (trace_of (processJob fuel svc job mangler)))
  /\ (length (transmissions (trace_of (processJob fuel svc job mangler)))
      <= length (attempts (trace_of (processJob fuel svc job mangler))))%nat.
Proof.
  intros Hm Hk.
  apply (processJob_cases fuel svc job mangler
    (fun run =>
       Forall (fun p => exists j r,
                 k <= j < recipients m
                 /\ computeSendEmailInput m j mangler = Ok p
                 /\ index m j = Some r
                 /\ ses.Destination_ p
                    = {| ses.ToAddresses := [Mangle mangler (Recipient_Addr r)];
                         ses.CcAddresses := []; ses.BccAddresses := [] |})
         (transmissions (trace_of run))
       /\ (length (transmissions (trace_of run)) <= length (attempts (trace_of run)))%nat));
    unfold trace_of, status_of; cbn [fst snd]; try (intros; split; [constructor|simpl; lia]).
  intros m' svc1 rate k' Hm' _ _ Hk'.
  rewrite Hm in Hm'. injection Hm' as <-. rewrite Hk in Hk'. injection Hk' as <-.
  destruct (sendLoop_transmissions fuel svc1 job m mangler k) as (Hres & Hlen & _).
  destruct (sendLoop fuel svc1 job m mangler k) as [[[svc2 job2] evs] st].
  unfold trace_of, status_of in *; cbn [fst snd] in *.
  change (EvGetSendQuota :: EvNewBucket rate :: evs ++ deferred_Stop st)
    with ([EvGetSendQuota; EvNewBucket rate] ++ evs ++ deferred_Stop st).
  rewrite !transmissions_app, !attempts_app.
  replace (transmissions (deferred_Stop st)) with (@nil ses.SendEmailInput)
    by (destruct st; reflexivity).
  replace (attempts (deferred_Stop st)) with (@nil Z) by (destruct st; reflexivity).
  simpl. rewrite !app_nil_r. split; [|exact Hlen].
  eapply Forall_impl; [exact Hres|]. simpl. intros p (j & Hj & Hp).
  destruct (computeSendEmailInput_Ok_inv m j mangler p Hp) as (r & Hr & Hd & _).
  exists j, r. auto.
Qed.

(** X8. With the manglers that redirect, no request of any job ever goes
    to a recipient's own address: every request [processJob] hands to the
    service has the fixed address as its only destination, and no Cc and
    no Bcc address. *)
Theorem processJob_redirects (fuel : nat) svc job addr :
  Forall (fun p => ses.Destination_ p
                   = {| ses.ToAddresses := [addr]; ses.CcAddresses := []; ses.BccAddresses := [] |})
    (transmissions (trace_of (processJob fuel svc job (SendToMe addr))))
  /\ Forall (fun p => ses.Destination_ p
                      = {| ses.ToAddresses := ["success@simulator.amazonses.com"];
                           ses.CcAddresses := []; ses.BccAddresses := [] |})
       (transmissions (trace_of (processJob fuel svc job SendToSimulator))).
Proof.
  split.
  - apply processJob_transmissions_lift. intros m j p _ _ Hp.
    destruct (computeSendEmailInput_Ok_inv m j (SendToMe addr) p Hp) as (r & _ & Hd & _).
    exact Hd.
  - apply processJob_transmissions_lift. intros m j p _ _ Hp.
    destruct (computeSendEmailInput_Ok_inv m j SendToSimulator p Hp) as (r & _ & Hd & _).
    exact Hd.
Qed.

(** X9. The stored checkpoint follows the run.  For a job that keeps
    what is written to it (a write that succeeds is read back, and the
    terminal calls leave the attributes alone), whose checkpoint writes
    succeed and whose checkpoint values decode as encoded: after any run
    of [processJob], ended or still going, the checkpoint read from the
    job is the checkpoint it came with plus the number of checkpoint
    writes of the run. *)
Theorem processJob_checkpoint_tracks (fuel : nat) svc job mangler m k :
  (forall job v, exists job', Job_Set job name v = (job', None)) ->
  (forall job v job', Job_Set job name v = (job', None) -> Job_Get job' name = inr v) ->
  (forall job, Job_Get (Job_Fail job) name = Job_Get job name
               /\ Job_Get (Job_Finish job) name = Job_Get job name
               /\ Job_Get (Job_Submit job) name = Job_Get job name) ->
  (forall c, k < c <= recipients m ->
     json_Unmarshal_checkpoint (checkpointBytes c) = inr {| RecipientsSent := c |}) ->
  getMailing job = inr m ->
  getCheckpoint job = inr k ->
  getCheckpoint (processJob fuel svc job mangler).1.1.2
  = inr (k + Z.of_nat (length (checkpointWrites (trace_of (processJob fuel svc job mangler))))).
Proof.
  intros Hset Hback Hterm Hcodec Hm Hk.
  assert (Hfail : forall job, getCheckpoint (Job_Fail job) = getCheckpoint job).
  { intros j. unfold getCheckpoint. rewrite (proj1 (Hterm j)). reflexivity. }
  assert (Hfinish : forall job, getCheckpoint (Job_Finish job) = getCheckpoint job).
  { intros j. unfold getCheckpoint. rewrite (proj1 (proj2 (Hterm j))). reflexivity. }
  assert (Hsubmit : forall job, getCheckpoint (Job_Submit job) = getCheckpoint job).
  { intros j. unfold getCheckpoint. rewrite (proj2 (proj2 (Hterm j))). reflexivity. }
  assert (Hloop : forall (fuel : nat) svc job i,
            k <= i -> getCheckpoint job = inr i ->
            getCheckpoint (sendLoop fuel svc job m mangler i).1.1.2
            = inr (i + Z.of_nat (length (checkpointWrites
                                          (trace_of (sendLoop fuel svc job m mangler i)))))).
  { apply (sendLoop_cases m mangler
      (fun _ _ job i run =>
         k <= i -> getCheckpoint job = inr i ->
         getCheckpoint run.1.1.2
         = inr (i + Z.of_nat (length (checkpointWrites (trace_of run))))));
      unfold trace_of, status_of; cbn [fst snd].
    - intros ? j i _ Hj. rewrite Hj. simpl. f_equal. lia.
    - intros ? ? j i _ _ Hj. rewrite Hfinish, Hj. simpl. f_equal. lia.
    - intros ? sv j i svc1 calls Hi Hsend _ Hj.
      destruct (send_calls_only _ _ _ _ _ _ _ Hsend) as (_ & Hc & _).
      change (EvAttempt i :: calls) with ([EvAttempt i] ++ calls).
      rewrite checkpointWrites_app, Hc, Hj. simpl. f_equal. lia.
    - intros f sv j i svc1 calls err Hi Hsend _.
      destruct (send_calls_only _ _ _ _ _ _ _ Hsend) as (_ & Hc & _).
      destruct (sendLoop f svc1 j m mangler i) as [[[svc2 job2] evs] st]. cbn [fst snd].
      intros IH Hki Hj. trace_simpl. rewrite Hc. simpl. apply IH; assumption.
    - intros ? sv j i svc1 calls err Hi Hsend _ _ Hj.
      destruct (send_calls_only _ _ _ _ _ _ _ Hsend) as (_ & Hc & _).
      trace_simpl. rewrite Hc, Hfail, Hj. simpl. f_equal. lia.
    - intros ? sv j i svc1 calls mid job1 err Hi Hsend Hs.
      destruct (Hset j (checkpointBytes (i + 1))) as [j' Hj']. rewrite Hj' in Hs. discriminate Hs.
    - intros f sv j i svc1 calls mid job1 Hi Hsend Hs.
      destruct (send_calls_only _ _ _ _ _ _ _ Hsend) as (_ & Hc & _).
      destruct (sendLoop f svc1 job1 m mangler (i + 1)) as [[[svc2 job2] evs] st]. cbn [fst snd].
      intros IH Hki Hj. trace_simpl. rewrite Hc. simpl.
      rewrite IH; [f_equal; lia|lia|].
      unfold getCheckpoint. rewrite (Hback _ _ _ Hs), Hcodec by lia. reflexivity. }
  apply (processJob_cases fuel svc job mangler
    (fun run => getCheckpoint run.1.1.2
                = inr (k + Z.of_nat (length (checkpointWrites (trace_of run))))));
    unfold trace_of, status_of; cbn [fst snd].
  - intros _. rewrite Hfail, Hk. simpl. f_equal. lia.
  - intros _ _. rewrite Hk. simpl. f_equal. lia.
  - intros _ _. rewrite Hsubmit, Hk. simpl. f_equal. lia.
  - intros _ rate err _ _. rewrite Hfail, Hk. simpl. f_equal. lia.
  - intros m' svc1 rate k' Hm' _ _ Hk'.
    rewrite Hm in Hm'. injection Hm' as <-. rewrite Hk in Hk'. injection Hk' as <-.
    specialize (Hloop fuel svc1 job k (Z.le_refl k) Hk).
    destruct (sendLoop fuel svc1 job m mangler k) as [[[svc2 job2] evs] st].
    unfold trace_of, status_of in *; cbn [fst snd] in *.
    change (EvGetSendQuota :: EvNewBucket rate :: evs ++ deferred_Stop st)
      with ([EvGetSendQuota; EvNewBucket rate] ++ evs ++ deferred_Stop st).
    rewrite !checkpointWrites_app.
    replace (checkpointWrites (deferred_Stop st)) with (@nil string) by (destruct st; reflexivity).
    simpl. rewrite app_nil_r. exact Hloop.
Qed.

(** X10. Writing a checkpoint and reading it back: when the write
    succeeds on a job that reads back what was written, and the value
    decodes as encoded, [getCheckpoint] gives the value [setCheckpoint]
    was called with. *)
Theorem checkpoint_round_trip job job' i :
  setCheckpoint job i = (job', None) ->
  (forall v, Job_Set job name v = (job', None) -> Job_Get job' name = inr v) ->
  json_Unmarshal_checkpoint (checkpointBytes i) = inr {| RecipientsSent := i |} ->
  getCheckpoint job' = inr i.
Proof.
  unfold setCheckpoint. fold (checkpointBytes i).
  destruct (Job_Set job name (checkpointBytes i)) as [j [err|]] eqn:Hs; [discriminate|].
  intros [= ->] Hback Hcodec.
  unfold getCheckpoint. rewrite (Hback _ Hs), Hcodec. reflexivity.
Qed.

(** X11. The mailing [getMailing] builds carries the spec decoded from
    the job's [spec] attribute, and a template exactly for each source
    that is not empty, compiled from that source; an empty source is never
    handed to the template parser. *)
Theorem getMailing_templates job m :
  getMailing job = inr m ->
  (exists specbytes, Job_Get job "spec" = inr specbytes /\ parseSpec specbytes = inr (spec m))
  /\ match textTemplate m with
     | None => Spec_Text (spec m) = ""
     | Some t => Spec_Text (spec m) <> "" /\ ttemplate_Parse (Spec_Text (spec m)) = inr t
     end
  /\ match htmlTemplate m with
     | None => Spec_Html (spec m) = ""
     | Some t => Spec_Html (spec m) <> "" /\ htemplate_Parse (Spec_Html (spec m)) = inr t
     end.
Proof.
  unfold getMailing.
  destruct (Job_Get job "spec") as [e|specbytes]; [discriminate|].
  destruct (parseSpec specbytes) as [e|sp] eqn:Hsp; [discriminate|].
  destruct (decide (Spec_Text sp = "")) as [Ht|Ht].
  - destruct (decide (Spec_Html sp = "")) as [Hh|Hh].
    + intros [= <-]. simpl. repeat split; eauto.
    + destruct (htemplate_Parse (Spec_Html sp)) as [e|h] eqn:Hph; [discriminate|].
      intros [= <-]. simpl. repeat split; eauto.
  - destruct (ttemplate_Parse (Spec_Text sp)) as [e|t] eqn:Hpt; [discriminate|].
    destruct (decide (Spec_Html sp = "")) as [Hh|Hh].
    + intros [= <-]. simpl. repeat split; eauto.
    + destruct (htemplate_Parse (Spec_Html sp)) as [e|h] eqn:Hph; [discriminate|].
      intros [= <-]. simpl. repeat split; eauto.
Qed.

(** X12. A job whose mailing cannot be built is failed, and that is all
    that happens: the service is not called and nothing is written.  The
    error names the stage: the [spec] attribute cannot be read, the spec
    does not decode, or a template source that is not empty does not
    parse. *)
Theorem processJob_build_failure (fuel : nat) svc job mangler err :
  getMailing job = inl err ->
  processJob fuel svc job mangler = (svc, Job_Fail job, [EvFail], Returned)
  /\ ((exists e, Job_Get job "spec" = inl e
                 /\ err = errorString ("Cannot get spec: " +:+ Error e))
      \/ (exists specbytes e,
            Job_Get job "spec" = inr specbytes /\ parseSpec specbytes = inl e
            /\ err = errorString ("Cannot parse spec: " +:+ Error e))
      \/ (exists specbytes sp e,
            Job_Get job "spec" = inr specbytes /\ parseSpec specbytes = inr sp
            /\ Spec_Text sp <> "" /\ ttemplate_Parse (Spec_Text sp) = inl e
            /\ err = errorString ("Cannot parse text template: " +:+ Error e))
      \/ (exists specbytes sp e,
            Job_Get job "spec" = inr specbytes /\ parseSpec specbytes = inr sp
            /\ Spec_Html sp <> "" /\ htemplate_Parse (Spec_Html sp) = inl e
            /\ err = errorString ("Cannot parse html template: " +:+ Error e))).
Proof.
  intros Hm. split; [unfold processJob; rewrite Hm; reflexivity|].
  unfold getMailing in Hm.
  destruct (Job_Get job "spec") as [e|specbytes]; [injection Hm as <-; left; eauto|].
  destruct (parseSpec specbytes) as [e|sp] eqn:Hsp;
    [injection Hm as <-; right; left; eauto|].
  destruct (decide (Spec_Text sp = "")) as [Ht|Ht].
  - destruct (decide (Spec_Html sp = "")) as [Hh|Hh]; [discriminate|].
    destruct (htemplate_Parse (Spec_Html sp)) as [e|h] eqn:Hph; [|discriminate].
    injection Hm as <-. right; right; right. eauto 10.
  - destruct (ttemplate_Parse (Spec_Text sp)) as [e|t] eqn:Hpt.
    + injection Hm as <-. right; right; left. eauto 10.
    + destruct (decide (Spec_Html sp = "")) as [Hh|Hh]; [discriminate|].
      destruct (htemplate_Parse (Spec_Html sp)) as [e|h] eqn:Hph; [|discriminate].
      injection Hm as <-. right; right; right. eauto 10.
Qed.

(** X13. A job whose checkpoint cannot be read -- the attribute is there
    but the read fails for another reason than its absence, or its
    content does not decode -- is failed without any attempt, after the
    rate query, and the token bucket created for it is stopped. *)
Theorem processJob_checkpoint_unreadable (fuel : nat) svc job mangler m svc1 rate err :
  getMailing job = inr m ->
  dryRun m mangler = Ok tt ->
  GetSendQuota svc = (svc1, inr (Some rate)) ->
  getCheckpoint job = inl err ->
  processJob fuel svc job mangler
  = (svc1, Job_Fail job, [EvGetSendQuota; EvNewBucket rate; EvFail; EvStop], Returned)
  /\ ((Job_Get job name = inl err /\ os_IsNotExist err = false)
      \/ (exists checkpointBytes e,
            Job_Get job name = inr checkpointBytes
            /\ json_Unmarshal_checkpoint checkpointBytes = inl e
            /\ err = errorString ("Cannot parse contents of " +:+ name +:+ ": " +:+ Error e))).
Proof.
  intros Hm Hdry Hq Hk. split.
  - unfold processJob, getMaxSendRate. rewrite Hm, Hdry, Hq, Hk. reflexivity.
  - unfold getCheckpoint in Hk.
    destruct (Job_Get job name) as [e|b].
    + destruct (os_IsNotExist e) eqn:Hne; [discriminate|]. injection Hk as <-. left. auto.
    + destruct (json_Unmarshal_checkpoint b) as [e|c] eqn:Hc; [|discriminate].
      injection Hk as <-. right. eauto.
Qed.

(** X14. The checkpointing step.  After a send for recipient i that
    succeeds, the checkpoint is written with i+1 at once; when the write
    succeeds the loop goes on with recipient i+1 on the job as written,
    and when it fails the job is failed on the spot, although the
    recipient has been sent to: no further recipient is attempted. *)
Theorem sendLoop_checkpoint_step (fuel : nat) svc job m mangler i svc1 calls messageId job1 res :
  i < recipients m ->
  send svc m i mangler = (svc1, calls, Ok messageId) ->
  Job_Set job name (checkpointBytes (i + 1)) = (job1, res) ->
  sendLoop (Datatypes.S fuel) svc job m mangler i
  = match res with
    | Some _ =>
        (svc1, Job_Fail job1,
         EvAttempt i :: calls ++ [EvSet name (checkpointBytes (i + 1)); EvFail], Returned)
    | None =>
        ((sendLoop fuel svc1 job1 m mangler (i + 1)).1.1.1,
         (sendLoop fuel svc1 job1 m mangler (i + 1)).1.1.2,
         EvAttempt i :: calls ++ EvSet name (checkpointBytes (i + 1))
           :: trace_of (sendLoop fuel svc1 job1 m mangler (i + 1)),
         status_of (sendLoop fuel svc1 job1 m mangler (i + 1)))
    end.
Proof.
  intros Hi Hsend Hset. cbn [sendLoop]. fold (recipients m).
  rewrite decide_True by exact Hi. rewrite Hsend.
  unfold setCheckpoint. fold (checkpointBytes (i + 1)). rewrite Hset.
  destruct res as [e|]; [reflexivity|].
  destruct (sendLoop fuel svc1 job1 m mangler (i + 1)) as [[[svc2 job2] evs] st]. reflexivity.
Qed.

End JobProperties.

Section DriverProperties.
Context `{rt : GoRuntime} {S : Type} `{svcI : !sesService S} `{newI : sesClient S}
  {J : Type} `{jobI : Job J} {Q : Type} `{queueI : Queue Q J}.

Implicit Types (mangler : Mangler S) (svc : S) (q : Q) (mode : processMode).

(** The loop of the driver, in all modes at once. *)
Lemma processLoop_shape (fuel jobFuel : nat) q svc mode mangler :
  rescues (processLoop fuel jobFuel q svc mode mangler).1.2 = O
  /\ (length (jobTraces (processLoop fuel jobFuel q svc mode mangler).1.2)
      + sleeps (processLoop fuel jobFuel q svc mode mangler).1.2
      <= takes (processLoop fuel jobFuel q svc mode mangler).1.2
      <= length (jobTraces (processLoop fuel jobFuel q svc mode mangler).1.2)
         + sleeps (processLoop fuel jobFuel q svc mode mangler).1.2 + 1)%nat
  /\ (mode <> foreverMode -> sleeps (processLoop fuel jobFuel q svc mode mangler).1.2 = O)
  /\ (mode = oneMode -> (takes (processLoop fuel jobFuel q svc mode mangler).1.2 <= 1)%nat)
  /\ (mode <> foreverMode -> (processLoop fuel jobFuel q svc mode mangler).2 = Done ->
      takes (processLoop fuel jobFuel q svc mode mangler).1.2
      = Datatypes.S (length (jobTraces (processLoop fuel jobFuel q svc mode mangler).1.2))
      \/ (mode = oneMode
          /\ takes (processLoop fuel jobFuel q svc mode mangler).1.2 = 1%nat
          /\ length (jobTraces (processLoop fuel jobFuel q svc mode mangler).1.2) = 1%nat))
  /\ (mode = foreverMode -> (processLoop fuel jobFuel q svc mode mangler).2 <> Done)
  /\ Forall (fun t => exists svc' job, t = trace_of (processJob jobFuel svc' job mangler))
       (jobTraces (processLoop fuel jobFuel q svc mode mangler).1.2).
Proof.
  revert q svc. induction fuel as [|fuel IH]; intros q svc; cbn [processLoop].
  - unfold rescues, takes, sleeps, jobTraces. simpl.
    repeat split; try lia; try discriminate; try constructor.
  - destruct (Take q) as [q1 [err|[job|]]].
    + unfold rescues, takes, sleeps, jobTraces. simpl.
      repeat split; try lia; try discriminate; try constructor.
    + destruct (processJob jobFuel svc job mangler) as [[[svc1 job1] tr] st] eqn:Hrun.
      assert (Htr : exists svc' job', tr = trace_of (processJob jobFuel svc' job' mangler)).
      { exists svc, job. rewrite Hrun. reflexivity. }
      destruct st.
      * destruct mode.
        -- specialize (IH (Settle q1 job1) svc1).
           destruct (processLoop fuel jobFuel (Settle q1 job1) svc1 foreverMode mangler)
             as [[[q2 svc2] evs] ex].
           unfold rescues, takes, sleeps, jobTraces in *. simpl in *.
           destruct IH as (H1 & H2 & H3 & H4 & H5 & H6 & H7).
           repeat split; try lia; try congruence; auto.
        -- unfold rescues, takes, sleeps, jobTraces. simpl.
           repeat split; try lia; try discriminate; auto.
        -- specialize (IH (Settle q1 job1) svc1).
           destruct (processLoop fuel jobFuel (Settle q1 job1) svc1 allMode mangler)
             as [[[q2 svc2] evs] ex].
           unfold rescues, takes, sleeps, jobTraces in *. simpl in *.
           destruct IH as (H1 & H2 & H3 & H4 & H5 & H6 & H7).
           repeat split; try lia; try congruence; auto.
           intros Hm Hex. left. destruct (H5 Hm Hex) as [->|(Habs & _)]; [reflexivity|discriminate].
      * unfold rescues, takes, sleeps, jobTraces. simpl.
        repeat split; try lia; try discriminate; auto.
      * unfold rescues, takes, sleeps, jobTraces. simpl.
        repeat split; try lia; try discriminate; auto.
    + destruct mode.
      * specialize (IH q1 svc).
        destruct (processLoop fuel jobFuel q1 svc foreverMode mangler) as [[[q2 svc2] evs] ex].
        unfold rescues, takes, sleeps, jobTraces in *. simpl in *.
        destruct IH as (H1 & H2 & H3 & H4 & H5 & H6 & H7).
        repeat split; try lia; try congruence; auto.
      * unfold rescues, takes, sleeps, jobTraces. simpl.
        repeat split; try lia; try discriminate; auto.
      * unfold rescues, takes, sleeps, jobTraces. simpl.
        repeat split; try lia; try discriminate; auto.
Qed.

(** The ways [process] can go: the queue does not open, no service can
    be made, or the loop runs on the rescued queue. *)
Lemma process_cases (fuel jobFuel : nat) (env queueDir : string) mode mangler
    (P : option Q * option S * list driverEvent * exit -> Prop) :
  (forall err, OpenQueue queueDir = inl err ->
     P (None, None, [DrOpenQueue queueDir],
        Fatal ("Failed to open queue " +:+ queueDir +:+ ": " +:+ Error err))) ->
  (forall q, OpenQueue queueDir = inr q -> SesService mangler = None -> env = "" ->
     P (Some q, None, [DrOpenQueue queueDir],
        Fatal "You must set the AWS_DEFAULT_REGION environment variable")) ->
  (forall q svc, OpenQueue queueDir = inr q ->
     (SesService mangler = Some svc \/ (SesService mangler = None /\ env <> "" /\ svc = ses_New env)) ->
     P (Some (processLoop fuel jobFuel (RescueDeadJobs q) svc mode mangler).1.1.1,
        Some (processLoop fuel jobFuel (RescueDeadJobs q) svc mode mangler).1.1.2,
        DrOpenQueue queueDir :: DrRescueDeadJobs
          :: (processLoop fuel jobFuel (RescueDeadJobs q) svc mode mangler).1.2,
        (processLoop fuel jobFuel (RescueDeadJobs q) svc mode mangler).2)) ->
  P (process fuel jobFuel env queueDir mode mangler).
Proof.
  intros Hopen Hnone Hloop. unfold process.
  destruct (OpenQueue queueDir) as [err|q] eqn:Hq; [apply Hopen; reflexivity|].
  destruct (SesService mangler) as [svc|] eqn:Hs.
  - specialize (Hloop q svc eq_refl (or_introl eq_refl)).
    destruct (processLoop fuel jobFuel (RescueDeadJobs q) svc mode mangler) as [[[q' svc'] evs] ex].
    exact Hloop.
  - unfold getSesConfig. case_bool_decide as He.
    + apply Hnone; auto.
    + specialize (Hloop q (ses_New env) eq_refl (or_intror (conj eq_refl (conj He eq_refl)))).
      destruct (processLoop fuel jobFuel (RescueDeadJobs q) (ses_New env) mode mangler)
        as [[[q' svc'] evs] ex].
      exact Hloop.
Qed.

(** [process] on a queue that opens, with a service at hand: the loop
    runs on the rescued queue. *)
Lemma process_on_loop (fuel jobFuel : nat) (env queueDir : string) mode mangler q svc :
  OpenQueue queueDir = inr q ->
  (SesService mangler = Some svc \/ (SesService mangler = None /\ env <> "" /\ svc = ses_New env)) ->
  process fuel jobFuel env queueDir mode mangler
  = (Some (processLoop fuel jobFuel (RescueDeadJobs q) svc mode mangler).1.1.1,
     Some (processLoop fuel jobFuel (RescueDeadJobs q) svc mode mangler).1.1.2,
     DrOpenQueue queueDir :: DrRescueDeadJobs
       :: (processLoop fuel jobFuel (RescueDeadJobs q) svc mode mangler).1.2,
     (processLoop fuel jobFuel (RescueDeadJobs q) svc mode mangler).2).
Proof.
  intros Hq Hsvc. unfold process. rewrite Hq.
  destruct Hsvc as [Hs|(Hs & He & ->)]; rewrite Hs.
  - destruct (processLoop fuel jobFuel (RescueDeadJobs q) svc mode mangler) as [[[q' svc'] evs] ex].
    reflexivity.
  - unfold getSesConfig. rewrite bool_decide_false by exact He.
    destruct (processLoop fuel jobFuel (RescueDeadJobs q) (ses_New env) mode mangler)
      as [[[q' svc'] evs] ex].
    reflexivity.
Qed.

(** What the loop does first is a [Take]. *)
Lemma processLoop_first_take (fuel jobFuel : nat) q svc mode mangler first rest :
  (processLoop fuel jobFuel q svc mode mangler).1.2 = first :: rest -> first = DrTake.
Proof.
  destruct fuel as [|fuel]; cbn [processLoop]; [intros [=]|].
  destruct (Take q) as [q1 [err|[job|]]].
  - intros [= <- _]. reflexivity.
  - destruct (processJob jobFuel svc job mangler) as [[[svc1 job1] tr] st].
    destruct st; [destruct mode| |];
      try destruct (processLoop fuel jobFuel (Settle q1 job1) svc1 _ mangler) as [[[q2 svc2] evs] ex];
      intros [= <- _]; reflexivity.
  - destruct mode;
      try destruct (processLoop fuel jobFuel q1 svc _ mangler) as [[[q2 svc2] evs] ex];
      intros [= <- _]; reflexivity.
Qed.

(** A loop in the mode of [Process] that returns has drained the queue. *)
Lemma processLoop_drained (fuel jobFuel : nat) q svc mangler q' svc' evs :
  processLoop fuel jobFuel q svc allMode mangler = (q', svc', evs, Done) ->
  exists trs, evs = drainedTrace trs /\ Drained jobFuel mangler q svc q' svc' trs.
Proof.
  revert q svc q' svc' evs.
  induction fuel as [|fuel IH]; intros q svc q' svc' evs; cbn [processLoop]; [intros [=]|].
  destruct (Take q) as [q1 [err|[job|]]] eqn:Htake.
  - intros [=].
  - destruct (processJob jobFuel svc job mangler) as [[[svc1 job1] tr] st] eqn:Hrun.
    destruct st; try (intros [=]; fail).
    destruct (processLoop fuel jobFuel (Settle q1 job1) svc1 allMode mangler)
      as [[[q2 svc2] evs2] ex] eqn:Hloop.
    intros [= <- <- <- ->].
    destruct (IH _ _ _ _ _ Hloop) as (trs & -> & Hd).
    exists (tr :: trs). split; [reflexivity|].
    eapply Drained_job; eauto.
  - intros [= <- <- <-]. exists []. split; [reflexivity|].
    apply Drained_empty. exact Htake.
Qed.

(** A queue that drains is drained by the loop, given a pass for every
    job and one more. *)
Lemma Drained_processLoop (jobFuel : nat) mangler q svc q' svc' trs :
  Drained jobFuel mangler q svc q' svc' trs ->
  forall fuel : nat, (length trs < fuel)%nat ->
    processLoop fuel jobFuel q svc allMode mangler = (q', svc', drainedTrace trs, Done).
Proof.
  induction 1 as [q q1 svc Htake|q q1 job svc svc1 job1 tr q' svc' trs Htake Hrun Hd IH];
    intros fuel Hfuel; (destruct fuel as [|fuel]; [simpl in Hfuel; lia|]);
    cbn [processLoop]; rewrite Htake.
  - reflexivity.
  - rewrite Hrun. rewrite (IH fuel) by (simpl in Hfuel; lia). reflexivity.
Qed.

Lemma drainedTrace_counts (trs : list (list event)) :
  takes (drainedTrace trs) = Datatypes.S (length trs)
  /\ jobTraces (drainedTrace trs) = trs
  /\ sleeps (drainedTrace trs) = O.
Proof.
  unfold drainedTrace, takes, jobTraces, sleeps.
  induction trs as [|tr trs (IH1 & IH2 & IH3)]; [repeat split|].
  simpl in *. rewrite IH1, IH2, IH3. repeat split.
Qed.


(** X15. [process] rescues the dead jobs exactly when the queue opens and
    a service is at hand, and then exactly once, on the queue it opened
    and before the first take: the loop runs on the rescued queue, what
    it does first is a take, and nothing is rescued again.  When the
    queue does not open, or when there is no service and no region, the
    run is fatal after the opening: nothing is rescued and no job is
    taken. *)
Theorem process_rescues_first (fuel jobFuel : nat) (env queueDir : string) mode mangler :
  (forall err, OpenQueue queueDir = inl err ->
     process fuel jobFuel env queueDir mode mangler
     = (None, None, [DrOpenQueue queueDir],
        Fatal ("Failed to open queue " +:+ queueDir +:+ ": " +:+ Error err)))
  /\ (forall q, OpenQueue queueDir = inr q -> SesService mangler = None -> env = "" ->
      process fuel jobFuel env queueDir mode mangler
      = (Some q, None, [DrOpenQueue queueDir],
         Fatal "You must set the AWS_DEFAULT_REGION environment variable"))
  /\ (forall q svc, OpenQueue queueDir = inr q ->
      (SesService mangler = Some svc \/ (SesService mangler = None /\ env <> "" /\ svc = ses_New env)) ->
      process fuel jobFuel env queueDir mode mangler
      = (Some (processLoop fuel jobFuel (RescueDeadJobs q) svc mode mangler).1.1.1,
         Some (processLoop fuel jobFuel (RescueDeadJobs q) svc mode mangler).1.1.2,
         DrOpenQueue queueDir :: DrRescueDeadJobs
           :: (processLoop fuel jobFuel (RescueDeadJobs q) svc mode mangler).1.2,
         (processLoop fuel jobFuel (RescueDeadJobs q) svc mode mangler).2)
      /\ rescues (processLoop fuel jobFuel (RescueDeadJobs q) svc mode mangler).1.2 = O
      /\ (forall first rest,
            (processLoop fuel jobFuel (RescueDeadJobs q) svc mode mangler).1.2 = first :: rest ->
            first = DrTake)).
Proof.
  split; [|split].
  - intros err Hq. unfold process. rewrite Hq. reflexivity.
  - intros q Hq Hs ->. unfold process. rewrite Hq, Hs. reflexivity.
  - intros q svc Hq Hsvc. split; [|split].
    + apply process_on_loop; assumption.
    + apply (processLoop_shape fuel jobFuel (RescueDeadJobs q) svc mode mangler).
    + intros first rest. apply processLoop_first_take.
Qed.

(** X16. [ProcessOne] takes from the queue at most once, processes at
    most one job, and never sleeps. *)
Theorem ProcessOne_at_most_one (fuel jobFuel : nat) (env queueDir : string) mangler :
  (length (jobTraces (ProcessOne fuel jobFuel env queueDir mangler).1.2)
   <= takes (ProcessOne fuel jobFuel env queueDir mangler).1.2 <= 1)%nat
  /\ sleeps (ProcessOne fuel jobFuel env queueDir mangler).1.2 = O.
Proof.
  unfold ProcessOne.
  apply (process_cases fuel jobFuel env queueDir oneMode mangler
    (fun run => (length (jobTraces run.1.2) <= takes run.1.2 <= 1)%nat /\ sleeps run.1.2 = O));
    cbn [fst snd].
  - intros err _. unfold jobTraces, takes, sleeps. simpl. lia.
  - intros q _ _ _. unfold jobTraces, takes, sleeps. simpl. lia.
  - intros q svc _ _.
    destruct (processLoop_shape fuel jobFuel (RescueDeadJobs q) svc oneMode mangler)
      as (_ & H2 & H3 & H4 & _).
    specialize (H3 ltac:(discriminate)). specialize (H4 eq_refl).
    unfold jobTraces, takes, sleeps in *. simpl. lia.
Qed.

(** X17. [Process] never sleeps, and it returns exactly when the queue
    drains.  When it returns, the queue had opened, the loop ran on the
    rescued queue, every take but the last handed out a job, each of
    these jobs was processed by [processJob], in the order taken and with
    the service as the job before left it, and went back to the queue as
    processing left it; the last take found no job, and the queue is
    returned as that take left it.  So there is one take more than there
    are jobs.  The other way round, a queue that drains in fewer jobs
    than the loop has passes makes [Process] return. *)
Theorem Process_until_empty (fuel jobFuel : nat) (env queueDir : string) mangler :
  sleeps (Process fuel jobFuel env queueDir mangler).1.2 = O
  /\ ((Process fuel jobFuel env queueDir mangler).2 = Done ->
      takes (Process fuel jobFuel env queueDir mangler).1.2
      = Datatypes.S (length (jobTraces (Process fuel jobFuel env queueDir mangler).1.2))
      /\ exists q svc q' svc' trs,
           OpenQueue queueDir = inr q
           /\ (SesService mangler = Some svc
               \/ (SesService mangler = None /\ env <> "" /\ svc = ses_New env))
           /\ Drained jobFuel mangler (RescueDeadJobs q) svc q' svc' trs
           /\ Process fuel jobFuel env queueDir mangler
              = (Some q', Some svc', DrOpenQueue queueDir :: DrRescueDeadJobs :: drainedTrace trs, Done))
  /\ (forall q svc q' svc' trs,
        OpenQueue queueDir = inr q ->
        (SesService mangler = Some svc \/ (SesService mangler = None /\ env <> "" /\ svc = ses_New env)) ->
        Drained jobFuel mangler (RescueDeadJobs q) svc q' svc' trs ->
        (length trs < fuel)%nat ->
        Process fuel jobFuel env queueDir mangler
        = (Some q', Some svc', DrOpenQueue queueDir :: DrRescueDeadJobs :: drainedTrace trs, Done)).
Proof.
  unfold Process. split; [|split].
  - apply (process_cases fuel jobFuel env queueDir allMode mangler
      (fun run => sleeps run.1.2 = O)); cbn [fst snd]; try reflexivity.
    intros q svc _ _.
    destruct (processLoop_shape fuel jobFuel (RescueDeadJobs q) svc allMode mangler)
      as (_ & _ & H3 & _).
    exact (H3 ltac:(discriminate)).
  - apply (process_cases fuel jobFuel env queueDir allMode mangler
      (fun run =>
         run.2 = Done ->
         takes run.1.2 = Datatypes.S (length (jobTraces run.1.2))
         /\ exists q svc q' svc' trs,
              OpenQueue queueDir = inr q
              /\ (SesService mangler = Some svc
                  \/ (SesService mangler = None /\ env <> "" /\ svc = ses_New env))
              /\ Drained jobFuel mangler (RescueDeadJobs q) svc q' svc' trs
              /\ run = (Some q', Some svc',
                        DrOpenQueue queueDir :: DrRescueDeadJobs :: drainedTrace trs, Done)));
      cbn [fst snd].
    + intros err _ [=].
    + intros q _ _ _ [=].
    + intros q svc Hq Hsvc.
      destruct (processLoop fuel jobFuel (RescueDeadJobs q) svc allMode mangler)
        as [[[q' svc'] evs] ex] eqn:Hloop.
      cbn [fst snd]. intros ->.
      destruct (processLoop_drained _ _ _ _ _ _ _ _ Hloop) as (trs & -> & Hd).
      destruct (drainedTrace_counts trs) as (Ht & Hj & _).
      split.
      * change (takes (DrOpenQueue queueDir :: DrRescueDeadJobs :: drainedTrace trs))
          with (takes (drainedTrace trs)).
        change (jobTraces (DrOpenQueue queueDir :: DrRescueDeadJobs :: drainedTrace trs))
          with (jobTraces (drainedTrace trs)).
        rewrite Ht, Hj. reflexivity.
      * exists q, svc, q', svc', trs. auto.
  - intros q svc q' svc' trs Hq Hsvc Hd Hfuel.
    rewrite (process_on_loop fuel jobFuel env queueDir allMode mangler q svc Hq Hsvc).
    rewrite (Drained_processLoop _ _ _ _ _ _ _ Hd fuel Hfuel). reflexivity.
Qed.


(** X19. The service [process] works with.  A mangler that brings its own
    service makes the run independent of the environment: the region
    variable is not looked at.  Without one, an empty region variable is
    fatal once the queue is open: nothing is rescued and no job is
    taken. *)
Theorem process_service_choice (fuel jobFuel : nat) (queueDir : string) mode mangler :
  (forall svc env env', SesService mangler = Some svc ->
     process fuel jobFuel env queueDir mode mangler
     = process fuel jobFuel env' queueDir mode mangler)
  /\ (forall q, SesService mangler = None -> OpenQueue queueDir = inr q ->
      process fuel jobFuel "" queueDir mode mangler
      = (Some q, None, [DrOpenQueue queueDir],
         Fatal "You must set the AWS_DEFAULT_REGION environment variable")).
Proof.
  split.
  - intros svc env env' Hs. unfold process. rewrite Hs. reflexivity.
  - intros q Hs Hq. unfold process. rewrite Hq, Hs. reflexivity.
Qed.

(** X20. The worker's flags.  With [-donotsend], whatever the other flags
    say, no job the worker processes hands anything to the transmission
    service; without it and with [-simulator], every request of every job
    goes to the simulator's address, whatever [-sendto] says; with
    [-sendto] alone, every request goes to the address given. *)
Theorem worker_flags (fuel jobFuel : nat) (env queueDir : string) (simulator : bool) (sendTo : string) :
  Forall (fun t => transmissions t = [])
    (jobTraces (ProcessForever fuel jobFuel env queueDir (main_mangler true simulator sendTo)).1.2)
  /\ Forall (fun t =>
       Forall (fun p => ses.ToAddresses (ses.Destination_ p) = ["success@simulator.amazonses.com"])
         (transmissions t))
       (jobTraces (ProcessForever fuel jobFuel env queueDir (main_mangler false true sendTo)).1.2)
  /\ (sendTo <> "" ->
      Forall (fun t =>
        Forall (fun p => ses.ToAddresses (ses.Destination_ p) = [sendTo]) (transmissions t))
        (jobTraces (ProcessForever fuel jobFuel env queueDir (main_mangler false false sendTo)).1.2)).
Proof.
  assert (Hjobs : forall mangler (R : list event -> Prop),
            (forall svc job, R (trace_of (processJob jobFuel svc job mangler))) ->
            Forall R (jobTraces (ProcessForever fuel jobFuel env queueDir mangler).1.2)).
  { intros mangler R HR. unfold ProcessForever.
    apply (process_cases fuel jobFuel env queueDir foreverMode mangler
      (fun run => Forall R (jobTraces run.1.2))); cbn [fst snd]; try (intros; constructor).
    intros q svc _ _.
    destruct (processLoop_shape fuel jobFuel (RescueDeadJobs q) svc foreverMode mangler)
      as (_ & _ & _ & _ & _ & _ & H7).
    unfold jobTraces in *. simpl.
    eapply Forall_impl; [exact H7|]. simpl. intros t (svc' & job & ->). apply HR. }
  split; [|split].
  - apply Hjobs. intros svc job.
    assert (Hnone : Forall (fun _ => False)
              (transmissions (trace_of (processJob jobFuel svc job
                                          (main_mangler true simulator sendTo))))).
    { apply processJob_transmissions_lift. intros m j p _ Hs _. discriminate Hs. }
    destruct (transmissions _) as [|p l]; [reflexivity|]. inversion Hnone as [|? ? []].
  - apply Hjobs. intros svc job. apply processJob_transmissions_lift. intros m j p _ _ Hp.
    destruct (computeSendEmailInput_Ok_inv m j _ p Hp) as (r & _ & Hd & _).
    rewrite Hd. reflexivity.
  - intros Hne. apply Hjobs. intros svc job. apply processJob_transmissions_lift.
    intros m j p _ _ Hp.
    destruct (computeSendEmailInput_Ok_inv m j _ p Hp) as (r & _ & Hd & _).
    rewrite Hd. unfold main_mangler. rewrite bool_decide_false by exact Hne. reflexivity.
Qed.

End DriverProperties.

(** ** The further theorems at concrete jobs *)

Example Process_two_jobs :
  (drive.process_mock 5 5 "" "/tmp/queue" allMode (UseMockSesService mockSES)).2 = Done
  /\ takes (drive.process_mock 5 5 "" "/tmp/queue" allMode (UseMockSesService mockSES)).1.2 = 3%nat
  /\ map attempts
       (jobTraces (drive.process_mock 5 5 "" "/tmp/queue" allMode (UseMockSesService mockSES)).1.2)
     = [[0; 1]; [0]]
  /\ (fun s => nsent <$> s)
       (drive.process_mock 5 5 "" "/tmp/queue" allMode (UseMockSesService mockSES)).1.1.2
     = Some 3%nat.
Proof. repeat split; reflexivity. Qed.

Lemma MockJob_reads_back :
  forall (job : MockJob) key v job', Job_Set job key v = (job', None) -> Job_Get job' key = inr v.
Proof.
  intros job key v job' [= <-].
  change (MockJob_Get (MockJob_Set job key v).1 key = inr v).
  unfold MockJob_Get, MockJob_Set. cbn [fst attrs].
  rewrite lookup_insert_eq. reflexivity.
Qed.

Lemma X2_witness :
  exists pre, trace_of (run.processJob_mock 3 mockSES (newJob "two") DoNotMangle) = pre ++ [EvStop].
Proof.
  apply (@processJob_bucket_lifecycle run.rt MockSES (MockSES_sesService docs) MockJob MockJob_Job
           3%nat mockSES (newJob "two") DoNotMangle).
  - reflexivity.
  - discriminate.
Defined.

Lemma X3_witness :
  attributeWrites (trace_of (run.processJob_mock 3 mockSES (newJob "two") DoNotMangle))
  = (fun c => (name, checkpointBytes c))
      <$> seqZ (0 + 1)
            (Z.of_nat (length (attributeWrites
                                 (trace_of (run.processJob_mock 3 mockSES (newJob "two") DoNotMangle)))))
  /\ (run.processJob_mock 3 mockSES (newJob "two") DoNotMangle).1.1.2
     = terminated
         (written (newJob "two")
            (seqZ (0 + 1)
               (Z.of_nat (length (attributeWrites
                                    (trace_of (run.processJob_mock 3 mockSES (newJob "two") DoNotMangle)))))))
         (terminalCalls (trace_of (run.processJob_mock 3 mockSES (newJob "two") DoNotMangle))).
Proof.
  refine ((fun H => conj (proj1 H) (proj2 (proj2 H)))
            (@processJob_checkpoint_writes run.rt MockSES (MockSES_sesService docs) MockJob MockJob_Job
               3%nat mockSES (newJob "two") DoNotMangle (run.mailingOf spec_two) 0 _ _)).
  - reflexivity.
  - reflexivity.
Defined.

Lemma X4_witness :
  1 = 0 + Z.of_nat (length (checkpointWrites
                              (take 5 (trace_of (run.processJob_mock 3 mockSES (newJob "two")
                                                   DoNotMangle))))).
Proof.
  apply (@processJob_attempt_at_checkpoint run.rt MockSES (MockSES_sesService docs) MockJob
           MockJob_Job 3%nat mockSES (newJob "two") DoNotMangle 0
           (take 5 (trace_of (run.processJob_mock 3 mockSES (newJob "two") DoNotMangle))) 1
           (drop 6 (trace_of (run.processJob_mock 3 mockSES (newJob "two") DoNotMangle)))).
  - reflexivity.
  - reflexivity.
Defined.

Lemma X5_witness :
  checkpointWrites (trace_of (run.processJob_mock 3 mockSES (resumedJob "two" 1) DoNotMangle))
  = checkpointBytes <$> seqZ (1 + 1) (recipients (run.mailingOf spec_two) - 1)
  /\ (run.processJob_mock 3 mockSES (resumedJob "two" 1) DoNotMangle).1.1.2
     = Job_Finish (written (resumedJob "two" 1) (seqZ (1 + 1) (recipients (run.mailingOf spec_two) - 1))).
Proof.
  refine ((fun H => conj (proj1 H) (proj2 (proj2 (proj2 H))))
            (@processJob_finish_complete run.rt MockSES (MockSES_sesService docs) MockJob MockJob_Job
               3%nat mockSES (resumedJob "two" 1) DoNotMangle (run.mailingOf spec_two) 1 _ _ _)).
  - reflexivity.
  - reflexivity.
  - reflexivity.
Defined.

Lemma X6_witness :
  transmissions (trace_of (run.processJob_mock 3 mockSES (newJob "two") DoNotSend)) = [].
Proof.
  apply (@processJob_no_send run.rt MockSES (MockSES_sesService docs) MockJob MockJob_Job
           3%nat mockSES (newJob "two") DoNotSend).
  reflexivity.
Defined.

Lemma X7_witness :
  (length (transmissions (trace_of (run.processJob_mock 3 mockSES (resumedJob "two" 1) DoNotMangle)))
   <= length (attempts (trace_of (run.processJob_mock 3 mockSES (resumedJob "two" 1) DoNotMangle))))%nat.
Proof.
  apply (@processJob_sends_resolved run.rt MockSES (MockSES_sesService docs) MockJob MockJob_Job
           3%nat mockSES (resumedJob "two" 1) DoNotMangle (run.mailingOf spec_two) 1).
  - reflexivity.
  - reflexivity.
Defined.

Lemma X9_witness :
  @getCheckpoint run.rt MockJob MockJob_Job
    (run.processJob_mock 2 mockSES (newJob "two") DoNotMangle).1.1.2
  = inr (0 + Z.of_nat (length (checkpointWrites
                                 (trace_of (run.processJob_mock 2 mockSES (newJob "two") DoNotMangle))))).
Proof.
  apply (@processJob_checkpoint_tracks run.rt MockSES (MockSES_sesService docs) MockJob MockJob_Job
           2%nat mockSES (newJob "two") DoNotMangle (run.mailingOf spec_two) 0).
  - exact MockJob_always_writes.
  - intros job v job'. apply MockJob_reads_back.
  - intros job. repeat split.
  - intros c Hc. assert (Hcases : c = 1 \/ c = 2) by (unfold recipients in Hc; simpl in Hc; lia).
    destruct Hcases as [-> | ->]; reflexivity.
  - reflexivity.
  - reflexivity.
Defined.

Lemma X10_witness :
  @getCheckpoint run.rt MockJob MockJob_Job (MockJob_Set (newJob "both") name (checkpointBytes 42)).1
  = inr 42.
Proof.
  apply (@checkpoint_round_trip run.rt MockJob MockJob_Job (newJob "both")
           (MockJob_Set (newJob "both") name (checkpointBytes 42)).1 42).
  - reflexivity.
  - intros v. apply MockJob_reads_back.
  - reflexivity.
Defined.

Lemma X11_witness :
  exists specbytes,
    Job_Get (newJob "both") "spec" = inr specbytes
    /\ @parseSpec run.rt specbytes = inr (spec (run.mailingOf spec_both)).
Proof.
  refine (proj1 (@getMailing_templates run.rt MockJob MockJob_Job (newJob "both")
                   (run.mailingOf spec_both) _)).
  reflexivity.
Defined.

Lemma X12_witness :
  run.processJob_mock 3 mockSES drive.blankJob DoNotMangle
  = (mockSES, Job_Fail drive.blankJob, [EvFail], Returned).
Proof.
  apply (@processJob_build_failure run.rt MockSES (MockSES_sesService docs) MockJob MockJob_Job
           3%nat mockSES drive.blankJob DoNotMangle
           (errorString ("Cannot get spec: " +:+ "open spec: no such file or directory"))).
  reflexivity.
Defined.

Lemma X13_witness :
  run.processJob_mock 3 mockSES (drive.corruptJob "two") DoNotMangle
  = (mockSES, Job_Fail (drive.corruptJob "two"),
     [EvGetSendQuota; @EvNewBucket run.rt (3 # 1)%Q; EvFail; EvStop], Returned).
Proof.
  apply (@processJob_checkpoint_unreadable run.rt MockSES (MockSES_sesService docs) MockJob
           MockJob_Job 3%nat mockSES (drive.corruptJob "two") DoNotMangle (run.mailingOf spec_two)
           mockSES (3 # 1)%Q
           (errorString ("Cannot parse contents of " +:+ name +:+ ": " +:+ "invalid character"))).
  - reflexivity.
  - reflexivity.
  - reflexivity.
  - reflexivity.
Defined.

Lemma X14_witness :
  @sendLoop run.rt MockSES (MockSES_sesService docs) MockJob MockJob_Job 2 mockSES (newJob "two")
    (run.mailingOf spec_two) DoNotMangle 0
  = (let svc1 := (@send run.rt MockSES (MockSES_sesService docs) mockSES (run.mailingOf spec_two) 0
                    DoNotMangle).1.1 in
     let calls := (@send run.rt MockSES (MockSES_sesService docs) mockSES (run.mailingOf spec_two) 0
                     DoNotMangle).1.2 in
     let job1 := (MockJob_Set (newJob "two") name (checkpointBytes (0 + 1))).1 in
     let next := @sendLoop run.rt MockSES (MockSES_sesService docs) MockJob MockJob_Job 1 svc1 job1
                   (run.mailingOf spec_two) DoNotMangle (0 + 1) in
     (next.1.1.1, next.1.1.2,
      EvAttempt 0 :: calls ++ EvSet name (checkpointBytes (0 + 1)) :: trace_of next,
      status_of next)).
Proof.
  apply (@sendLoop_checkpoint_step run.rt MockSES (MockSES_sesService docs) MockJob MockJob_Job
           1%nat mockSES (newJob "two") (run.mailingOf spec_two) DoNotMangle 0
           (@send run.rt MockSES (MockSES_sesService docs) mockSES (run.mailingOf spec_two) 0
              DoNotMangle).1.1
           (@send run.rt MockSES (MockSES_sesService docs) mockSES (run.mailingOf spec_two) 0
              DoNotMangle).1.2
           "foo"
           (MockJob_Set (newJob "two") name (checkpointBytes (0 + 1))).1 None).
  - unfold recipients; simpl; lia.
  - reflexivity.
  - reflexivity.
Defined.

Lemma X15_witness :
  drive.process_mock 5 5 "" "/tmp/queue" allMode (UseMockSesService mockSES)
  = (Some (drive.processLoop_mock 5 5 (fixtureQueue.MockQueue_RescueDeadJobs (fixtureQueue.queueOf drive.jobs))
             mockSES allMode (UseMockSesService mockSES)).1.1.1,
     Some (drive.processLoop_mock 5 5 (fixtureQueue.MockQueue_RescueDeadJobs (fixtureQueue.queueOf drive.jobs))
             mockSES allMode (UseMockSesService mockSES)).1.1.2,
     DrOpenQueue "/tmp/queue" :: DrRescueDeadJobs
       :: (drive.processLoop_mock 5 5 (fixtureQueue.MockQueue_RescueDeadJobs (fixtureQueue.queueOf drive.jobs))
             mockSES allMode (UseMockSesService mockSES)).1.2,
     (drive.processLoop_mock 5 5 (fixtureQueue.MockQueue_RescueDeadJobs (fixtureQueue.queueOf drive.jobs))
        mockSES allMode (UseMockSesService mockSES)).2)
  /\ rescues (drive.processLoop_mock 5 5
                (fixtureQueue.MockQueue_RescueDeadJobs (fixtureQueue.queueOf drive.jobs))
                mockSES allMode (UseMockSesService mockSES)).1.2 = O
  /\ (forall first rest,
        (drive.processLoop_mock 5 5 (fixtureQueue.MockQueue_RescueDeadJobs (fixtureQueue.queueOf drive.jobs))
           mockSES allMode (UseMockSesService mockSES)).1.2 = first :: rest ->
        first = DrTake).
Proof.
  refine (proj2 (proj2
            (@process_rescues_first run.rt MockSES (MockSES_sesService docs) MockSES_sesClient MockJob
               MockJob_Job fixtureQueue.MockQueue (MockQueue_Queue drive.jobs) 5%nat 5%nat ""
               "/tmp/queue" allMode (UseMockSesService mockSES)))
            (fixtureQueue.queueOf drive.jobs) mockSES _ _).
  - reflexivity.
  - left. reflexivity.
Defined.

Lemma X17_witness :
  takes (drive.process_mock 5 5 "" "/tmp/queue" allMode (UseMockSesService mockSES)).1.2
  = Datatypes.S (length (jobTraces (drive.process_mock 5 5 "" "/tmp/queue" allMode
                                      (UseMockSesService mockSES)).1.2))
  /\ exists q svc q' svc' trs,
       @OpenQueue _ _ (MockQueue_Queue drive.jobs) "/tmp/queue" = inr q
       /\ (SesService (UseMockSesService mockSES) = Some svc
           \/ (SesService (UseMockSesService mockSES) = None /\ "" <> "" /\ svc = ses_New ""))
       /\ @Drained run.rt MockSES (MockSES_sesService docs) MockJob MockJob_Job fixtureQueue.MockQueue
            (MockQueue_Queue drive.jobs) 5 (UseMockSesService mockSES)
            (fixtureQueue.MockQueue_RescueDeadJobs q) svc q' svc' trs
       /\ drive.process_mock 5 5 "" "/tmp/queue" allMode (UseMockSesService mockSES)
          = (Some q', Some svc', DrOpenQueue "/tmp/queue" :: DrRescueDeadJobs :: drainedTrace trs, Done).
Proof.
  refine (proj1 (proj2
            (@Process_until_empty run.rt MockSES (MockSES_sesService docs) MockSES_sesClient MockJob
               MockJob_Job fixtureQueue.MockQueue (MockQueue_Queue drive.jobs) 5%nat 5%nat ""
               "/tmp/queue" (UseMockSesService mockSES))) _).
  reflexivity.
Defined.


Lemma X19_witness :
  drive.process_mock 5 5 "" "/tmp/queue" oneMode (UseMockSesService mockSES)
  = drive.process_mock 5 5 "us-east-1" "/tmp/queue" oneMode (UseMockSesService mockSES).
Proof.
  apply (@process_service_choice run.rt MockSES (MockSES_sesService docs) MockSES_sesClient MockJob
           MockJob_Job fixtureQueue.MockQueue (MockQueue_Queue drive.jobs) 5%nat 5%nat
           "/tmp/queue" oneMode (UseMockSesService mockSES)) with (svc := mockSES).
  reflexivity.
Defined.

Lemma X20_witness :
  Forall (fun t =>
    Forall (fun p => ses.ToAddresses (ses.Destination_ p) = ["me@example.com"]) (transmissions t))
    (jobTraces (@ProcessForever run.rt MockSES (MockSES_sesService docs) MockSES_sesClient MockJob
                  MockJob_Job fixtureQueue.MockQueue (MockQueue_Queue drive.jobs) 5 5 "us-east-1"
                  "/tmp/queue" (main_mangler false false "me@example.com")).1.2).
Proof.
  apply (@worker_flags run.rt MockSES (MockSES_sesService docs) MockSES_sesClient MockJob
           MockJob_Job fixtureQueue.MockQueue (MockQueue_Queue drive.jobs) 5%nat 5%nat "us-east-1"
           "/tmp/queue" false "me@example.com").
  discriminate.
Defined.
